(** * Ascend internal tracker: a shallow embedding of [app.py] and
    [create_admin.py], and the properties of its request handlers.

    The relational store is a record of tables, each a finite map from
    the integer primary key to the row.  A request handler is a
    computation in a small unit-of-work monad: it reads and writes the
    working copy of the store held by [db.session], [commit] makes the
    working copy durable, and an uncaught exception ends the request
    with the durable store as the last commit left it. *)

From Stdlib Require Import ZArith Ascii String.
From stdpp Require Import gmap strings list fin_maps.

Local Open Scope string_scope.
Local Open Scope Z_scope.

(** ** The Python built-ins the handlers call

    A [string] is read as a sequence of characters with code points
    below 256. *)

Module Py.

(** [str.isspace] on one character. *)
Definition isspace (c : ascii) : bool :=
  let n := N_of_ascii c in
  ((9 <=? n) && (n <=? 13) || (28 <=? n) && (n <=? 32)
   || (n =? 133) || (n =? 160))%N.

Fixpoint lstrip (s : string) : string :=
  match s with
  | EmptyString => EmptyString
  | String c r => if isspace c then lstrip r else s
  end.

Fixpoint rstrip (s : string) : string :=
  match s with
  | EmptyString => EmptyString
  | String c r =>
      match rstrip r with
      | EmptyString => if isspace c then EmptyString else String c EmptyString
      | r' => String c r'
      end
  end.

(** [s.strip()] *)
Definition strip (s : string) : string := rstrip (lstrip s).

Definition lower_char (c : ascii) : ascii :=
  let n := N_of_ascii c in
  if ((65 <=? n) && (n <=? 90)
      || (192 <=? n) && (n <=? 222) && negb (n =? 215))%N
  then ascii_of_N (n + 32) else c.

(** [s.lower()] *)
Fixpoint lower (s : string) : string :=
  match s with
  | EmptyString => EmptyString
  | String c r => String (lower_char c) (lower r)
  end.

(** Truth value of a string: non-empty. *)
Definition truthy (s : string) : bool :=
  match s with EmptyString => false | String _ _ => true end.

(** Truth value of [request.form.get(k)]: present and non-empty. *)
Definition truthy_opt (o : option string) : bool :=
  match o with Some s => truthy s | None => false end.

(** Truth value of an optional integer: present and non-zero. *)
Definition truthy_int (o : option Z) : bool :=
  match o with Some z => negb (z =? 0) | None => false end.

(** [x or None] on the result of [request.form.get(k)]. *)
Definition or_None (o : option string) : option string :=
  if truthy_opt o then o else None.

Definition digit (c : ascii) : option Z :=
  let n := N_of_ascii c in
  if ((48 <=? n) && (n <=? 57))%N then Some (Z.of_N (n - 48)) else None.

(** Decimal digits, single underscores allowed between two digits. *)
Fixpoint digits (acc : Z) (after_digit : bool) (s : string) : option Z :=
  match s with
  | EmptyString => if after_digit then Some acc else None
  | String c r =>
      match digit c with
      | Some d => digits (10 * acc + d) true r
      | None =>
          if Ascii.eqb c "_" && after_digit then digits acc false r else None
      end
  end.

(** The blanks [int] skips at both ends of its argument: the ASCII
    ones and, of the others below 256, NEL and NBSP, which it first
    turns into spaces.  The separators U+001C to U+001F are blanks for
    [str.strip] but not for [int]. *)
Definition int_space (c : ascii) : bool :=
  let n := N_of_ascii c in
  ((9 <=? n) && (n <=? 13) || (n =? 32) || (n =? 133) || (n =? 160))%N.

Fixpoint int_lstrip (s : string) : string :=
  match s with
  | EmptyString => EmptyString
  | String c r => if int_space c then int_lstrip r else s
  end.

Fixpoint int_rstrip (s : string) : string :=
  match s with
  | EmptyString => EmptyString
  | String c r =>
      match int_rstrip r with
      | EmptyString =>
          if int_space c then EmptyString else String c EmptyString
      | r' => String c r'
      end
  end.

(** Number of decimal digits in [s]. *)
Fixpoint count_digits (s : string) : Z :=
  match s with
  | EmptyString => 0
  | String c r =>
      (match digit c with Some _ => 1 | None => 0 end) + count_digits r
  end.

(** [sys.int_info.default_max_str_digits] *)
Definition max_str_digits : Z := 4300.

(** A numeral of at most [max_str_digits] digits. *)
Definition numeral (s : string) : option Z :=
  if count_digits s <=? max_str_digits then digits 0 false s else None.

(** [int(s)] for a string argument; [None] stands for [ValueError]. *)
Definition int (s : string) : option Z :=
  match int_rstrip (int_lstrip s) with
  | String "+" r => numeral r
  | String "-" r => Z.opp <$> numeral r
  | r => numeral r
  end.

(** The three fields of [datetime.strptime(s, "%Y-%m-%d").date()]. *)
Definition split_dash (s : string) : string * option string :=
  (fix go (s : string) : string * option string :=
     match s with
     | EmptyString => (EmptyString, None)
     | String c r =>
         if Ascii.eqb c "-" then (EmptyString, Some r)
         else let '(a, b) := go r in (String c a, b)
     end) s.

Definition all_digits (s : string) : option Z :=
  (fix go (acc : Z) (s : string) : option Z :=
     match s with
     | EmptyString => Some acc
     | String c r =>
         match digit c with Some d => go (10 * acc + d) r | None => None end
     end) 0 s.

(** The directive [%m]: [1[0-2]|0[1-9]|[1-9]]. *)
Definition month_field (s : string) : option Z :=
  match all_digits s with
  | Some m =>
      if (1 <=? m) && (m <=? 12) && (Z.of_nat (String.length s) <=? 2)
         && (0 <? Z.of_nat (String.length s))
      then Some m else None
  | None => None
  end.

(** The directive [%d]: [3[01]|[12]\d|0[1-9]|[1-9]| [1-9]]. *)
Definition day_field (s : string) : option Z :=
  let body := match s with String " " (String c EmptyString) =>
                             if Ascii.eqb c "0" then s else String c EmptyString
                         | _ => s end in
  match all_digits body with
  | Some d =>
      if (1 <=? d) && (d <=? 31) && (Z.of_nat (String.length body) <=? 2)
         && (0 <? Z.of_nat (String.length body))
      then Some d else None
  | None => None
  end.

Definition is_leap (y : Z) : bool :=
  (y mod 4 =? 0) && (negb (y mod 100 =? 0) || (y mod 400 =? 0)).

Definition days_in_month (y m : Z) : Z :=
  if m =? 2 then (if is_leap y then 29 else 28)
  else if (m =? 4) || (m =? 6) || (m =? 9) || (m =? 11) then 30 else 31.

(** A calendar date (year, month, day); [None] stands for [ValueError]. *)
Definition strptime_ymd (s : string) : option (Z * Z * Z) :=
  let '(ys, rest) := split_dash s in
  match rest with
  | None => None
  | Some rest =>
      let '(ms, rest') := split_dash rest in
      match rest' with
      | None => None
      | Some ds =>
          if negb (String.length ys =? 4)%nat then None else
          y ← all_digits ys; m ← month_field ms; d ← day_field ds;
          if (1 <=? y) && (d <=? days_in_month y m) then Some (y, m, d)
          else None
      end
  end.

End Py.

(** ** The models (tables) of [app.py]

    One module per model class; a row is the record of its columns
    without the primary key, which is the key of the table.  A
    [DateTime] is a count of clock ticks, a [Date] a calendar triple. *)

Module User.
Record t := mk {
  name : string;
  email : string;
  password_hash : string;
  role : string;
  active : bool }.
Definition with_role (r : string) (u : t) : t :=
  mk (name u) (email u) (password_hash u) r (active u).
Definition with_active (a : bool) (u : t) : t :=
  mk (name u) (email u) (password_hash u) (role u) a.
End User.

Module Event.
Record t := mk {
  name : string;
  date_start : Z * Z * Z;
  date_end : Z * Z * Z;
  location : option string }.
End Event.

Module Session.
Record t := mk {
  event_id : Z;
  label : string;
  date : Z * Z * Z;
  time_block : option string }.
End Session.

Module Package.
Record t := mk {
  name : string;
  description : option string }.
End Package.

Module Athlete.
Record t := mk {
  name : string;
  team : option string;
  weight_class : option string;
  notes : option string }.
End Athlete.

Module AthleteSession.
Record t := mk {
  athlete_id : Z;
  session_id : Z;
  package_id : Z;
  music_link : option string;
  music_start : option string;
  music_end : option string;
  paid : bool;
  notes : option string }.
End AthleteSession.

Module SdCard.
Record t := mk {
  label : string;
  capacity_gb : option Z;
  status : string }.
Definition with_status (s : string) (c : t) : t :=
  mk (label c) (capacity_gb c) s.
End SdCard.

Module SdCardLog.
Record t := mk {
  sd_card_id : Z;
  user_id : Z;
  event_id : option Z;
  session_id : option Z;
  purpose : option string;
  checked_out_at : Z;
  returned_at : option Z }.
Definition with_returned_at (r : option Z) (l : t) : t :=
  mk (sd_card_id l) (user_id l) (event_id l) (session_id l) (purpose l)
     (checked_out_at l) r.
End SdCardLog.

Module ManpowerAllocation.
Record t := mk {
  event_id : Z;
  session_id : Z;
  user_id : Z;
  role : string;
  notes : option string }.
End ManpowerAllocation.

Module EditTask.
Record t := mk {
  athlete_session_id : Z;
  assigned_to_user_id : Z;
  type : string;
  status : string;
  deliverable_link : option string;
  updated_at : Z }.
Definition with_status (s : string) (k : t) : t :=
  mk (athlete_session_id k) (assigned_to_user_id k) (type k) s
     (deliverable_link k) (updated_at k).
Definition with_deliverable_link (d : option string) (k : t) : t :=
  mk (athlete_session_id k) (assigned_to_user_id k) (type k) (status k)
     d (updated_at k).
Definition with_updated_at (u : Z) (k : t) : t :=
  mk (athlete_session_id k) (assigned_to_user_id k) (type k) (status k)
     (deliverable_link k) u.
End EditTask.

(** The values a new row binds to [Integer] columns, the generated
    primary key apart.  ([Boolean] columns bind 0 or 1, [Date] and
    [DateTime] columns bind text.) *)
Class IntColumns (A : Type) := int_columns : A → list Z.

#[global] Instance User_ints : IntColumns User.t := λ _, [].
#[global] Instance Event_ints : IntColumns Event.t := λ _, [].
#[global] Instance Session_ints : IntColumns Session.t :=
  λ r, [Session.event_id r].
#[global] Instance Package_ints : IntColumns Package.t := λ _, [].
#[global] Instance Athlete_ints : IntColumns Athlete.t := λ _, [].
#[global] Instance AthleteSession_ints : IntColumns AthleteSession.t :=
  λ r, [AthleteSession.athlete_id r; AthleteSession.session_id r;
        AthleteSession.package_id r].
#[global] Instance SdCard_ints : IntColumns SdCard.t :=
  λ r, option_list (SdCard.capacity_gb r).
#[global] Instance SdCardLog_ints : IntColumns SdCardLog.t :=
  λ r, ([SdCardLog.sd_card_id r; SdCardLog.user_id r]
        ++ option_list (SdCardLog.event_id r)
        ++ option_list (SdCardLog.session_id r))%list.
#[global] Instance ManpowerAllocation_ints
  : IntColumns ManpowerAllocation.t :=
  λ r, [ManpowerAllocation.event_id r; ManpowerAllocation.session_id r;
        ManpowerAllocation.user_id r].
#[global] Instance EditTask_ints : IntColumns EditTask.t :=
  λ r, [EditTask.athlete_session_id r; EditTask.assigned_to_user_id r].

(** ** The store

    One table per model.  The store checks what the database the code
    falls back to (SQLite, as SQLAlchemy opens it) checks: the primary
    keys, which are the keys of the maps, and the two UNIQUE columns,
    [users.email] and [sd_cards.label], when a row is inserted.  The
    foreign keys and the column lengths the models declare are not
    checked.  An integer is a signed 64-bit one: the driver refuses to
    bind any other to a statement. *)

Record Store := mkStore {
  users : gmap Z User.t;
  events : gmap Z Event.t;
  sessions : gmap Z Session.t;
  packages : gmap Z Package.t;
  athletes : gmap Z Athlete.t;
  athlete_sessions : gmap Z AthleteSession.t;
  sd_cards : gmap Z SdCard.t;
  sd_card_logs : gmap Z SdCardLog.t;
  manpower_allocations : gmap Z ManpowerAllocation.t;
  edit_tasks : gmap Z EditTask.t }.

Definition empty_store : Store :=
  mkStore ∅ ∅ ∅ ∅ ∅ ∅ ∅ ∅ ∅ ∅.

Definition with_users (m : gmap Z User.t) (s : Store) : Store :=
  mkStore m (events s) (sessions s) (packages s) (athletes s)
    (athlete_sessions s) (sd_cards s) (sd_card_logs s)
    (manpower_allocations s) (edit_tasks s).
Definition with_events (m : gmap Z Event.t) (s : Store) : Store :=
  mkStore (users s) m (sessions s) (packages s) (athletes s)
    (athlete_sessions s) (sd_cards s) (sd_card_logs s)
    (manpower_allocations s) (edit_tasks s).
Definition with_sessions (m : gmap Z Session.t) (s : Store) : Store :=
  mkStore (users s) (events s) m (packages s) (athletes s)
    (athlete_sessions s) (sd_cards s) (sd_card_logs s)
    (manpower_allocations s) (edit_tasks s).
Definition with_packages (m : gmap Z Package.t) (s : Store) : Store :=
  mkStore (users s) (events s) (sessions s) m (athletes s)
    (athlete_sessions s) (sd_cards s) (sd_card_logs s)
    (manpower_allocations s) (edit_tasks s).
Definition with_athletes (m : gmap Z Athlete.t) (s : Store) : Store :=
  mkStore (users s) (events s) (sessions s) (packages s) m
    (athlete_sessions s) (sd_cards s) (sd_card_logs s)
    (manpower_allocations s) (edit_tasks s).
Definition with_athlete_sessions (m : gmap Z AthleteSession.t) (s : Store)
  : Store :=
  mkStore (users s) (events s) (sessions s) (packages s) (athletes s)
    m (sd_cards s) (sd_card_logs s)
    (manpower_allocations s) (edit_tasks s).
Definition with_sd_cards (m : gmap Z SdCard.t) (s : Store) : Store :=
  mkStore (users s) (events s) (sessions s) (packages s) (athletes s)
    (athlete_sessions s) m (sd_card_logs s)
    (manpower_allocations s) (edit_tasks s).
Definition with_sd_card_logs (m : gmap Z SdCardLog.t) (s : Store) : Store :=
  mkStore (users s) (events s) (sessions s) (packages s) (athletes s)
    (athlete_sessions s) (sd_cards s) m
    (manpower_allocations s) (edit_tasks s).
Definition with_manpower_allocations (m : gmap Z ManpowerAllocation.t)
  (s : Store) : Store :=
  mkStore (users s) (events s) (sessions s) (packages s) (athletes s)
    (athlete_sessions s) (sd_cards s) (sd_card_logs s)
    m (edit_tasks s).
Definition with_edit_tasks (m : gmap Z EditTask.t) (s : Store) : Store :=
  mkStore (users s) (events s) (sessions s) (packages s) (athletes s)
    (athlete_sessions s) (sd_cards s) (sd_card_logs s)
    (manpower_allocations s) m.

(** ** The exceptions the handlers meet *)

Inductive Exn :=
  | HTTPException (code : Z)
  | ValueError
  | TypeError
  | AttributeError
  | IntegrityError
  | OverflowError.

(** ** The engine

    [fits_int64 z]: the driver can bind the Python integer [z]; for any
    other it raises [OverflowError] before the statement runs. *)
Definition fits_int64 (z : Z) : bool := (- 2 ^ 63 <=? z) && (z <? 2 ^ 63).

(** A text compared with an integer key column is read by the engine
    under the column's affinity: [text_key s] is the key the text [s]
    stands for, if any.  What SQLite reads differs from what [int]
    reads (["1e0"] and ["2.0"] are keys, ["1_0"] is none) and depends
    on its conversion of decimal text to floating point; the handlers
    only pass the text on, so the reading is left to the engine. *)
Class Sqlite := {
  text_key : string → option Z }.

(** ** Queries on one table *)

Module Query.
Section table.
Context {A : Type}.

(** The key the engine gives the next inserted row: one more than the
    largest key in use (rows are never deleted). *)
Definition next_id (m : gmap Z A) : Z :=
  1 + map_fold (λ k _ acc, Z.max k acc) 0 m.

(** The row under the key [k]. *)
Definition row (k : Z) (m : gmap Z A) : option (Z * A) :=
  (λ r, (k, r)) <$> m !! k.

(** [Model.query.get(k)] with an integer key, or with [None], which
    finds nothing. *)
Definition get (k : option Z) (m : gmap Z A) : Exn + option (Z * A) :=
  match k with
  | Some k => if fits_int64 k then inr (row k m) else inl OverflowError
  | None => inr None
  end.

(** [Model.query.get(s)] with the text of a form field, which is bound
    as text and compared by the engine. *)
Definition get_text `{DB : !Sqlite} (s : option string) (m : gmap Z A)
  : option (Z * A) :=
  k ← s ≫= text_key; row k m.

Definition least (x : Z * A) (acc : option (Z * A)) : option (Z * A) :=
  match acc with
  | Some y => if bool_decide (x.1 < y.1) then Some x else acc
  | None => Some x
  end.

(** [Model.query.filter_by(...).first()]: the matching row with the
    least key. *)
Definition first (P : Z * A → Prop) `{!∀ x, Decision (P x)}
    (m : gmap Z A) : option (Z * A) :=
  foldr least None (filter P (map_to_list m)).

End table.
End Query.

(** ** Requests, responses and the unit of work *)

Inductive Method := GET | POST.

#[global] Instance Method_eq_dec : EqDecision Method.
Proof. solve_decision. Defined.

(** [cookie] is the user id kept in the signed login session, as
    [load_user] reads it with [int]; [form] and [args] keep the order
    of the submitted fields, and a lookup takes the first value of a
    key. *)
Record Request := mkRequest {
  method : Method;
  cookie : option Z;
  form : list (string * string);
  args : list (string * string) }.

(** What a handler reads from outside the store: the clock
    ([datetime.utcnow()]) and the random salt of a new password hash. *)
Record Env := mkEnv {
  utcnow : Z;
  salt : string }.

(** The password functions of [werkzeug.security]. *)
Class Werkzeug := {
  generate_password_hash : string → string → string;
  check_password_hash : string → string → bool }.

Inductive Response :=
  | Redirect (endpoint : string)
  | Render (template : string)
  | Abort (code : Z)
  | ServerError (e : Exn).

(** [durable] is the committed store, [working] the state of
    [db.session], [flashed] the messages queued by [flash], and
    [logged_in] the user id in the login session. *)
Record Ctx := mkCtx {
  durable : Store;
  working : Store;
  flashed : list (string * string);
  logged_in : option Z }.

Definition M (A : Type) : Type := Ctx → Ctx * (Exn + A).

#[global] Instance M_ret : MRet M := λ A a c, (c, inr a).

#[global] Instance M_bind : MBind M := λ A B k m c,
  match m c with
  | (c', inr a) => k a c'
  | (c', inl e) => (c', inl e)
  end.

Definition raise {A} (e : Exn) : M A := λ c, (c, inl e).

Definition abort {A} (code : Z) : M A := raise (HTTPException code).

Definition flash (message category : string) : M unit := λ c,
  (mkCtx (durable c) (working c) (flashed c ++ [(message, category)])
     (logged_in c), inr ()).

(** [db.session.commit()] *)
Definition commit : M unit := λ c,
  (mkCtx (working c) (working c) (flashed c) (logged_in c), inr ()).

Definition select {A} (q : Store → A) : M A := λ c, (c, inr (q (working c))).

(** A query that fails when a parameter cannot be bound. *)
Definition query {A} (q : Store → Exn + A) : M A := λ c, (c, q (working c)).

Definition modify (f : Store → Store) : M unit := λ c,
  (mkCtx (durable c) (f (working c)) (flashed c) (logged_in c), inr ()).

(** The driver binds the integers of a new row. *)
Definition bind_ints {A} `{!IntColumns A} (r : A) : M unit :=
  if forallb fits_int64 (int_columns r) then mret ()
  else raise OverflowError.

(** [db.session.add(row)] for a new row, flushed: the integers of the
    row are bound and the row is written under a fresh key, which is
    returned.  The handlers do nothing between adding a row and the
    flush of [commit], so the row is written at once. *)
Definition insert_row {A} `{!IntColumns A} (table : Store → gmap Z A)
    (put : gmap Z A → Store → Store) (r : A) : M Z :=
  bind_ints r;;
  k ← select (λ st, Query.next_id (table st));
  modify (λ st, put (<[k := r]> (table st)) st);;
  mret k.

(** An attribute assignment on a loaded row. *)
Definition update_row {A} (table : Store → gmap Z A)
    (put : gmap Z A → Store → Store) (k : Z) (r : A) : M unit :=
  modify (λ st, put (<[k := r]> (table st)) st).

(** [sd_cards.label] is UNIQUE; the constraint is checked when the
    statement runs, after its parameters were bound. *)
Definition insert_sd_card (r : SdCard.t) : M Z :=
  bind_ints r;;
  dup ← select (λ st,
    Query.first (λ x, SdCard.label x.2 = SdCard.label r) (sd_cards st));
  match dup with
  | Some _ => raise IntegrityError
  | None => insert_row sd_cards with_sd_cards r
  end.

(** [users.email] is UNIQUE. *)
Definition insert_user (r : User.t) : M Z :=
  dup ← select (λ st,
    Query.first (λ x, User.email x.2 = User.email r) (users st));
  match dup with
  | Some _ => raise IntegrityError
  | None => insert_row users with_users r
  end.

(** [int(s)] *)
Definition int (s : option string) : M Z :=
  match s with
  | None => raise TypeError
  | Some s =>
      match Py.int s with Some z => mret z | None => raise ValueError end
  end.

(** [int(s) if s else None] *)
Definition int_if (s : option string) : M (option Z) :=
  if Py.truthy_opt s then z ← int s; mret (Some z) else mret None.

Fixpoint lookup_field (k : string) (f : list (string * string))
  : option string :=
  match f with
  | [] => None
  | (k', v) :: r => if String.eqb k k' then Some v else lookup_field k r
  end.

(** [request.form.get(k)], [request.form.get(k, d)] and
    [request.form.get(k, type=int)] *)
Definition form_get (req : Request) (k : string) : option string :=
  lookup_field k (form req).
Definition form_get_or (req : Request) (k d : string) : string :=
  default d (form_get req k).
Definition form_get_int (req : Request) (k : string) : option Z :=
  form_get req k ≫= Py.int.
Definition args_get_int (req : Request) (k : string) : option Z :=
  lookup_field k (args req) ≫= Py.int.

Definition is_post (req : Request) : bool :=
  match method req with POST => true | GET => false end.

(** A listing query with one [filter(column == id)] for each id that
    is set (not [None], not zero): the ids are bound when the query
    runs.  The rows go to the template. *)
Definition filters_fit (ids : list (option Z)) : bool :=
  forallb (λ o, negb (Py.truthy_int o) || fits_int64 (default 0 o)) ids.

#[global] Arguments filters_fit : simpl never.

Definition listing (ids : list (option Z)) : M unit :=
  if filters_fit ids then mret () else raise OverflowError.

(** [a and b] with [b] evaluated only when [a] holds. *)
Definition and_then (a : bool) (b : M bool) : M bool :=
  if a then b else mret false.

(** ** Login manager and role decorator *)

(** The [user_loader] callback. *)
Definition load_user (user_id : Z) (st : Store)
  : Exn + option (Z * User.t) :=
  Query.get (Some user_id) (users st).

(** The user a login session stands for: anonymous ([None]) when the
    session holds no id or [load_user] finds no row. *)
Definition session_user_of (uid : option Z) (st : Store)
  : Exn + option (Z * User.t) :=
  match uid with
  | Some user_id => load_user user_id st
  | None => inr None
  end.

Definition current_user : M (option (Z * User.t)) := λ c,
  (c, session_user_of (logged_in c) (working c)).

(** An attribute of [current_user]; the anonymous user has none of the
    columns. *)
Definition current_user_attr {A} (f : Z * User.t → A) : M A :=
  u ← current_user;
  match u with
  | Some x => mret (f x)
  | None => raise AttributeError
  end.

Definition role_is_founder : M bool :=
  current_user_attr (λ x, bool_decide (User.role x.2 = "founder")).

Definition login_user (k : Z) : M unit := λ c,
  (mkCtx (durable c) (working c) (flashed c) (Some k), inr ()).

Definition logout_user : M unit := λ c,
  (mkCtx (durable c) (working c) (flashed c) None, inr ()).

Definition login_required (view : M Response) : M Response :=
  u ← current_user;
  match u with
  | Some _ => view
  | None =>
      flash "Please log in to access this page." "message";;
      mret (Redirect "login")
  end.

Definition founder_required (view : M Response) : M Response :=
  u ← current_user;
  match u with
  | Some (_, u) =>
      if bool_decide (User.role u ≠ "founder") then abort 403 else view
  | None => abort 403
  end.

(** A route declared without [methods=]: the router answers a POST
    with 405 before the view and its decorators run. *)
Definition get_only (view : Request → M Response) (req : Request)
  : M Response :=
  if is_post req then abort 405 else view req.

(** One request: run the view on the durable store, keep what was
    committed. *)
Record Outcome := mkOutcome {
  store : Store;
  flashes : list (string * string);
  session_user : option Z;
  response : Response }.

Definition serve (view : Request → M Response) (req : Request)
    (st : Store) : Outcome :=
  let '(c, r) := view req (mkCtx st st [] (cookie req)) in
  mkOutcome (durable c) (flashed c) (logged_in c)
    match r with
    | inr resp => resp
    | inl (HTTPException code) => Abort code
    | inl e => ServerError e
    end.

(** ** The views of [app.py] *)

Section views.
Context `{W : !Werkzeug} `{DB : !Sqlite}.
Variable env : Env.

(** [/login] *)
Definition login (req : Request) : M Response :=
  u ← current_user;
  match u with
  | Some _ => mret (Redirect "dashboard")
  | None =>
      if is_post req then
        let email := Py.lower (Py.strip (form_get_or req "email" "")) in
        let password := form_get_or req "password" "" in
        user ← select (λ st,
          Query.first (λ x, User.email x.2 = email ∧ User.active x.2 = true)
            (users st));
        match user with
        | Some (user_id, user) =>
            if check_password_hash (User.password_hash user) password then
              login_user user_id;;
              mret (Redirect "dashboard")
            else
              flash "Invalid email or password" "danger";;
              mret (Render "login.html")
        | None =>
            flash "Invalid email or password" "danger";;
            mret (Render "login.html")
        end
      else mret (Render "login.html")
  end.

(** [/logout] *)
Definition logout (req : Request) : M Response :=
  login_required (logout_user;; mret (Redirect "login")).

(** [/]: the counts shown are read-only queries. *)
Definition dashboard (req : Request) : M Response :=
  login_required (mret (Render "dashboard.html")).

Definition checkout (req : Request) : M unit :=
  let sd_card_id := form_get req "sd_card_id" in
  let event_id := Py.or_None (form_get req "event_id") in
  let session_id := Py.or_None (form_get req "session_id") in
  let purpose := form_get_or req "purpose" "" in
  card ← select (λ st, Query.get_text sd_card_id (sd_cards st));
  match card with
  | Some (card_id, card) =>
      if bool_decide (SdCard.status card = "available") then
        user_id ← current_user_attr fst;
        event_id ← int_if event_id;
        session_id ← int_if session_id;
        update_row sd_cards with_sd_cards card_id
          (SdCard.with_status "checked_out" card);;
        insert_row sd_card_logs with_sd_card_logs
          (SdCardLog.mk card_id user_id event_id session_id (Some purpose)
             (utcnow env) None);;
        commit;;
        flash "SD card checked out" "success"
      else flash "Card not available" "danger"
  | None => flash "Card not available" "danger"
  end.

Definition return_card (req : Request) : M unit :=
  let log_id := form_get req "log_id" in
  log ← select (λ st, Query.get_text log_id (sd_card_logs st));
  match log with
  | Some (log_id, log) =>
      if bool_decide (SdCardLog.returned_at log = None) then
        update_row sd_card_logs with_sd_card_logs log_id
          (SdCardLog.with_returned_at (Some (utcnow env)) log);;
        card ← query (λ st,
          Query.get (Some (SdCardLog.sd_card_id log)) (sd_cards st));
        match card with
        | Some (card_id, card) =>
            update_row sd_cards with_sd_cards card_id
              (SdCard.with_status "available" card);;
            commit;;
            flash "SD card returned" "success"
        | None => raise AttributeError
        end
      else flash "Could not return card" "danger"
  | None => flash "Could not return card" "danger"
  end.

(** [/sd-cards] *)
Definition sd_cards_view (req : Request) : M Response :=
  login_required (
    if is_post req then
      let action := form_get req "action" in
      add_card ←
        and_then (bool_decide (action = Some "add_card")) role_is_founder;
      (if (add_card : bool) then
         let label := Py.strip (form_get_or req "label" "") in
         let capacity_gb := Py.strip (form_get_or req "capacity_gb" "") in
         if Py.truthy label then
           capacity_gb ← int_if (Some capacity_gb);
           insert_sd_card (SdCard.mk label capacity_gb "available");;
           commit;;
           flash "SD card added" "success"
         else flash "Label is required" "danger"
       else if bool_decide (action = Some "checkout") then checkout req
       else if bool_decide (action = Some "return") then return_card req
       else mret ());;
      mret (Redirect "sd_cards_view")
    else mret (Render "sd_cards.html")).

Definition add_athlete_session (req : Request) : M unit :=
  let athlete_name := Py.strip (form_get_or req "athlete_name" "") in
  let team := Py.strip (form_get_or req "team" "") in
  let weight_class := Py.strip (form_get_or req "weight_class" "") in
  let notes := Py.strip (form_get_or req "notes" "") in
  let session_id := form_get req "session_id" in
  let package_id := form_get req "package_id" in
  let music_link := Py.strip (form_get_or req "music_link" "") in
  let music_start := Py.strip (form_get_or req "music_start" "") in
  let music_end := Py.strip (form_get_or req "music_end" "") in
  let paid := Py.truthy_opt (form_get req "paid") in
  if negb (Py.truthy athlete_name && Py.truthy_opt session_id
           && Py.truthy_opt package_id)
  then flash "Athlete name, session and package are required" "danger"
  else
    athlete ← select (λ st,
      Query.first
        (λ x, Athlete.name x.2 = athlete_name ∧ Athlete.team x.2 = Some team)
        (athletes st));
    athlete_id ←
      match athlete with
      | Some (athlete_id, _) => mret athlete_id
      | None =>
          insert_row athletes with_athletes
            (Athlete.mk athlete_name (Some team) (Some weight_class)
               (Some notes))
      end;
    session_id ← int session_id;
    package_id ← int package_id;
    insert_row athlete_sessions with_athlete_sessions
      (AthleteSession.mk athlete_id session_id package_id (Some music_link)
         (Some music_start) (Some music_end) paid (Some notes));;
    commit;;
    flash "Athlete session saved" "success".

(** [/athletes] *)
Definition athletes_view (req : Request) : M Response :=
  login_required (
    post ← and_then (is_post req) role_is_founder;
    if (post : bool) then
      let action := form_get req "action" in
      (if bool_decide (action = Some "add_athlete_session")
       then add_athlete_session req else mret ());;
      mret (Redirect "athletes_view")
    else
      let selected_event_id := args_get_int req "event_id" in
      let selected_session_id := args_get_int req "session_id" in
      listing [selected_event_id; selected_session_id];;
      mret (Render "athletes.html")).

(** [/session-athletes] *)
Definition session_athletes_view (req : Request) : M Response :=
  login_required (
    let session_id := args_get_int req "session_id" in
    if negb (Py.truthy_int session_id) then
      flash "Select a session" "warning";;
      mret (Redirect "athletes_view")
    else
      session_obj ← query (λ st, Query.get session_id (sessions st));
      match session_obj with
      | Some _ => mret (Render "session_athletes.html")
      | None => abort 404
      end).

(** [/manpower] *)
Definition manpower_view (req : Request) : M Response :=
  login_required (
    post ← and_then (is_post req) role_is_founder;
    if (post : bool) then
      let event_id := form_get_int req "event_id" in
      let session_id := form_get_int req "session_id" in
      let user_id := form_get_int req "user_id" in
      let role := Py.strip (form_get_or req "role" "") in
      let notes := Py.strip (form_get_or req "notes" "") in
      match event_id, session_id, user_id with
      | Some e, Some s, Some u =>
          if Py.truthy_int event_id && Py.truthy_int session_id
             && Py.truthy_int user_id && Py.truthy role
          then
            insert_row manpower_allocations with_manpower_allocations
              (ManpowerAllocation.mk e s u role (Some notes));;
            commit;;
            flash "Manpower allocation added" "success"
          else flash "Event, session, user and role are required" "danger"
      | _, _, _ => flash "Event, session, user and role are required" "danger"
      end;;
      mret (Redirect "manpower_view")
    else mret (Render "manpower.html")).

Definition add_task (req : Request) : M unit :=
  let athlete_session_id := form_get_int req "athlete_session_id" in
  let assigned_to_user_id := form_get_int req "assigned_to_user_id" in
  let edit_type := Py.strip (form_get_or req "type" "") in
  match athlete_session_id, assigned_to_user_id with
  | Some a, Some u =>
      if Py.truthy_int athlete_session_id
         && Py.truthy_int assigned_to_user_id && Py.truthy edit_type
      then
        insert_row edit_tasks with_edit_tasks
          (EditTask.mk a u edit_type "not_started" None (utcnow env));;
        commit;;
        flash "Edit task created" "success"
      else flash "All fields are required" "danger"
  | _, _ => flash "All fields are required" "danger"
  end.

Definition update_status (req : Request) : M unit :=
  let task_id := form_get_int req "task_id" in
  let status := Py.strip (form_get_or req "status" "") in
  let deliverable_link := Py.strip (form_get_or req "deliverable_link" "") in
  task ← query (λ st, Query.get task_id (edit_tasks st));
  match task with
  | None => flash "Task not found" "danger"
  | Some (task_id, task) =>
      founder ← role_is_founder;
      stranger ← and_then (negb founder)
        (current_user_attr
           (λ x, bool_decide (EditTask.assigned_to_user_id task ≠ x.1)));
      (if (stranger : bool) then abort 403 else mret ());;
      let task :=
        if Py.truthy status then EditTask.with_status status task else task in
      let task :=
        EditTask.with_deliverable_link
          (if Py.truthy deliverable_link then Some deliverable_link
           else EditTask.deliverable_link task) task in
      let task := EditTask.with_updated_at (utcnow env) task in
      update_row edit_tasks with_edit_tasks task_id task;;
      commit;;
      flash "Task updated" "success"
  end.

(** [/edits] *)
Definition edits_view (req : Request) : M Response :=
  login_required (
    if is_post req then
      let action := form_get req "action" in
      add ← and_then (bool_decide (action = Some "add_task")) role_is_founder;
      (if (add : bool) then add_task req
       else if bool_decide (action = Some "update_status")
       then update_status req
       else mret ());;
      mret (Redirect "edits_view")
    else
      let selected_event_id := args_get_int req "event_id" in
      let selected_session_id := args_get_int req "session_id" in
      let selected_editor_id := args_get_int req "editor_id" in
      listing [selected_event_id; selected_session_id; selected_editor_id];;
      mret (Render "edits.html")).

Definition add_event (req : Request) : M unit :=
  let name := Py.strip (form_get_or req "name" "") in
  let date_start_str := Py.strip (form_get_or req "date_start" "") in
  let date_end_str := Py.strip (form_get_or req "date_end" "") in
  let location := Py.strip (form_get_or req "location" "") in
  match Py.strptime_ymd date_start_str, Py.strptime_ymd date_end_str with
  | Some date_start, Some date_end =>
      if negb (Py.truthy name) then flash "Event name is required" "danger"
      else
        insert_row events with_events
          (Event.mk name date_start date_end (Some location));;
        commit;;
        flash "Event created" "success"
  | _, _ => flash "Invalid dates for event" "danger"
  end.

Definition add_session (req : Request) : M unit :=
  let event_id := form_get_int req "event_id" in
  let label := Py.strip (form_get_or req "label" "") in
  let date_str := Py.strip (form_get_or req "date" "") in
  let time_block := Py.strip (form_get_or req "time_block" "") in
  match event_id with
  | Some e =>
      if negb (Py.truthy_int event_id && Py.truthy label
               && Py.truthy date_str)
      then flash "Event, label and date are required for session" "danger"
      else
        match Py.strptime_ymd date_str with
        | Some date =>
            insert_row sessions with_sessions
              (Session.mk e label date (Py.or_None (Some time_block)));;
            commit;;
            flash "Session created" "success"
        | None => flash "Invalid session date" "danger"
        end
  | None => flash "Event, label and date are required for session" "danger"
  end.

(** [/admin/events] *)
Definition manage_events (req : Request) : M Response :=
  login_required (founder_required (
    if is_post req then
      let action := form_get req "action" in
      (if bool_decide (action = Some "add_event") then add_event req
       else if bool_decide (action = Some "add_session") then add_session req
       else mret ());;
      mret (Redirect "manage_events")
    else mret (Render "admin_events.html"))).

(** [/admin/packages] *)
Definition manage_packages (req : Request) : M Response :=
  login_required (founder_required (
    if is_post req then
      let name := Py.strip (form_get_or req "name" "") in
      let description := Py.strip (form_get_or req "description" "") in
      (if negb (Py.truthy name) then flash "Package name is required" "danger"
       else
         insert_row packages with_packages
           (Package.mk name (Some description));;
         commit;;
         flash "Package created" "success");;
      mret (Redirect "manage_packages")
    else mret (Render "admin_packages.html"))).

Definition add_user (req : Request) : M unit :=
  let name := Py.strip (form_get_or req "name" "") in
  let email := Py.lower (Py.strip (form_get_or req "email" "")) in
  let password := form_get_or req "password" "" in
  let role := form_get_or req "role" "freelancer" in
  let active := Py.truthy_opt (form_get req "active") in
  if negb (Py.truthy name && Py.truthy email && Py.truthy password)
  then flash "Name, email and password are required" "danger"
  else
    existing ← select (λ st,
      Query.first (λ x, User.email x.2 = email) (users st));
    match existing with
    | Some _ => flash "User with that email already exists" "danger"
    | None =>
        insert_user
          (User.mk name email (generate_password_hash (salt env) password)
             role active);;
        commit;;
        flash "User created" "success"
    end.

Definition toggle_active (req : Request) : M unit :=
  let user_id := form_get_int req "user_id" in
  user ← query (λ st, Query.get user_id (users st));
  match user with
  | Some (user_id, user) =>
      update_row users with_users user_id
        (User.with_active (negb (User.active user)) user);;
      commit;;
      flash "User status updated" "success"
  | None => flash "User not found" "danger"
  end.

Definition change_role (req : Request) : M unit :=
  let user_id := form_get_int req "user_id" in
  let new_role := Py.strip (form_get_or req "role" "") in
  user ← query (λ st, Query.get user_id (users st));
  match user with
  | Some (user_id, user) =>
      if bool_decide (new_role ∈ ["founder"; "freelancer"]) then
        update_row users with_users user_id (User.with_role new_role user);;
        commit;;
        flash "User role updated" "success"
      else flash "Could not change role" "danger"
  | None => flash "Could not change role" "danger"
  end.

(** [/admin/users] *)
Definition manage_users (req : Request) : M Response :=
  login_required (founder_required (
    if is_post req then
      let action := form_get req "action" in
      (if bool_decide (action = Some "add_user") then add_user req
       else if bool_decide (action = Some "toggle_active")
       then toggle_active req
       else if bool_decide (action = Some "change_role") then change_role req
       else mret ());;
      mret (Redirect "manage_users")
    else mret (Render "admin_users.html"))).

(** ** The bootstrap script [create_admin.py]

    The three arguments are the lines read by [input] and [getpass];
    the result is the line printed. *)
Definition create_admin (email_line name_line password : string)
  : M string :=
  let email := Py.lower (Py.strip email_line) in
  let name := Py.strip name_line in
  existing ← select (λ st,
    Query.first (λ x, User.email x.2 = email) (users st));
  match existing with
  | Some _ => mret "User with that email already exists."
  | None =>
      insert_user
        (User.mk name email (generate_password_hash (salt env) password)
           "founder" true);;
      commit;;
      mret "Founder user created."
  end.

End views.

(** The script is run outside any request: no login session. *)
Definition run_script {A} (script : M A) (st : Store)
  : Store * (Exn + A) :=
  let '(c, r) := script (mkCtx st st [] None) in (durable c, r).

(** ** Vocabulary of the properties *)

(** The user the login session resolves to, as [current_user] sees it. *)
Definition caller (req : Request) (st : Store) : option (Z * User.t) :=
  match session_user_of (cookie req) st with
  | inr u => u
  | inl _ => None
  end.

(** The login session holds no user id, or one of no user. *)
Definition anonymous (req : Request) (st : Store) : Prop :=
  session_user_of (cookie req) st = inr None.

Definition authenticated (req : Request) (st : Store) : Prop :=
  is_Some (caller req st).

Definition founder (req : Request) (st : Store) : Prop :=
  ∃ uid u, caller req st = Some (uid, u) ∧ User.role u = "founder".

Definition non_founder (req : Request) (st : Store) : Prop :=
  ∃ uid u, caller req st = Some (uid, u) ∧ User.role u ≠ "founder".

(** A request answered with [r] that wrote nothing, flashed nothing and
    left the login session as it was. *)
Definition unchanged (req : Request) (st : Store) (r : Response) : Outcome :=
  mkOutcome st [] (cookie req) r.

(** *** SD card custody *)

Definition open_log (card_id : Z) (x : Z * SdCardLog.t) : Prop :=
  SdCardLog.sd_card_id x.2 = card_id ∧ SdCardLog.returned_at x.2 = None.

#[global] Instance open_log_dec card_id x : Decision (open_log card_id x).
Proof. unfold open_log. apply _. Defined.

(** Number of log rows of a card with [returned_at] unset. *)
Definition open_logs (st : Store) (card_id : Z) : nat :=
  size (filter (open_log card_id) (sd_card_logs st)).

Definition custody_invariant (st : Store) : Prop :=
  map_Forall (λ card_id card,
    SdCard.status card = "checked_out" ↔ open_logs st card_id = 1%nat)
    (sd_cards st).

Definition at_most_one_open (st : Store) : Prop :=
  map_Forall (λ card_id _, (open_logs st card_id ≤ 1)%nat) (sd_cards st).

#[global] Instance custody_invariant_dec st : Decision (custody_invariant st).
Proof. unfold custody_invariant. apply _. Defined.

#[global] Instance at_most_one_open_dec st : Decision (at_most_one_open st).
Proof. unfold at_most_one_open. apply _. Defined.

(** The store after a successful checkout of [card] with the new [log]. *)
Definition checked_out (st : Store) (card_id : Z) (card : SdCard.t)
    (log : SdCardLog.t) : Store :=
  with_sd_card_logs
    (<[Query.next_id (sd_card_logs st) := log]> (sd_card_logs st))
    (with_sd_cards
       (<[card_id := SdCard.with_status "checked_out" card]> (sd_cards st))
       st).

(** The store after a successful return of [log] at time [now]. *)
Definition returned (st : Store) (log_id : Z) (log : SdCardLog.t)
    (card : SdCard.t) (now : Z) : Store :=
  with_sd_cards
    (<[SdCardLog.sd_card_id log := SdCard.with_status "available" card]>
       (sd_cards st))
    (with_sd_card_logs
       (<[log_id := SdCardLog.with_returned_at (Some now) log]>
          (sd_card_logs st))
       st).

(** One checkout or return request to [/sd-cards], by any caller. *)
Inductive custody_step `{DB : !Sqlite} (st : Store) : Store → Prop :=
  | step_checkout env req :
      method req = POST →
      form_get req "action" = Some "checkout" →
      custody_step st (store (serve (sd_cards_view env) req st))
  | step_return env req :
      method req = POST →
      form_get req "action" = Some "return" →
      custody_step st (store (serve (sd_cards_view env) req st)).

(** Every log row refers to a card row. *)
Definition logs_refer_to_cards (st : Store) : Prop :=
  map_Forall (λ _ log, is_Some (sd_cards st !! SdCardLog.sd_card_id log))
    (sd_card_logs st).

Definition custody_sound (st : Store) : Prop :=
  custody_invariant st ∧ at_most_one_open st ∧ logs_refer_to_cards st.

(** The store after a card was added. *)
Definition card_added (st : Store) (card : SdCard.t) : Store :=
  with_sd_cards (<[Query.next_id (sd_cards st) := card]> (sd_cards st)) st.

Definition custody_tables (st : Store)
  : gmap Z SdCard.t * gmap Z SdCardLog.t :=
  (sd_cards st, sd_card_logs st).

(** *** The application as a whole *)

Section routes.
Context `{W : !Werkzeug} `{DB : !Sqlite}.

(** The [@app.route] table; [/logout], [/] and [/session-athletes] are
    declared without [methods=]. *)
Definition routes (env : Env) : list (string * (Request → M Response)) :=
  [ ("/login", login); ("/logout", get_only logout);
    ("/", get_only dashboard);
    ("/sd-cards", sd_cards_view env); ("/athletes", athletes_view);
    ("/session-athletes", get_only session_athletes_view);
    ("/manpower", manpower_view); ("/edits", edits_view env);
    ("/admin/events", manage_events); ("/admin/packages", manage_packages);
    ("/admin/users", manage_users env) ].

(** One request to a route, or one run of the bootstrap script. *)
Inductive app_step (st : Store) : Store → Prop :=
  | step_request env url view req :
      (url, view) ∈ routes env →
      app_step st (store (serve view req st))
  | step_create_admin env email_line name_line password :
      app_step st
        (run_script (create_admin env email_line name_line password) st).1.

End routes.

(** *** Athlete booking *)

Definition same_athlete (name team : string) (x : Z * Athlete.t) : Prop :=
  Athlete.name x.2 = name ∧ Athlete.team x.2 = Some team.

Definition athlete_known (st : Store) (name team : string) : Prop :=
  ∃ k a, athletes st !! k = Some a ∧ same_athlete name team (k, a).

(** A booking request for the athlete [(name, team)], after trimming,
    whose session and package fields [int] reads as 64-bit integers. *)
Record booking (req : Request) (name team : string) (sid pid : Z)
  : Prop := {
  booking_post : method req = POST;
  booking_action : form_get req "action" = Some "add_athlete_session";
  booking_name : Py.strip (form_get_or req "athlete_name" "") = name;
  booking_team : Py.strip (form_get_or req "team" "") = team;
  booking_session : form_get req "session_id" ≫= Py.int = Some sid;
  booking_package : form_get req "package_id" ≫= Py.int = Some pid;
  booking_session_fits : fits_int64 sid = true;
  booking_package_fits : fits_int64 pid = true }.

(** The rows a booking stores: the athlete, when new, and the athlete
    session. *)
Definition booked_athlete (req : Request) (name team : string)
  : Athlete.t :=
  Athlete.mk name (Some team)
    (Some (Py.strip (form_get_or req "weight_class" "")))
    (Some (Py.strip (form_get_or req "notes" ""))).

Definition booked_session (req : Request) (aid sid pid : Z)
  : AthleteSession.t :=
  AthleteSession.mk aid sid pid
    (Some (Py.strip (form_get_or req "music_link" "")))
    (Some (Py.strip (form_get_or req "music_start" "")))
    (Some (Py.strip (form_get_or req "music_end" "")))
    (Py.truthy_opt (form_get req "paid"))
    (Some (Py.strip (form_get_or req "notes" ""))).

(** The keys of a table as the engine hands them out: 64-bit integers,
    the next one included (the table is not full). *)
Definition has_room {A} (m : gmap Z A) : Prop :=
  map_Forall (λ k _, fits_int64 k = true) m
  ∧ fits_int64 (Query.next_id m) = true.

(** *** Edit tasks *)

Definition updated_task (now : Z) (status link : string)
    (task : EditTask.t) : EditTask.t :=
  EditTask.mk (EditTask.athlete_session_id task)
    (EditTask.assigned_to_user_id task) (EditTask.type task)
    (if Py.truthy status then status else EditTask.status task)
    (if Py.truthy link then Some link else EditTask.deliverable_link task)
    now.

(** *** Users *)

Definition valid_role (r : string) : Prop := r = "founder" ∨ r = "freelancer".

Definition roles_valid (st : Store) : Prop :=
  map_Forall (λ _ u, valid_role (User.role u)) (users st).

#[global] Instance roles_valid_dec st : Decision (roles_valid st).
Proof. unfold roles_valid, valid_role. apply _. Defined.

(** An email as the handlers store and compare it. *)
Definition normalize (s : string) : string := Py.lower (Py.strip s).

Definition email_taken (st : Store) (email : string) : Prop :=
  ∃ k u, users st !! k = Some u ∧ User.email u = email.

(** [users.email] is UNIQUE. *)
Definition unique_emails (st : Store) : Prop :=
  map_Forall (λ k1 u1,
    map_Forall (λ k2 u2, User.email u1 = User.email u2 → k1 = k2) (users st))
    (users st).

#[global] Instance unique_emails_dec st : Decision (unique_emails st).
Proof. unfold unique_emails. apply _. Defined.

Definition credentials_match `{W : !Werkzeug} (st : Store)
    (email password : string) (k : Z) (u : User.t) : Prop :=
  users st !! k = Some u
  ∧ User.email u = email
  ∧ User.active u = true
  ∧ check_password_hash (User.password_hash u) password = true.

Definition login_failed (req : Request) (st : Store) : Outcome :=
  mkOutcome st [("Invalid email or password", "danger")] (cookie req)
    (Render "login.html").

(** ** Sample data *)

Module Sample.

Fixpoint after_dollar (h : string) : string :=
  match h with
  | EmptyString => EmptyString
  | String c r => if Ascii.eqb c "$" then r else after_dollar r
  end.

(** A hash that keeps the password after the salt. *)
Definition werkzeug : Werkzeug := {|
  generate_password_hash s p := s +:+ "$" +:+ p;
  check_password_hash h p := String.eqb (after_dollar h) p |}.

(** A reader of plain decimal numerals, which SQLite reads as written
    when they fit 64 bits and, when they do not, as a floating-point
    number that is no key. *)
Definition plain_key (s : string) : option Z :=
  match s with
  | EmptyString => None
  | _ => z ← Py.all_digits s; if fits_int64 z then Some z else None
  end.

Definition sqlite : Sqlite := {| text_key := plain_key |}.

Definition env : Env := mkEnv 100 "s".

Definition boss : User.t :=
  User.mk "Boss" "boss@example.com" "s$pw" "founder" true.
Definition sam : User.t :=
  User.mk "Sam" "sam@example.com" "s$pw2" "freelancer" true.
Definition kim : User.t :=
  User.mk "Kim" "kim@example.com" "s$pw3" "freelancer" false.

Definition staff : gmap Z User.t :=
  <[3 := kim]> (<[2 := sam]> (<[1 := boss]> ∅)).

Definition out_log : SdCardLog.t :=
  SdCardLog.mk 1 2 None None (Some "shoot") 10 None.

Definition task : EditTask.t :=
  EditTask.mk 1 2 "highlight" "not_started" (Some "http://old") 5.

(** Card 1 is out with one open log, card 2 is on the shelf. *)
Definition st : Store :=
  with_edit_tasks (<[1 := task]> ∅)
    (with_sd_card_logs (<[1 := out_log]> ∅)
       (with_sd_cards
          (<[2 := SdCard.mk "SD-02" None "available"]>
             (<[1 := SdCard.mk "SD-01" (Some 64) "checked_out"]> ∅))
          (with_users staff empty_store))).

(** Card 1 is on the shelf although two of its logs are still open. *)
Definition st_two_open : Store :=
  with_sd_card_logs (<[2 := out_log]> (<[1 := out_log]> ∅))
    (with_sd_cards (<[1 := SdCard.mk "SD-01" (Some 64) "available"]> ∅)
       (with_users staff empty_store)).

Definition post (uid : option Z) (fields : list (string * string))
  : Request :=
  mkRequest POST uid fields [].

End Sample.

(** ** Further vocabulary *)

(** *** What the pages show *)

(** The three counts of [dashboard]. *)
Definition total_sd_cards (st : Store) : nat := size (sd_cards st).

Definition sd_in_use (st : Store) : nat :=
  size (filter (λ x : Z * SdCard.t, SdCard.status x.2 = "checked_out")
          (sd_cards st)).

Definition pending_edits (st : Store) : nat :=
  size (filter (λ x : Z * EditTask.t, EditTask.status x.2 ≠ "sent_to_client")
          (edit_tasks st)).

(** The rows of the open-logs listing of [sd_cards_view], before they
    are ordered. *)
Definition open_logs_listing (st : Store) : gmap Z SdCardLog.t :=
  filter (λ x : Z * SdCardLog.t, SdCardLog.returned_at x.2 = None)
    (sd_card_logs st).

(** The answer of [login_required] to an anonymous caller. *)
Definition login_redirect (req : Request) (st : Store) : Outcome :=
  mkOutcome st [("Please log in to access this page.", "message")]
    (cookie req) (Redirect "login").

(** *** Every write of every route

    [write env req st st'] lists the ways a request can change the
    store: one constructor per [db.session.commit()] of [app.py], with
    what the handler has checked before it. *)

Definition label_in_use (st : Store) (label : string) : Prop :=
  ∃ k c, sd_cards st !! k = Some c ∧ SdCard.label c = label.

Inductive write (env : Env) (req : Request) (st : Store) : Store → Prop :=
  | write_nothing : write env req st st
  | user_added u :
      founder req st →
      ¬ email_taken st (User.email u) →
      User.email u = normalize (form_get_or req "email" "") →
      User.email u ≠ "" →
      User.role u = form_get_or req "role" "freelancer" →
      User.active u = Py.truthy_opt (form_get req "active") →
      write env req st
        (with_users (<[Query.next_id (users st) := u]> (users st)) st)
  | user_toggled k u :
      founder req st →
      users st !! k = Some u →
      write env req st
        (with_users
           (<[k := User.with_active (negb (User.active u)) u]> (users st))
           st)
  | user_role_changed k u r :
      founder req st →
      users st !! k = Some u →
      valid_role r →
      write env req st
        (with_users (<[k := User.with_role r u]> (users st)) st)
  | event_added e :
      founder req st →
      Event.name e ≠ "" →
      Py.strptime_ymd (Py.strip (form_get_or req "date_start" ""))
        = Some (Event.date_start e) →
      Py.strptime_ymd (Py.strip (form_get_or req "date_end" ""))
        = Some (Event.date_end e) →
      write env req st
        (with_events (<[Query.next_id (events st) := e]> (events st)) st)
  | session_added s :
      founder req st →
      Session.label s ≠ "" →
      Session.event_id s ≠ 0 →
      Py.strptime_ymd (Py.strip (form_get_or req "date" ""))
        = Some (Session.date s) →
      write env req st
        (with_sessions (<[Query.next_id (sessions st) := s]> (sessions st))
           st)
  | package_added p :
      founder req st →
      Package.name p ≠ "" →
      write env req st
        (with_packages (<[Query.next_id (packages st) := p]> (packages st))
           st)
  | athlete_booked k a row :
      founder req st →
      athletes st !! k = Some a →
      Athlete.name a ≠ "" →
      AthleteSession.athlete_id row = k →
      write env req st
        (with_athlete_sessions
           (<[Query.next_id (athlete_sessions st) := row]>
              (athlete_sessions st)) st)
  | athlete_created_and_booked a row :
      founder req st →
      Athlete.name a ≠ "" →
      (∃ team, Athlete.team a = Some team
               ∧ ¬ athlete_known st (Athlete.name a) team) →
      AthleteSession.athlete_id row = Query.next_id (athletes st) →
      write env req st
        (with_athlete_sessions
           (<[Query.next_id (athlete_sessions st) := row]>
              (athlete_sessions st))
           (with_athletes
              (<[Query.next_id (athletes st) := a]> (athletes st)) st))
  | manpower_added row :
      founder req st →
      ManpowerAllocation.event_id row ≠ 0 →
      ManpowerAllocation.session_id row ≠ 0 →
      ManpowerAllocation.user_id row ≠ 0 →
      ManpowerAllocation.role row ≠ "" →
      write env req st
        (with_manpower_allocations
           (<[Query.next_id (manpower_allocations st) := row]>
              (manpower_allocations st)) st)
  | card_created card :
      founder req st →
      SdCard.status card = "available" →
      SdCard.label card ≠ "" →
      ¬ label_in_use st (SdCard.label card) →
      write env req st (card_added st card)
  | card_checked_out uid me card_id card log :
      caller req st = Some (uid, me) →
      sd_cards st !! card_id = Some card →
      SdCard.status card = "available" →
      SdCardLog.sd_card_id log = card_id →
      SdCardLog.user_id log = uid →
      SdCardLog.checked_out_at log = utcnow env →
      SdCardLog.returned_at log = None →
      write env req st (checked_out st card_id card log)
  | card_returned log_id log card :
      authenticated req st →
      sd_card_logs st !! log_id = Some log →
      SdCardLog.returned_at log = None →
      sd_cards st !! SdCardLog.sd_card_id log = Some card →
      write env req st (returned st log_id log card (utcnow env))
  | task_added t :
      founder req st →
      EditTask.status t = "not_started" →
      EditTask.deliverable_link t = None →
      EditTask.updated_at t = utcnow env →
      EditTask.type t ≠ "" →
      write env req st
        (with_edit_tasks (<[Query.next_id (edit_tasks st) := t]>
                            (edit_tasks st)) st)
  | task_updated uid me k t :
      caller req st = Some (uid, me) →
      edit_tasks st !! k = Some t →
      User.role me = "founder" ∨ EditTask.assigned_to_user_id t = uid →
      write env req st
        (with_edit_tasks
           (<[k := updated_task (utcnow env)
                     (Py.strip (form_get_or req "status" ""))
                     (Py.strip (form_get_or req "deliverable_link" "")) t]>
              (edit_tasks st)) st).

(** One request to a route (the bootstrap script left out). *)
Inductive request_step `{W : !Werkzeug} `{DB : !Sqlite} (st : Store) : Store → Prop :=
  | request_served env url view req :
      (url, view) ∈ routes env →
      request_step st (store (serve view req st)).

(** *** What is kept from one state to a later one *)

(** The six tables no handler updates only grow. *)
Definition append_only (st st' : Store) : Prop :=
  events st ⊆ events st'
  ∧ sessions st ⊆ sessions st'
  ∧ packages st ⊆ packages st'
  ∧ athletes st ⊆ athletes st'
  ∧ athlete_sessions st ⊆ athlete_sessions st'
  ∧ manpower_allocations st ⊆ manpower_allocations st'.

Definition same_account (u u' : User.t) : Prop :=
  User.name u' = User.name u
  ∧ User.email u' = User.email u
  ∧ User.password_hash u' = User.password_hash u.

Definition same_card (c c' : SdCard.t) : Prop :=
  SdCard.label c' = SdCard.label c
  ∧ SdCard.capacity_gb c' = SdCard.capacity_gb c.

(** A log keeps all but [returned_at], and keeps that once it is set. *)
Definition same_log (l l' : SdCardLog.t) : Prop :=
  SdCardLog.with_returned_at None l' = SdCardLog.with_returned_at None l
  ∧ (SdCardLog.returned_at l ≠ None → l' = l).

Definition same_assignment (t t' : EditTask.t) : Prop :=
  EditTask.athlete_session_id t' = EditTask.athlete_session_id t
  ∧ EditTask.assigned_to_user_id t' = EditTask.assigned_to_user_id t
  ∧ EditTask.type t' = EditTask.type t.

(** Every row of [m] is still in [m'], related by [R]. *)
Definition rows_kept {A} (R : A → A → Prop) (m m' : gmap Z A) : Prop :=
  ∀ k x, m !! k = Some x → ∃ x', m' !! k = Some x' ∧ R x x'.

(** The four tables with updated rows keep every row and its identity. *)
Definition identities_kept (st st' : Store) : Prop :=
  rows_kept same_account (users st) (users st')
  ∧ rows_kept same_card (sd_cards st) (sd_cards st')
  ∧ rows_kept same_log (sd_card_logs st) (sd_card_logs st')
  ∧ rows_kept same_assignment (edit_tasks st) (edit_tasks st').

(** No user has the founder role. *)
Definition no_founder (st : Store) : Prop :=
  map_Forall (λ _ u, User.role u ≠ "founder") (users st).

#[global] Instance no_founder_dec st : Decision (no_founder st).
Proof. unfold no_founder. apply _. Defined.

(** The tables only a founder's request writes. *)
Definition founder_tables (st : Store) :=
  (users st, events st, sessions st, packages st, athletes st,
   athlete_sessions st, manpower_allocations st).

(** *** The card shelf *)

(** No handler assigns a status other than these two. *)
Definition statuses_in_cycle (st : Store) : Prop :=
  map_Forall (λ _ c,
    SdCard.status c = "available" ∨ SdCard.status c = "checked_out")
    (sd_cards st).

Definition labels_unique (st : Store) : Prop :=
  map_Forall (λ k1 c1,
    map_Forall (λ k2 c2, SdCard.label c1 = SdCard.label c2 → k1 = k2)
      (sd_cards st))
    (sd_cards st).

Definition labels_present (st : Store) : Prop :=
  map_Forall (λ _ c, SdCard.label c ≠ "") (sd_cards st).

Definition card_ledger (st : Store) : Prop :=
  custody_sound st
  ∧ statuses_in_cycle st
  ∧ sd_in_use st = size (open_logs_listing st)
  ∧ labels_unique st
  ∧ labels_present st.

(** *** Optional context ids of a checkout *)

(** [int(x) if x else None] on [request.form.get(k) or None]: the outer
    [None] stands for the [ValueError] of a non-numeric field. *)
Definition optional_int (o : option string) : option (option Z) :=
  match Py.or_None o with
  | Some s => Some <$> Py.int s
  | None => Some None
  end.

(** The log a checkout writes. *)
Definition checkout_log (env : Env) (req : Request) (card_id uid : Z)
    (event_id session_id : option Z) : SdCardLog.t :=
  SdCardLog.mk card_id uid event_id session_id
    (Some (form_get_or req "purpose" "")) (utcnow env) None.

(** An optional id the driver can bind. *)
Definition fits_opt (o : option Z) : bool :=
  match o with Some z => fits_int64 z | None => true end.

(** *** Accounts *)

(** The row [add_user] stores for a request. *)
Definition new_user `{W : !Werkzeug} (env : Env) (req : Request) : User.t :=
  User.mk (Py.strip (form_get_or req "name" ""))
    (normalize (form_get_or req "email" ""))
    (generate_password_hash (salt env) (form_get_or req "password" ""))
    (form_get_or req "role" "freelancer")
    (Py.truthy_opt (form_get req "active")).

(** An [add_user] request that passes the required-fields check. *)
Record account_form (req : Request) : Prop := {
  account_post : method req = POST;
  account_action : form_get req "action" = Some "add_user";
  account_name : Py.strip (form_get_or req "name" "") ≠ "";
  account_email : normalize (form_get_or req "email" "") ≠ "";
  account_password : form_get_or req "password" "" ≠ "" }.

(** A login form with the given email and password fields. *)
Definition login_form (email password : string) : Request :=
  mkRequest POST None [("email", email); ("password", password)] [].

(** *** References between tables *)

(** Every booking names an athlete row that exists. *)
Definition bookings_refer_to_athletes (st : Store) : Prop :=
  map_Forall (λ _ row,
    is_Some (athletes st !! AthleteSession.athlete_id row))
    (athlete_sessions st).

(** Every custody log names a borrower that exists. *)
Definition borrowers_are_users (st : Store) : Prop :=
  map_Forall (λ _ log, is_Some (users st !! SdCardLog.user_id log))
    (sd_card_logs st).

(** No two athlete rows share both name and team. *)
Definition athletes_distinct (st : Store) : Prop :=
  ∀ k1 a1 k2 a2,
    athletes st !! k1 = Some a1 →
    athletes st !! k2 = Some a2 →
    Athlete.name a1 = Athlete.name a2 →
    Athlete.team a1 = Athlete.team a2 →
    k1 = k2.

(** Every stored email is trimmed and in lower case. *)
Definition emails_normal (st : Store) : Prop :=
  map_Forall (λ _ u, normalize (User.email u) = User.email u) (users st).

Definition references (st : Store) : Prop :=
  bookings_refer_to_athletes st
  ∧ borrowers_are_users st
  ∧ athletes_distinct st
  ∧ emails_normal st.

(** *** Pending edits *)

(** What the dashboard counts: a task not yet sent to the client. *)
Definition pending (t : EditTask.t) : Prop :=
  EditTask.status t ≠ "sent_to_client".

Definition pending_count (t : EditTask.t) : nat :=
  if decide (pending t) then 1%nat else 0%nat.

(** The row [manpower_view] stores for the fields of [req]. *)
Definition allocation (req : Request) (e s u : Z) : ManpowerAllocation.t :=
  ManpowerAllocation.mk e s u (Py.strip (form_get_or req "role" ""))
    (Some (Py.strip (form_get_or req "notes" ""))).

(** *** Failed requests *)

(** The answers that are not a page or a redirect. *)
Definition failed (r : Response) : Prop :=
  match r with Abort _ | ServerError _ => True | _ => False end.

(** *** Dates *)

(** A date of the proleptic Gregorian calendar, as [datetime.date]
    holds it. *)
Definition calendar_date (d : Z * Z * Z) : Prop :=
  1 ≤ d.1.1 ≤ 9999
  ∧ 1 ≤ d.1.2 ≤ 12
  ∧ 1 ≤ d.2 ≤ Py.days_in_month d.1.1 d.1.2.

Definition dates_valid (st : Store) : Prop :=
  map_Forall (λ _ e,
    calendar_date (Event.date_start e) ∧ calendar_date (Event.date_end e))
    (events st)
  ∧ map_Forall (λ _ s, calendar_date (Session.date s)) (sessions st).

(** ** A sample history *)

(** The bootstrap script, then the founder adds a card, takes it out,
    creates an event that ends before it starts, and books an athlete. *)
Module Tour.

Definition visit (uid : option Z) : Request := mkRequest GET uid [] [].

Definition s1 : Store :=
  (run_script
     (create_admin (W := Sample.werkzeug) Sample.env "boss@example.com"
        "Boss" "pw")
     empty_store).1.

Definition add_card : Request :=
  Sample.post (Some 1)
    [("action", "add_card"); ("label", "SD-01"); ("capacity_gb", "64")].
Definition s2 : Store := store (serve (sd_cards_view (DB := Sample.sqlite) Sample.env) add_card s1).

Definition take_card : Request :=
  Sample.post (Some 1)
    [("action", "checkout"); ("sd_card_id", "1"); ("purpose", "shoot")].
Definition s3 : Store :=
  store (serve (sd_cards_view (DB := Sample.sqlite) Sample.env) take_card s2).

Definition add_event : Request :=
  Sample.post (Some 1)
    [("action", "add_event"); ("name", " Regionals ");
     ("date_start", "2024-03-02"); ("date_end", "2024-03-01")].
Definition s4 : Store := store (serve manage_events add_event s3).

Definition book : Request :=
  Sample.post (Some 1)
    [("action", "add_athlete_session"); ("athlete_name", "Jane Doe");
     ("team", "Iron"); ("session_id", "1"); ("package_id", "1")].
Definition s5 : Store := store (serve athletes_view book s4).

End Tour.

(** ** Facts about the query helpers *)

Section query_facts.
Context {A : Type}.
Implicit Types m : gmap Z A.

Lemma next_id_above m k r : m !! k = Some r → k < Query.next_id m.
Proof.
  unfold Query.next_id. revert k r.
  apply (map_fold_weak_ind
           (λ acc (m : gmap Z A), ∀ k r, m !! k = Some r → k < 1 + acc)).
  - intros k r. by rewrite lookup_empty.
  - intros i x m' acc _ IH k r. rewrite lookup_insert.
    case_decide as Hik; [lia|]. intros Hk. specialize (IH _ _ Hk). lia.
Qed.

Lemma next_id_fresh m : m !! Query.next_id m = None.
Proof.
  destruct (m !! Query.next_id m) as [r|] eqn:E; [|done].
  apply next_id_above in E. lia.
Qed.

Lemma least_elem (l : list (Z * A)) x :
  foldr Query.least None l = Some x → x ∈ l.
Proof.
  revert x. induction l as [|y l IH]; intros x; simpl; [done|].
  unfold Query.least at 1. destruct (foldr Query.least None l) as [z|].
  - case_bool_decide; intros [= <-]; [left | right; by apply IH].
  - intros [= <-]. left.
Qed.

Lemma least_nil (l : list (Z * A)) : foldr Query.least None l = None → l = [].
Proof.
  destruct l as [|y l]; [done|]. simpl. unfold Query.least at 1.
  destruct (foldr Query.least None l); [case_bool_decide|]; done.
Qed.

Lemma first_Some (P : Z * A → Prop) `{!∀ x, Decision (P x)} m k r :
  Query.first P m = Some (k, r) → m !! k = Some r ∧ P (k, r).
Proof.
  unfold Query.first. intros Hin%least_elem.
  apply list_elem_of_filter in Hin as [HP Hin].
  by apply elem_of_map_to_list in Hin.
Qed.

Lemma first_None (P : Z * A → Prop) `{!∀ x, Decision (P x)} m :
  Query.first P m = None → ∀ k r, m !! k = Some r → ¬ P (k, r).
Proof.
  unfold Query.first. intros Hnil%least_nil k r Hk HP.
  assert ((k, r) ∈ filter P (map_to_list m)) as Hin.
  { apply list_elem_of_filter. split; [done|]. by apply elem_of_map_to_list. }
  rewrite Hnil in Hin. by apply elem_of_nil in Hin.
Qed.

Lemma first_is_Some (P : Z * A → Prop) `{!∀ x, Decision (P x)} m k r :
  m !! k = Some r → P (k, r) → is_Some (Query.first P m).
Proof.
  intros Hk HP. destruct (Query.first P m) as [x|] eqn:E; [by eexists|].
  by destruct (first_None P m E k r).
Qed.

Lemma row_Some k m k' r :
  Query.row k m = Some (k', r) → k' = k ∧ m !! k = Some r.
Proof.
  unfold Query.row. destruct (m !! k) as [r'|]; simpl; [|done].
  by intros [= <- <-].
Qed.

Lemma row_lookup k m r : m !! k = Some r → Query.row k m = Some (k, r).
Proof. unfold Query.row. by intros ->. Qed.

Lemma get_Some (o : option Z) m k r :
  Query.get o m = inr (Some (k, r)) → o = Some k ∧ m !! k = Some r.
Proof.
  destruct o as [k'|]; simpl; [|done].
  destruct (fits_int64 k'); [|done].
  by intros [= [-> ?]%row_Some].
Qed.

Lemma get_fits (o : option Z) m k r :
  Query.get o m = inr (Some (k, r)) → fits_int64 k = true.
Proof.
  destruct o as [k'|]; simpl; [|done].
  destruct (fits_int64 k') eqn:Hfits; [|done].
  by intros [= [-> ?]%row_Some].
Qed.

Lemma get_lookup k m r :
  fits_int64 k = true → m !! k = Some r →
  Query.get (Some k) m = inr (Some (k, r)).
Proof. simpl. intros -> Hk. by rewrite (row_lookup _ _ _ Hk). Qed.

Lemma get_text_Some `{DB : !Sqlite} (s : option string) m k r :
  Query.get_text s m = Some (k, r) →
  s ≫= text_key = Some k ∧ m !! k = Some r.
Proof.
  unfold Query.get_text. destruct (s ≫= text_key) as [k'|]; simpl; [|done].
  by intros [-> ?]%row_Some.
Qed.

End query_facts.

Lemma caller_Some req st x :
  caller req st = Some x ↔ session_user_of (cookie req) st = inr (Some x).
Proof.
  unfold caller. destruct (session_user_of _ _) as [e|[y|]]; naive_solver.
Qed.

Lemma caller_lookup req st uid u :
  caller req st = Some (uid, u) →
  cookie req = Some uid ∧ fits_int64 uid = true ∧ users st !! uid = Some u.
Proof.
  intros Hu%caller_Some. unfold session_user_of, load_user in Hu.
  destruct (cookie req) as [c|]; [|done].
  pose proof (get_fits _ _ _ _ Hu). by apply get_Some in Hu as [[= ->] ?].
Qed.

(** ** Running a handler symbolically *)

Ltac unfold_monad :=
  unfold insert_row, bind_ints, update_row, listing, int_if, int, and_then,
    role_is_founder, current_user_attr, current_user, login_user,
    logout_user, select, query, modify, commit, flash, abort, raise, mbind,
    M_bind, mret, M_ret in *.

Ltac run_view :=
  unfold serve, login, logout, dashboard, sd_cards_view, checkout,
    return_card, insert_sd_card, athletes_view, add_athlete_session,
    session_athletes_view, manpower_view, edits_view, add_task, update_status,
    manage_events, add_event, add_session, manage_packages, manage_users,
    add_user, insert_user, toggle_active, change_role, login_required,
    founder_required, get_only, is_post;
  unfold_monad; simpl.

Ltac split_cases := repeat (case_match; simpl in *; simplify_eq; try done).

Lemma int_truthy (o : option string) z :
  o ≫= Py.int = Some z → Py.truthy_opt o = true.
Proof. destruct o as [[|c s]|]; by simpl. Qed.

(** ** SD card custody *)

Lemma checkout_cases `{DB : !Sqlite} env req st :
  method req = POST →
  form_get req "action" = Some "checkout" →
  store (serve (sd_cards_view env) req st) = st
  ∨ ∃ card_id card log,
      sd_cards st !! card_id = Some card
      ∧ SdCard.status card = "available"
      ∧ SdCardLog.sd_card_id log = card_id
      ∧ SdCardLog.returned_at log = None
      ∧ store (serve (sd_cards_view env) req st)
        = checked_out st card_id card log.
Proof.
  intros Hm Ha.
  unfold serve, sd_cards_view, login_required, is_post.
  rewrite Hm, Ha. unfold_monad. simpl.
  destruct (session_user_of (cookie req) st) as [e|[[uid u]|]] eqn:Hu;
    simpl; [by left| |by left].
  unfold checkout. unfold_monad. simpl.
  destruct (Query.get_text _ (sd_cards st)) as [[card_id card]|] eqn:Hc;
    simpl; [|by left].
  case_bool_decide as Hs; simpl; [|by left].
  rewrite Hu. simpl.
  repeat (case_match; simpl; simplify_eq; try (by left)).
  all: right; eexists _, _, _; (split_and!; [| | | |reflexivity]); try done.
  all: by apply get_text_Some in Hc as [_ ?].
Qed.

Lemma return_cases `{DB : !Sqlite} env req st :
  method req = POST →
  form_get req "action" = Some "return" →
  store (serve (sd_cards_view env) req st) = st
  ∨ ∃ log_id log card,
      sd_card_logs st !! log_id = Some log
      ∧ SdCardLog.returned_at log = None
      ∧ sd_cards st !! SdCardLog.sd_card_id log = Some card
      ∧ store (serve (sd_cards_view env) req st)
        = returned st log_id log card (utcnow env).
Proof.
  intros Hm Ha.
  unfold serve, sd_cards_view, login_required, is_post.
  rewrite Hm, Ha. unfold_monad. simpl.
  destruct (session_user_of (cookie req) st) as [e|[[uid u]|]] eqn:Hu;
    simpl; [by left| |by left].
  unfold return_card. unfold_monad. simpl.
  destruct (Query.get_text _ (sd_card_logs st)) as [[log_id log]|] eqn:Hl;
    simpl; [|by left].
  case_bool_decide as Hr; simpl; [|by left].
  destruct (fits_int64 (SdCardLog.sd_card_id log)); simpl; [|by left].
  unfold Query.row. simpl.
  destruct (sd_cards st !! SdCardLog.sd_card_id log) as [card|] eqn:Hc;
    simpl; [|by left].
  right. exists log_id, log, card. split_and!; try done.
  by apply get_text_Some in Hl as [_ ?].
Qed.

Lemma open_logs_checked_out st card_id card log k :
  SdCardLog.sd_card_id log = card_id →
  SdCardLog.returned_at log = None →
  open_logs (checked_out st card_id card log) k
  = if bool_decide (k = card_id) then S (open_logs st k) else open_logs st k.
Proof.
  intros Hid Hopen. unfold open_logs, checked_out. simpl.
  pose proof (next_id_fresh (sd_card_logs st)) as Hfresh.
  case_bool_decide as Hk.
  - rewrite map_filter_insert_True by (by split; simpl; [congruence|]).
    rewrite map_size_insert_None; [done|].
    by rewrite map_lookup_filter, Hfresh.
  - rewrite map_filter_insert_not'.
    + done.
    + intros [? _]; simpl in *; congruence.
    + intros y. by rewrite Hfresh.
Qed.

Lemma open_logs_returned st log_id log card now k :
  sd_card_logs st !! log_id = Some log →
  SdCardLog.returned_at log = None →
  open_logs (returned st log_id log card now) k
  = if bool_decide (k = SdCardLog.sd_card_id log)
    then pred (open_logs st k) else open_logs st k.
Proof.
  intros Hl Hopen. unfold open_logs, returned. simpl.
  rewrite map_filter_insert_False by (by intros [_ ?]).
  rewrite map_filter_delete.
  case_bool_decide as Hk.
  - rewrite map_size_delete_Some; [done|].
    exists log. apply map_lookup_filter_Some. by split; [|split].
  - rewrite map_size_delete_None; [done|].
    apply map_lookup_filter_None. right. intros y Hy [? _].
    simpl in *. congruence.
Qed.

Lemma open_logs_pos st log_id log :
  sd_card_logs st !! log_id = Some log →
  SdCardLog.returned_at log = None →
  (0 < open_logs st (SdCardLog.sd_card_id log))%nat.
Proof.
  intros Hl Hopen. unfold open_logs.
  assert (size (filter (open_log (SdCardLog.sd_card_id log))
                  (sd_card_logs st)) ≠ 0%nat); [|lia].
  apply map_size_ne_0_lookup. exists log_id, log.
  apply map_lookup_filter_Some. by split; [|split].
Qed.

Lemma custody_checked_out st card_id card log :
  custody_invariant st → at_most_one_open st →
  sd_cards st !! card_id = Some card →
  SdCard.status card = "available" →
  SdCardLog.sd_card_id log = card_id →
  SdCardLog.returned_at log = None →
  custody_invariant (checked_out st card_id card log)
  ∧ at_most_one_open (checked_out st card_id card log).
Proof.
  intros Hinv Hone Hc Hs Hid Hopen.
  specialize (Hinv _ _ Hc) as Hinv_c. specialize (Hone _ _ Hc) as Hone_c.
  simpl in *.
  assert (open_logs st card_id = 0%nat) as Hzero.
  { destruct (decide (open_logs st card_id = 1%nat)) as [E|]; [|lia].
    apply Hinv_c in E. congruence. }
  split; intros k c; unfold checked_out at 1; simpl;
    rewrite lookup_insert; case_decide as Hk; intros Hkc; simplify_eq;
    rewrite open_logs_checked_out by done.
  - rewrite bool_decide_eq_true_2 by done. simpl. by rewrite Hzero.
  - rewrite bool_decide_eq_false_2 by done. by apply Hinv.
  - rewrite bool_decide_eq_true_2 by done. lia.
  - rewrite bool_decide_eq_false_2 by done. by apply (Hone _ _ Hkc).
Qed.

Lemma custody_returned st log_id log card now :
  custody_invariant st → at_most_one_open st →
  sd_card_logs st !! log_id = Some log →
  SdCardLog.returned_at log = None →
  sd_cards st !! SdCardLog.sd_card_id log = Some card →
  custody_invariant (returned st log_id log card now)
  ∧ at_most_one_open (returned st log_id log card now).
Proof.
  intros Hinv Hone Hl Hopen Hc.
  pose proof (open_logs_pos _ _ _ Hl Hopen) as Hpos.
  specialize (Hone _ _ Hc) as Hone_c. simpl in *.
  split; intros k c; unfold returned at 1; simpl;
    rewrite lookup_insert; case_decide as Hk; intros Hkc; simplify_eq;
    rewrite (open_logs_returned _ _ _ _ _ _ Hl Hopen).
  - rewrite bool_decide_eq_true_2 by done. simpl. split; [done|lia].
  - rewrite bool_decide_eq_false_2 by done. by apply Hinv.
  - rewrite bool_decide_eq_true_2 by done. lia.
  - rewrite bool_decide_eq_false_2 by done. by apply (Hone _ _ Hkc).
Qed.

(** C1, as amended.  Start from a state in which every card is
    [checked_out] exactly when it has one open log (a log of that card
    with [returned_at] unset) and no card has more than one open log.
    Then after any sequence of checkout and return requests both still
    hold: checkout and return preserve the two together. *)
Theorem custody_invariant_preserved `{DB : !Sqlite} st st' :
  custody_invariant st →
  at_most_one_open st →
  rtc custody_step st st' →
  custody_invariant st' ∧ at_most_one_open st'.
Proof.
  intros Hinv Hone Hsteps. induction Hsteps as [st|st st1 st2 Hstep _ IH];
    [done|].
  assert (custody_invariant st1 ∧ at_most_one_open st1) as [??];
    [|by apply IH].
  destruct Hstep as [env req Hm Ha|env req Hm Ha].
  - destruct (checkout_cases env req st Hm Ha)
      as [->|(card_id & card & log & Hc & Hs & Hid & Hopen & ->)];
      [done|by apply custody_checked_out].
  - destruct (return_cases env req st Hm Ha)
      as [->|(log_id & log & card & Hl & Hopen & Hc & ->)];
      [done|by apply custody_returned].
Qed.

(** Sam checks out card 2 of the sample store. *)
Lemma custody_invariant_preserved_witness :
  let st' :=
    store (serve (sd_cards_view (DB := Sample.sqlite) Sample.env)
             (Sample.post (Some 2)
                [("action", "checkout"); ("sd_card_id", "2")])
             Sample.st) in
  custody_invariant Sample.st
  ∧ at_most_one_open Sample.st
  ∧ SdCard.status <$> sd_cards st' !! 2 = Some "checked_out"
  ∧ custody_invariant st'
  ∧ at_most_one_open st'.
Proof.
  intros st'.
  assert (custody_invariant Sample.st) as Hinv by compute_done.
  assert (at_most_one_open Sample.st) as Hone by compute_done.
  split; [done|]. split; [done|]. split; [compute_done|].
  apply (custody_invariant_preserved (DB := Sample.sqlite) Sample.st st' Hinv
           Hone).
  apply rtc_once. by apply step_checkout.
Defined.

(** C1 as stated fails: the equivalence alone is not preserved.  Card 1
    is available with two open logs, so the equivalence holds; a
    checkout then leaves it [checked_out] with three. *)
Lemma custody_invariant_not_inductive :
  let st' :=
    store (serve (sd_cards_view (DB := Sample.sqlite) Sample.env)
             (Sample.post (Some 2)
                [("action", "checkout"); ("sd_card_id", "1")])
             Sample.st_two_open) in
  custody_invariant Sample.st_two_open
  ∧ custody_step (DB := Sample.sqlite) Sample.st_two_open st'
  ∧ SdCard.status <$> sd_cards st' !! 1 = Some "checked_out"
  ∧ open_logs st' 1 = 3%nat
  ∧ ¬ custody_invariant st'.
Proof.
  split_and!.
  - compute_done.
  - by apply step_checkout.
  - compute_done.
  - compute_done.
  - compute_done.
Qed.

(** C3.  A checkout request for a card whose status is not
    ["available"] is answered with the conflict message and a redirect;
    the store is unchanged, so no log row is created and the card keeps
    its status. *)
Theorem checkout_unavailable_conflict `{DB : !Sqlite} env req st card_id
    card :
  method req = POST →
  authenticated req st →
  form_get req "action" = Some "checkout" →
  Query.get_text (form_get req "sd_card_id") (sd_cards st)
    = Some (card_id, card) →
  SdCard.status card ≠ "available" →
  serve (sd_cards_view env) req st
  = mkOutcome st [("Card not available", "danger")] (cookie req)
      (Redirect "sd_cards_view").
Proof.
  intros Hm [[uid u] Hu%caller_Some] Ha Hc Hs.
  unfold serve, sd_cards_view, login_required, is_post.
  rewrite Hm, Ha. unfold_monad. simpl. rewrite Hu. simpl.
  unfold checkout. unfold_monad. simpl. rewrite Hc.
  by rewrite bool_decide_eq_false_2.
Qed.

(** Sam asks for card 1, which is out. *)
Lemma checkout_unavailable_conflict_witness :
  let req :=
    Sample.post (Some 2) [("action", "checkout"); ("sd_card_id", "1")] in
  authenticated req Sample.st
  ∧ serve (sd_cards_view (DB := Sample.sqlite) Sample.env) req Sample.st
    = mkOutcome Sample.st [("Card not available", "danger")] (Some 2)
        (Redirect "sd_cards_view").
Proof.
  intros req.
  assert (authenticated req Sample.st) as Hauth by (by exists (2, Sample.sam)).
  split; [done|].
  apply (checkout_unavailable_conflict (DB := Sample.sqlite) Sample.env req
           Sample.st 1
           (SdCard.mk "SD-01" (Some 64) "checked_out"));
    [reflexivity|done|reflexivity|reflexivity|done].
Defined.

(** C4.  A return request whose log id resolves to no row, or to a row
    with [returned_at] already set, is answered with the not-found
    message and a redirect and changes nothing.  On an open log it sets
    [returned_at] to the clock and the log's card to ["available"], both
    in the one commit; were the card row missing, the request would end
    in an error with neither change committed.  The log id is resolved
    as the engine reads the submitted text, and the card id of the log,
    a stored integer, fits 64 bits. *)
Theorem return_card_outcome `{DB : !Sqlite} env req st :
  method req = POST →
  authenticated req st →
  form_get req "action" = Some "return" →
  let found := Query.get_text (form_get req "log_id") (sd_card_logs st) in
  ((found = None
    ∨ ∃ log_id log, found = Some (log_id, log)
                    ∧ SdCardLog.returned_at log ≠ None) →
   serve (sd_cards_view env) req st
   = mkOutcome st [("Could not return card", "danger")] (cookie req)
       (Redirect "sd_cards_view"))
  ∧ (∀ log_id log card,
       found = Some (log_id, log) →
       SdCardLog.returned_at log = None →
       fits_int64 (SdCardLog.sd_card_id log) = true →
       sd_cards st !! SdCardLog.sd_card_id log = Some card →
       serve (sd_cards_view env) req st
       = mkOutcome (returned st log_id log card (utcnow env))
           [("SD card returned", "success")] (cookie req)
           (Redirect "sd_cards_view"))
  ∧ (∀ log_id log,
       found = Some (log_id, log) →
       SdCardLog.returned_at log = None →
       fits_int64 (SdCardLog.sd_card_id log) = true →
       sd_cards st !! SdCardLog.sd_card_id log = None →
       serve (sd_cards_view env) req st
       = unchanged req st (ServerError AttributeError)).
Proof.
  intros Hm [[uid u] Hu%caller_Some] Ha found.
  assert (∀ o, serve (sd_cards_view env) req st = o ↔
    (let '(c, r) := return_card env req (mkCtx st st [] (cookie req)) in
     mkOutcome (durable c) (flashed c) (logged_in c)
       match r with
       | inr _ => Redirect "sd_cards_view"
       | inl (HTTPException code) => Abort code
       | inl e => ServerError e
       end) = o) as Hserve.
  { intros o. unfold serve, sd_cards_view, login_required, is_post.
    rewrite Hm, Ha. unfold_monad. simpl. rewrite Hu. simpl.
    by destruct (return_card env req _) as [c [e|[]]]. }
  split_and!.
  - intros Hnone. apply Hserve. unfold return_card. unfold_monad. simpl.
    fold found. destruct Hnone as [->|(log_id & log & -> & Hret)]; [done|].
    by rewrite bool_decide_eq_false_2.
  - intros log_id log card Hl Hopen Hfits Hc. apply Hserve.
    unfold return_card. unfold_monad. simpl. fold found. rewrite Hl.
    rewrite bool_decide_eq_true_2 by done. simpl.
    unfold Query.row. by rewrite Hfits, Hc.
  - intros log_id log Hl Hopen Hfits Hc. apply Hserve.
    unfold return_card. unfold_monad. simpl. fold found. rewrite Hl.
    rewrite bool_decide_eq_true_2 by done. simpl.
    unfold Query.row. by rewrite Hfits, Hc.
Qed.

(** Sam returns log 1, then asks for log 7, which does not exist. *)
Lemma return_card_outcome_witness :
  let back := Sample.post (Some 2) [("action", "return"); ("log_id", "1")] in
  let lost := Sample.post (Some 2) [("action", "return"); ("log_id", "7")] in
  serve (sd_cards_view (DB := Sample.sqlite) Sample.env) back Sample.st
  = mkOutcome
      (returned Sample.st 1 Sample.out_log
         (SdCard.mk "SD-01" (Some 64) "checked_out") 100)
      [("SD card returned", "success")] (Some 2) (Redirect "sd_cards_view")
  ∧ serve (sd_cards_view (DB := Sample.sqlite) Sample.env) lost Sample.st
    = mkOutcome Sample.st [("Could not return card", "danger")] (Some 2)
        (Redirect "sd_cards_view").
Proof.
  intros back lost.
  assert (authenticated back Sample.st) as Hback
    by (by exists (2, Sample.sam)).
  assert (authenticated lost Sample.st) as Hlost
    by (by exists (2, Sample.sam)).
  split.
  - destruct (return_card_outcome (DB := Sample.sqlite) Sample.env back
                Sample.st eq_refl Hback eq_refl) as (_ & Hopen & _).
    by apply Hopen.
  - destruct (return_card_outcome (DB := Sample.sqlite) Sample.env lost
                Sample.st eq_refl Hlost eq_refl) as (Hnone & _).
    apply Hnone. by left.
Defined.

(** ** Edit tasks *)

(** C6, as amended.  An update of an existing task by a caller who is
    neither a founder nor the task's assignee is answered with 403 and
    leaves the store, hence the task's status, link and timestamp,
    unchanged.  An update whose task id is missing, is no number, or is
    a 64-bit integer that is the key of no task is answered with the
    not-found message and changes nothing; one whose task id is a
    number outside the 64-bit range ends in a server error, and changes
    nothing either. *)
Theorem update_task_rejected env req st uid u :
  method req = POST →
  caller req st = Some (uid, u) →
  form_get req "action" = Some "update_status" →
  let task_id := form_get_int req "task_id" in
  let found := Query.get task_id (edit_tasks st) in
  (∀ k task,
     found = inr (Some (k, task)) →
     User.role u ≠ "founder" →
     EditTask.assigned_to_user_id task ≠ uid →
     serve (edits_view env) req st = unchanged req st (Abort 403))
  ∧ (task_id = None
     ∨ (∃ k, task_id = Some k ∧ fits_int64 k = true
             ∧ edit_tasks st !! k = None) →
     serve (edits_view env) req st
     = mkOutcome st [("Task not found", "danger")] (cookie req)
         (Redirect "edits_view"))
  ∧ ((∃ k, task_id = Some k ∧ fits_int64 k = false) →
     serve (edits_view env) req st
     = unchanged req st (ServerError OverflowError)).
Proof.
  intros Hm Hu%caller_Some Ha task_id found.
  assert (∀ r,
    found = r →
    (r = inr None
     → serve (edits_view env) req st
       = mkOutcome st [("Task not found", "danger")] (cookie req)
           (Redirect "edits_view"))
    ∧ (r = inl OverflowError
       → serve (edits_view env) req st
         = unchanged req st (ServerError OverflowError))) as Hnone.
  { intros r Hr. split; intros ->;
      unfold serve, edits_view, login_required, is_post;
      rewrite Hm, Ha; unfold_monad; simpl; rewrite Hu; simpl;
      unfold update_status; unfold_monad; simpl; fold task_id; fold found;
      by rewrite Hr. }
  split_and!.
  - intros k task Ht Hrole Hother.
    unfold serve, edits_view, login_required, is_post.
    rewrite Hm, Ha. unfold_monad. simpl. rewrite Hu. simpl.
    unfold update_status. unfold_monad. simpl. fold task_id. fold found.
    rewrite Ht. simpl.
    rewrite Hu. simpl. rewrite bool_decide_eq_false_2 by done. simpl.
    rewrite Hu. simpl. by rewrite bool_decide_eq_true_2.
  - intros Hmiss. apply (Hnone found eq_refl). unfold found.
    destruct Hmiss as [->|(k & -> & Hfits & Hk)]; [done|]. simpl.
    unfold Query.row. by rewrite Hfits, Hk.
  - intros (k & Hid & Hfits). apply (Hnone found eq_refl). unfold found.
    rewrite Hid. simpl. by rewrite Hfits.
Qed.

(** Kim, a freelancer, touches Sam's task 1, then a task 9 that does
    not exist. *)
Lemma update_task_rejected_witness :
  let theirs :=
    Sample.post (Some 3)
      [("action", "update_status"); ("task_id", "1"); ("status", "done")] in
  let none :=
    Sample.post (Some 3) [("action", "update_status"); ("task_id", "9")] in
  serve (edits_view Sample.env) theirs Sample.st
  = unchanged theirs Sample.st (Abort 403)
  ∧ serve (edits_view Sample.env) none Sample.st
    = mkOutcome Sample.st [("Task not found", "danger")] (Some 3)
        (Redirect "edits_view").
Proof.
  intros theirs none. split.
  - destruct (update_task_rejected Sample.env theirs Sample.st 3 Sample.kim
                eq_refl eq_refl eq_refl) as [Hforbidden _].
    by apply (Hforbidden 1 Sample.task).
  - destruct (update_task_rejected Sample.env none Sample.st 3 Sample.kim
                eq_refl eq_refl eq_refl) as (_ & Hmissing & _).
    apply Hmissing. right. by exists 9.
Defined.

(** C6 as stated fails: the task id 2^63 is the key of no task, yet the
    update is not answered with the not-found message but ends in a
    server error. *)
Lemma update_task_huge_id_not_reported_missing :
  let req :=
    Sample.post (Some 3)
      [("action", "update_status"); ("task_id", "9223372036854775808")] in
  let o := serve (edits_view Sample.env) req Sample.st in
  edit_tasks Sample.st !! 9223372036854775808 = None
  ∧ response o = ServerError OverflowError
  ∧ flashes o = []
  ∧ store o = Sample.st.
Proof. split_and!; by vm_compute. Qed.



(** ** States reached from the empty store *)

Lemma add_card_cases `{DB : !Sqlite} env req st :
  method req = POST →
  form_get req "action" = Some "add_card" →
  store (serve (sd_cards_view env) req st) = st
  ∨ ∃ card, SdCard.status card = "available"
            ∧ store (serve (sd_cards_view env) req st) = card_added st card.
Proof.
  intros Hm Ha. run_view. rewrite Hm, Ha. simpl.
  split_cases; try (by left).
  all: right; eexists; split; [|reflexivity]; done.
Qed.

Lemma sd_cards_view_other `{DB : !Sqlite} env req st :
  method req ≠ POST
  ∨ form_get req "action"
    ∉ [Some "add_card"; Some "checkout"; Some "return"] →
  store (serve (sd_cards_view env) req st) = st.
Proof.
  intros Hother. run_view.
  destruct (method req); [by split_cases|].
  destruct Hother as [Hpost|Hother]; [by destruct Hpost|].
  apply not_elem_of_cons in Hother as [Hadd Hother].
  apply not_elem_of_cons in Hother as [Hout Hother].
  apply not_elem_of_cons in Hother as [Hback _].
  rewrite !bool_decide_eq_false_2 by done. by split_cases.
Qed.

Lemma open_logs_same_logs st st' k :
  sd_card_logs st' = sd_card_logs st → open_logs st' k = open_logs st k.
Proof. unfold open_logs. by intros ->. Qed.

Lemma open_logs_unreferenced st k :
  logs_refer_to_cards st → sd_cards st !! k = None → open_logs st k = 0%nat.
Proof.
  intros Hfk Hk. unfold open_logs. apply map_size_empty_iff.
  apply map_empty_filter_2. intros lid log Hl [Hid _]. simpl in Hid.
  destruct (Hfk _ _ Hl) as [card Hcard]. congruence.
Qed.

Lemma custody_sound_same_tables st st' :
  custody_tables st' = custody_tables st →
  custody_sound st → custody_sound st'.
Proof.
  unfold custody_tables, custody_sound, custody_invariant, at_most_one_open,
    logs_refer_to_cards, open_logs.
  by intros [= -> ->].
Qed.

Lemma custody_sound_card_added st card :
  SdCard.status card = "available" →
  custody_sound st → custody_sound (card_added st card).
Proof.
  intros Hs (Hinv & Hone & Hfk).
  pose proof (next_id_fresh (sd_cards st)) as Hfresh.
  pose proof (open_logs_unreferenced _ _ Hfk Hfresh) as Hzero.
  split_and!; intros k x; unfold card_added at 1; simpl.
  - rewrite lookup_insert. case_decide as Hk; intros Hkx; simplify_eq;
      rewrite (open_logs_same_logs st) by done.
    + rewrite Hzero, Hs. done.
    + by apply Hinv.
  - rewrite lookup_insert. case_decide as Hk; intros Hkx; simplify_eq;
      rewrite (open_logs_same_logs st) by done.
    + lia.
    + by apply (Hone _ _ Hkx).
  - intros Hl. apply lookup_insert_is_Some'. right. by apply (Hfk _ _ Hl).
Qed.

Lemma refer_checked_out st card_id card log :
  sd_cards st !! card_id = Some card →
  SdCardLog.sd_card_id log = card_id →
  logs_refer_to_cards st →
  logs_refer_to_cards (checked_out st card_id card log).
Proof.
  intros Hc Hid Hfk lid l. unfold checked_out. simpl.
  rewrite lookup_insert. case_decide; intros Hl; simplify_eq;
    apply lookup_insert_is_Some'; [by left|right; by apply (Hfk _ _ Hl)].
Qed.

Lemma refer_returned st log_id log card now :
  sd_card_logs st !! log_id = Some log →
  logs_refer_to_cards st →
  logs_refer_to_cards (returned st log_id log card now).
Proof.
  intros Hlog Hfk lid l. unfold returned. simpl.
  rewrite lookup_insert. case_decide; intros Hl; simplify_eq;
    apply lookup_insert_is_Some'; [by left|right; by apply (Hfk _ _ Hl)].
Qed.

Lemma sd_cards_view_custody_sound `{DB : !Sqlite} env req st :
  custody_sound st → custody_sound (store (serve (sd_cards_view env) req st)).
Proof.
  intros Hsound.
  destruct (decide (method req = POST)) as [Hm|Hm];
    [|by rewrite sd_cards_view_other by (by left)].
  destruct (decide (form_get req "action" = Some "add_card")) as [Ha|Hadd].
  { destruct (add_card_cases env req st Hm Ha) as [->|(card & Hs & ->)];
      [done|by apply custody_sound_card_added]. }
  destruct (decide (form_get req "action" = Some "checkout")) as [Ha|Hout].
  { destruct Hsound as (Hinv & Hone & Hfk).
    destruct (checkout_cases env req st Hm Ha)
      as [->|(card_id & card & log & Hc & Hs & Hid & Hopen & ->)]; [done|].
    destruct (custody_checked_out st card_id card log) as [??]; try done.
    split_and!; try done. by apply refer_checked_out. }
  destruct (decide (form_get req "action" = Some "return")) as [Ha|Hback].
  { destruct Hsound as (Hinv & Hone & Hfk).
    destruct (return_cases env req st Hm Ha)
      as [->|(log_id & log & card & Hl & Hopen & Hc & ->)]; [done|].
    destruct (custody_returned st log_id log card (utcnow env)) as [??];
      try done.
    split_and!; try done. by apply refer_returned. }
  rewrite sd_cards_view_other; [done|]. right.
  by repeat (apply not_elem_of_cons; split); [..|apply not_elem_of_nil].
Qed.

Section reachable.
Context `{W : !Werkzeug} `{DB : !Sqlite}.

Lemma other_routes_custody_tables env url view req st :
  (url, view) ∈ routes env →
  url ≠ "/sd-cards" →
  custody_tables (store (serve view req st)) = custody_tables st.
Proof.
  intros Hin Hurl. unfold routes in Hin.
  repeat (apply elem_of_cons in Hin as [Hin|Hin]; [simplify_eq|]);
    try (by apply elem_of_nil in Hin); try done;
    run_view; by split_cases.
Qed.

Lemma create_admin_custody_tables env email_line name_line password st :
  custody_tables
    (run_script (create_admin env email_line name_line password) st).1
  = custody_tables st.
Proof.
  unfold run_script, create_admin, insert_user. unfold_monad. simpl.
  by split_cases.
Qed.

Lemma app_step_custody_sound st st' :
  app_step st st' → custody_sound st → custody_sound st'.
Proof.
  intros [env url view req Hin|env email_line name_line password] Hsound.
  - destruct (decide (url = "/sd-cards")) as [->|Hurl].
    + assert (view = sd_cards_view env) as ->.
      { unfold routes in Hin.
        repeat (apply elem_of_cons in Hin as [Hin|Hin]; [by simplify_eq|]).
        by apply elem_of_nil in Hin. }
      by apply sd_cards_view_custody_sound.
    + by eapply custody_sound_same_tables;
        [eapply other_routes_custody_tables|].
  - by eapply custody_sound_same_tables;
      [apply create_admin_custody_tables|].
Qed.

(** The custody invariant holds in every state the application reaches
    from the empty store. *)
Lemma reachable_custody_sound st :
  rtc app_step empty_store st → custody_sound st.
Proof.
  revert st. apply (rtc_ind_r custody_sound empty_store).
  - split_and!; apply map_Forall_empty.
  - intros st st' _ Hstep IH. by apply (app_step_custody_sound st).
Qed.

End reachable.

(** ** Role gating *)

(** C2, as amended.  An authenticated caller whose role is not
    ["founder"] never writes through a founder-only action.  The admin
    routes (events and sessions, packages, users) answer 403.  Adding a
    card and creating an edit task are skipped and answered with the
    redirect back to their page; booking an athlete session and
    allocating manpower are skipped and answered as a visit of the
    listing page is: with the page, or for the athletes listing with a
    server error when a filter id of the query string does not fit 64
    bits.  None of the four reports a forbidden error. *)
Theorem founder_only_actions_guarded `{W : !Werkzeug} `{DB : !Sqlite} env req
    st :
  non_founder req st →
  method req = POST →
  (form_get req "action" = Some "add_card" →
   serve (sd_cards_view env) req st
   = unchanged req st (Redirect "sd_cards_view"))
  ∧ (form_get req "action" = Some "add_task" →
     serve (edits_view env) req st = unchanged req st (Redirect "edits_view"))
  ∧ serve athletes_view req st
    = unchanged req st
        (if filters_fit
              [args_get_int req "event_id"; args_get_int req "session_id"]
         then Render "athletes.html"
         else ServerError OverflowError)
  ∧ serve manpower_view req st = unchanged req st (Render "manpower.html")
  ∧ serve manage_events req st = unchanged req st (Abort 403)
  ∧ serve manage_packages req st = unchanged req st (Abort 403)
  ∧ serve (manage_users env) req st = unchanged req st (Abort 403).
Proof.
  intros (uid & u & Hu%caller_Some & Hrole) Hm.
  split_and!; try intros Ha;
    unfold serve, unchanged, sd_cards_view, edits_view, athletes_view,
      manpower_view, manage_events, manage_packages, manage_users,
      login_required, founder_required, is_post;
    rewrite Hm, ?Ha; unfold_monad; simpl;
    repeat (first
      [ rewrite Hu
      | rewrite (bool_decide_eq_false_2 (User.role u = "founder")) by done
      | rewrite (bool_decide_eq_true_2 (User.role u ≠ "founder")) by done ];
      simpl);
    try done.
  by destruct (filters_fit _).
Qed.

(** Sam, a freelancer, posts a new card. *)
Lemma founder_only_actions_guarded_witness :
  let req :=
    Sample.post (Some 2) [("action", "add_card"); ("label", "SD-09")] in
  non_founder req Sample.st
  ∧ serve (sd_cards_view (DB := Sample.sqlite) Sample.env) req Sample.st
    = unchanged req Sample.st (Redirect "sd_cards_view")
  ∧ serve (manage_users (W := Sample.werkzeug) Sample.env) req Sample.st
    = unchanged req Sample.st (Abort 403).
Proof.
  intros req.
  assert (non_founder req Sample.st) as Hsam
    by (by exists 2, Sample.sam).
  destruct (founder_only_actions_guarded (W := Sample.werkzeug)
              (DB := Sample.sqlite) Sample.env req Sample.st Hsam eq_refl)
    as (Hcard & _ & _ & _ & _ & _ & Husers).
  split; [done|]. split; [by apply Hcard|exact Husers].
Defined.

(** C2 as stated fails: the freelancer's add-card request is not
    answered with a forbidden error but with the ordinary redirect. *)
Lemma add_card_by_freelancer_not_forbidden :
  let req :=
    Sample.post (Some 2) [("action", "add_card"); ("label", "SD-09")] in
  let o := serve (sd_cards_view (DB := Sample.sqlite) Sample.env) req Sample.st in
  non_founder req Sample.st
  ∧ response o = Redirect "sd_cards_view"
  ∧ response o ≠ Abort 403.
Proof.
  split_and!.
  - by exists 2, Sample.sam.
  - compute_done.
  - by vm_compute.
Qed.

(** ** Athlete booking *)

Lemma booking_outcome req st name team sid pid :
  founder req st →
  booking req name team sid pid →
  name ≠ "" →
  map_Forall (λ k _, fits_int64 k = true) (athletes st) →
  (¬ athlete_known st name team →
   fits_int64 (Query.next_id (athletes st)) = true) →
  ∃ aid ath,
    serve athletes_view req st
    = mkOutcome
        (with_athlete_sessions
           (<[Query.next_id (athlete_sessions st) :=
                booked_session req aid sid pid]>
              (athlete_sessions st))
           (with_athletes ath st))
        [("Athlete session saved", "success")] (cookie req)
        (Redirect "athletes_view")
    ∧ match Query.first (same_athlete name team) (athletes st) with
      | Some (k, _) => aid = k ∧ ath = athletes st
      | None =>
          aid = Query.next_id (athletes st)
          ∧ ath = <[aid := booked_athlete req name team]> (athletes st)
      end.
Proof.
  intros (uid & u & Hu%caller_Some & Hrole)
    [Hm Ha Hname Hteam Hs Hp Hsfits Hpfits] Hne Hkeys Hnext.
  unfold serve, athletes_view, login_required, is_post.
  rewrite Hm. unfold_monad. simpl. rewrite Hu. simpl. rewrite Hu. simpl.
  rewrite (bool_decide_eq_true_2 _ Hrole), Ha. simpl.
  unfold add_athlete_session. unfold_monad. rewrite Hname, Hteam.
  rewrite (int_truthy _ _ Hs), (int_truthy _ _ Hp).
  destruct name as [|c name]; [done|]. simpl.
  destruct (form_get req "session_id") as [s|]; [|done].
  destruct (form_get req "package_id") as [p|]; [|done].
  simpl in Hs, Hp.
  change (Query.first _ (athletes st))
    with (Query.first (same_athlete (String c name) team) (athletes st)).
  destruct (Query.first _ (athletes st)) as [[k a]|] eqn:Hfirst; simpl;
    rewrite Hs, Hp; simpl; rewrite Hsfits, Hpfits.
  - apply first_Some in Hfirst as [Hk _].
    rewrite (Hkeys k a Hk). simpl.
    exists k, (athletes st). split; [by destruct st|done].
  - rewrite Hnext.
    + simpl. eexists _, _. split; [reflexivity|by split].
    + intros (k & a & Hk & HP). by destruct (first_None _ _ Hfirst k a Hk).
Qed.

(** C5.  Two bookings by a founder that carry the same athlete name
    and team (name non-empty, session and package ids that [int] reads
    and that fit 64 bits) add two athlete-session rows, each with the
    session and package of its request, both referencing one athlete
    row with that name and team.  The second booking adds no athlete
    row, whatever its weight class and notes; the first adds one
    exactly when no row with that name and team existed, and that row
    is then the only one with that name and team.  The athletes table
    is one the engine filled: its keys and its next key fit 64 bits. *)
Theorem booking_twice_one_athlete req1 req2 st name team s1 p1 s2 p2 :
  founder req1 st →
  founder req2 st →
  booking req1 name team s1 p1 →
  booking req2 name team s2 p2 →
  name ≠ "" →
  has_room (athletes st) →
  let st1 := store (serve athletes_view req1 st) in
  let st2 := store (serve athletes_view req2 st1) in
  ∃ aid a r1 r2,
    athlete_sessions st1
    = <[Query.next_id (athlete_sessions st) := r1]> (athlete_sessions st)
    ∧ athlete_sessions st2
      = <[Query.next_id (athlete_sessions st1) := r2]> (athlete_sessions st1)
    ∧ size (athlete_sessions st2) = S (S (size (athlete_sessions st)))
    ∧ r1 = booked_session req1 aid s1 p1
    ∧ r2 = booked_session req2 aid s2 p2
    ∧ athletes st2 !! aid = Some a
    ∧ same_athlete name team (aid, a)
    ∧ athletes st2 = athletes st1
    ∧ (athlete_known st name team → athletes st1 = athletes st)
    ∧ (¬ athlete_known st name team →
       athletes st !! aid = None
       ∧ a = booked_athlete req1 name team
       ∧ athletes st1 = <[aid := a]> (athletes st)
       ∧ size (athletes st2) = S (size (athletes st))
       ∧ ∀ k' a', athletes st2 !! k' = Some a' →
                  same_athlete name team (k', a') → k' = aid).
Proof.
  intros Hf1 Hf2 Hb1 Hb2 Hne [Hkeys Hnext] st1 st2.
  destruct (booking_outcome req1 st name team s1 p1 Hf1 Hb1 Hne Hkeys)
    as (aid & ath1 & Ho1 & Hath1); [done|].
  assert (founder req2 st1) as Hf2'.
  { unfold st1. rewrite Ho1. exact Hf2. }
  assert (athlete_sessions st1
          = <[Query.next_id (athlete_sessions st) :=
                booked_session req1 aid s1 p1]>
              (athlete_sessions st)) as Hs1.
  { unfold st1. by rewrite Ho1. }
  assert (athletes st1 = ath1) as Ha1. { unfold st1. by rewrite Ho1. }
  pose proof (next_id_fresh (athletes st)) as Hfresh.
  assert (∃ a,
    athletes st1 !! aid = Some a
    ∧ same_athlete name team (aid, a)
    ∧ Query.first (same_athlete name team) (athletes st1) = Some (aid, a)
    ∧ map_Forall (λ k _, fits_int64 k = true) (athletes st1)
    ∧ (athlete_known st name team → athletes st1 = athletes st)
    ∧ (¬ athlete_known st name team →
       athletes st !! aid = None
       ∧ a = booked_athlete req1 name team
       ∧ athletes st1 = <[aid := a]> (athletes st)
       ∧ ∀ k' a', athletes st1 !! k' = Some a' →
                  same_athlete name team (k', a') → k' = aid))
    as (a & Hk1 & HP & Hfirst1 & Hkeys1 & Hold & Hnew).
  { rewrite Ha1.
    destruct (Query.first (same_athlete name team) (athletes st))
      as [[k a]|] eqn:Hfirst.
    - destruct Hath1 as [-> ->]. pose proof Hfirst as [Hk HP]%first_Some.
      exists a. split_and!; try done. intros []. by exists k, a.
    - destruct Hath1 as (-> & ->).
      set (aid := Query.next_id (athletes st)) in *.
      set (a := booked_athlete req1 name team) in *.
      assert (¬ athlete_known st name team) as Hunknown.
      { intros (k & a' & Hk & HP').
        by destruct (first_None _ _ Hfirst k a' Hk HP'). }
      assert (same_athlete name team (aid, a)) as HP.
      { split; [|done]. simpl. by destruct Hb1. }
      exists a. split_and!; try done.
      + apply lookup_insert_eq.
      + destruct (Query.first _ (<[aid := a]> (athletes st)))
          as [[k' a']|] eqn:Hfirst'.
        * apply first_Some in Hfirst' as [Hk' HP'].
          rewrite lookup_insert in Hk'. case_decide; [by simplify_eq|].
          by destruct (first_None _ _ Hfirst k' a' Hk' HP').
        * destruct (first_None _ _ Hfirst' aid a); [|done].
          apply lookup_insert_eq.
      + apply map_Forall_insert_2; [by apply Hnext|done].
      + intros _. split_and!; try done.
        intros k' a' Hk' HP'. rewrite lookup_insert in Hk'.
        case_decide; [done|].
        by destruct (first_None _ _ Hfirst k' a' Hk' HP'). }
  destruct (booking_outcome req2 st1 name team s2 p2 Hf2' Hb2 Hne Hkeys1)
    as (aid2 & ath2 & Ho2 & Hath2).
  { intros []. by exists aid, a. }
  rewrite Hfirst1 in Hath2. destruct Hath2 as [-> ->].
  assert (athlete_sessions st2
          = <[Query.next_id (athlete_sessions st1) :=
                booked_session req2 aid s2 p2]>
              (athlete_sessions st1)) as Hs2.
  { unfold st2. by rewrite Ho2. }
  assert (athletes st2 = athletes st1) as Ha2.
  { unfold st2. by rewrite Ho2. }
  exists aid, a, (booked_session req1 aid s1 p1),
    (booked_session req2 aid s2 p2).
  rewrite Ha2. split_and!; try done.
  - rewrite Hs2, map_size_insert_None by apply next_id_fresh.
    by rewrite Hs1, map_size_insert_None by apply next_id_fresh.
  - intros Hunknown.
    destruct (Hnew Hunknown) as (Hnone & Ha & Hst1 & Honly).
    split_and!; try done.
    by rewrite Hst1, map_size_insert_None.
Qed.

(** The founder books Jane Doe of team Iron twice, the second time with
    padding around the name and another weight class. *)
Lemma booking_twice_one_athlete_witness :
  let first :=
    Sample.post (Some 1)
      [("action", "add_athlete_session"); ("athlete_name", "Jane Doe");
       ("team", "Iron"); ("weight_class", "63"); ("session_id", "1");
       ("package_id", "1")] in
  let second :=
    Sample.post (Some 1)
      [("action", "add_athlete_session"); ("athlete_name", " Jane Doe ");
       ("team", "Iron"); ("weight_class", "69"); ("notes", "late");
       ("session_id", "2"); ("package_id", "1")] in
  let st1 := store (serve athletes_view first Sample.st) in
  let st2 := store (serve athletes_view second st1) in
  founder first Sample.st
  ∧ booking first "Jane Doe" "Iron" 1 1
  ∧ booking second "Jane Doe" "Iron" 2 1
  ∧ has_room (athletes Sample.st)
  ∧ size (athlete_sessions st2) = 2%nat
  ∧ size (athletes st2) = 1%nat
  ∧ athletes st2 = athletes st1.
Proof.
  intros first second st1 st2.
  assert (founder first Sample.st) as Hf1 by (by exists 1, Sample.boss).
  assert (founder second Sample.st) as Hf2 by (by exists 1, Sample.boss).
  assert (booking first "Jane Doe" "Iron" 1 1) as Hb1 by (by split).
  assert (booking second "Jane Doe" "Iron" 2 1) as Hb2 by (by split).
  assert (has_room (athletes Sample.st)) as Hroom
    by (split; [apply map_Forall_empty|reflexivity]).
  assert (¬ athlete_known Sample.st "Jane Doe" "Iron") as Hnew
    by (by intros (k & a & Hk & _)).
  destruct (booking_twice_one_athlete first second Sample.st
              "Jane Doe" "Iron" 1 1 2 1 Hf1 Hf2 Hb1 Hb2)
    as (aid & a & r1 & r2 & _ & _ & Hsize & _ & _ & _ & _ & Hsame & _
        & Hone);
    [done|done|].
  destruct (Hone Hnew) as (_ & _ & _ & Hathletes & _).
  split; [done|]. split; [done|]. split; [done|]. split; [done|].
  split; [exact Hsize|]. split; [exact Hathletes|exact Hsame].
Defined.

(** ** Users *)

Section users.
Context `{W : !Werkzeug} `{DB : !Sqlite}.

Lemma first_email_taken st email :
  email_taken st email
  → is_Some (Query.first (λ x, User.email x.2 = email) (users st)).
Proof. intros (k & u & Hk & He). by apply (first_is_Some _ _ k u). Qed.

Lemma first_email_free st email :
  ¬ email_taken st email
  → Query.first (λ x, User.email x.2 = email) (users st) = None.
Proof.
  intros Hfree. destruct (Query.first _ (users st)) as [[k u]|] eqn:E;
    [|done].
  apply first_Some in E as [Hk He]. destruct Hfree. by exists k, u.
Qed.

(** The role-changing action only stores one of the two roles. *)
Lemma change_role_roles_valid env req st :
  method req = POST →
  form_get req "action" = Some "change_role" →
  roles_valid st →
  roles_valid (store (serve (manage_users env) req st)).
Proof.
  intros Hm Ha Hvalid.
  unfold serve, manage_users, login_required, founder_required, is_post.
  rewrite Hm, Ha. unfold_monad. simpl.
  destruct (session_user_of (cookie req) st) as [e|[[uid u]|]] eqn:Hu;
    simpl; [done| |done].
  rewrite Hu. simpl. case_bool_decide; simpl; [done|].
  unfold change_role. unfold_monad. simpl.
  destruct (Query.get (form_get_int req "user_id") (users st))
    as [e|[[k u']|]]; simpl; [done| |done].
  case_bool_decide as Hrole; simpl; [|done].
  apply map_Forall_insert_2; [|done]. simpl.
  apply list_elem_of_In in Hrole. unfold valid_role.
  destruct Hrole as [<-|[<-|[]]]; auto.
Qed.

(** The bootstrap script only stores the founder role. *)
Lemma create_admin_roles_valid env email_line name_line password st :
  roles_valid st →
  roles_valid
    (run_script (create_admin env email_line name_line password) st).1.
Proof.
  intros Hvalid. unfold run_script, create_admin, insert_user. unfold_monad.
  simpl. destruct (Query.first _ (users st)) as [[k u]|] eqn:E; simpl;
    [done|].
  rewrite E. simpl. apply map_Forall_insert_2; [by left|done].
Qed.

(** C8: the code stores a role outside the two.  From the empty store,
    the bootstrap script creates the founder, who then adds a user with
    the role field set to ["admin"]; [add_user] stores the field as
    submitted, so the state reached has a user whose role is neither
    ["founder"] nor ["freelancer"]. *)
Theorem add_user_stores_submitted_role :
  let st :=
    (run_script (create_admin Sample.env "boss@example.com" "Boss" "pw")
       empty_store).1 in
  let req :=
    Sample.post (Some 1)
      [("action", "add_user"); ("name", "Eve"); ("email", "eve@example.com");
       ("password", "pw"); ("role", "admin"); ("active", "on")] in
  let o := serve (manage_users Sample.env) req st in
  roles_valid st
  ∧ founder req st
  ∧ rtc app_step empty_store (store o)
  ∧ flashes o = [("User created", "success")]
  ∧ User.role <$> users (store o) !! 2 = Some "admin"
  ∧ ¬ roles_valid (store o).
Proof.
  split_and!.
  - compute_done.
  - eexists 1, _. split; [reflexivity|done].
  - eapply rtc_l; [apply (step_create_admin _ Sample.env)|].
    apply rtc_once. apply (step_request _ Sample.env "/admin/users").
    do 10 apply list_elem_of_further. apply list_elem_of_here.
  - compute_done.
  - compute_done.
  - compute_done.
Qed.

(** C9, as amended.  The bootstrap script, run with an email that an
    existing user has, reports the conflict and writes nothing; run with
    a new email it adds exactly one user, with role ["founder"] and
    [active] set.  An [add_user] request with non-empty name, email and
    password whose email an existing user has is answered with the
    conflict message and writes nothing; an [add_user] request with one
    of the three empty is answered with the required-fields message and
    writes nothing, whether or not the email is taken. *)
Theorem user_creation_conflict env st :
  (∀ email_line name_line password,
     email_taken st (normalize email_line) →
     run_script (create_admin env email_line name_line password) st
     = (st, inr "User with that email already exists."))
  ∧ (∀ email_line name_line password,
       ¬ email_taken st (normalize email_line) →
       run_script (create_admin env email_line name_line password) st
       = (with_users
            (<[Query.next_id (users st) :=
                 User.mk (Py.strip name_line) (normalize email_line)
                   (generate_password_hash (salt env) password)
                   "founder" true]> (users st)) st,
          inr "Founder user created.")
       ∧ users st !! Query.next_id (users st) = None)
  ∧ (∀ req,
       founder req st →
       method req = POST →
       form_get req "action" = Some "add_user" →
       email_taken st (normalize (form_get_or req "email" "")) →
       Py.strip (form_get_or req "name" "") ≠ "" →
       normalize (form_get_or req "email" "") ≠ "" →
       form_get_or req "password" "" ≠ "" →
       serve (manage_users env) req st
       = mkOutcome st [("User with that email already exists", "danger")]
           (cookie req) (Redirect "manage_users"))
  ∧ (∀ req,
       founder req st →
       method req = POST →
       form_get req "action" = Some "add_user" →
       Py.strip (form_get_or req "name" "") = ""
       ∨ normalize (form_get_or req "email" "") = ""
       ∨ form_get_or req "password" "" = "" →
       serve (manage_users env) req st
       = mkOutcome st [("Name, email and password are required", "danger")]
           (cookie req) (Redirect "manage_users")).
Proof.
  split_and!.
  - intros email_line name_line password [[k u] Hfirst]%first_email_taken.
    unfold run_script, create_admin. unfold_monad. simpl.
    fold (normalize email_line). by rewrite Hfirst.
  - intros email_line name_line password Hfree.
    split; [|apply next_id_fresh].
    pose proof (first_email_free _ _ Hfree) as Hfirst.
    unfold run_script, create_admin, insert_user. unfold_monad. simpl.
    fold (normalize email_line). rewrite Hfirst. simpl. by rewrite Hfirst.
  - intros req (uid & u & Hu%caller_Some & Hrole) Hm Ha
      [[k u'] Hfirst]%first_email_taken Hname Hemail Hpw.
    unfold serve, manage_users, login_required, founder_required, is_post.
    rewrite Hm, Ha. unfold_monad. simpl. rewrite Hu. simpl.
    rewrite Hu. simpl. rewrite bool_decide_eq_false_2 by (by intros []).
    unfold add_user, insert_user. unfold_monad. simpl.
    fold (normalize (form_get_or req "email" "")).
    destruct (Py.strip (form_get_or req "name" "")); [done|].
    destruct (normalize (form_get_or req "email" "")) eqn:E; [done|].
    destruct (form_get_or req "password" ""); [done|]. simpl.
    by rewrite Hfirst.
  - intros req (uid & u & Hu%caller_Some & Hrole) Hm Ha Hempty.
    unfold serve, manage_users, login_required, founder_required, is_post.
    rewrite Hm, Ha. unfold_monad. simpl. rewrite Hu. simpl.
    rewrite Hu. simpl. rewrite bool_decide_eq_false_2 by (by intros []).
    unfold add_user, insert_user. unfold_monad. simpl.
    fold (normalize (form_get_or req "email" "")).
    destruct Hempty as [->| [->| ->]]; simpl; [done| |].
    + by destruct (Py.strip _).
    + destruct (Py.strip _); [done|]. by destruct (normalize _).
Qed.

Lemma login_outcome req st :
  method req = POST →
  anonymous req st →
  let email := normalize (form_get_or req "email" "") in
  let password := form_get_or req "password" "" in
  serve login req st
  = match Query.first
            (λ x, User.email x.2 = email ∧ User.active x.2 = true) (users st)
    with
    | Some (k, u) =>
        if check_password_hash (User.password_hash u) password
        then mkOutcome st [] (Some k) (Redirect "dashboard")
        else login_failed req st
    | None => login_failed req st
    end.
Proof.
  intros Hm Hu email password. unfold anonymous in Hu.
  unfold serve, login, is_post. rewrite Hm. unfold_monad. simpl.
  rewrite Hu. simpl. fold (normalize (form_get_or req "email" "")).
  fold email password.
  destruct (Query.first _ (users st)) as [[k u]|]; simpl; [|done].
  by destruct (check_password_hash _ _).
Qed.

(** C10.  A login attempt (a POST to [/login] by a caller who is not
    logged in: the session holds no user id, or one that is the key of
    no user) succeeds exactly when some user row has the submitted
    email, trimmed and lower-cased, has [active] set, and has a hash
    that verifies the submitted password; it then logs that user in.
    Otherwise it is answered with the invalid-credentials message.  In
    particular it fails for a user whose [active] flag is off, whatever
    the password. *)
Theorem login_iff_credentials req st :
  method req = POST →
  anonymous req st →
  unique_emails st →
  let email := normalize (form_get_or req "email" "") in
  let password := form_get_or req "password" "" in
  let o := serve login req st in
  (response o = Redirect "dashboard"
   ↔ ∃ k u, credentials_match st email password k u)
  ∧ (∀ k u, credentials_match st email password k u →
            o = mkOutcome st [] (Some k) (Redirect "dashboard"))
  ∧ ((¬ ∃ k u, credentials_match st email password k u) →
     o = login_failed req st)
  ∧ (∀ k u, users st !! k = Some u → User.email u = email →
            User.active u = false → o = login_failed req st).
Proof.
  intros Hm Hu Huniq email password o.
  pose proof (login_outcome req st Hm Hu) as Ho. simpl in Ho.
  fold email password o in Ho.
  destruct (Query.first _ (users st)) as [[k0 u0]|] eqn:Hfirst.
  - apply first_Some in Hfirst as (Hk0 & He0 & Hact0). simpl in *.
    assert (∀ k u, users st !! k = Some u → User.email u = email →
                   k = k0 ∧ u = u0) as Hsame.
    { intros k u Hk He.
      assert (k = k0) as -> by (apply (Huniq _ _ Hk _ _ Hk0); congruence).
      split; [done|congruence]. }
    destruct (check_password_hash _ _) eqn:Hcheck; rewrite Ho.
    + split_and!.
      * split; [|done]. intros _. by exists k0, u0.
      * intros k u (Hk & He & _). by destruct (Hsame k u Hk He) as [-> _].
      * intros []. by exists k0, u0.
      * intros k u Hk He Hact. destruct (Hsame k u Hk He) as [-> ->].
        congruence.
    + assert (¬ ∃ k u, credentials_match st email password k u) as Hno.
      { intros (k & u & Hk & He & _ & Hc).
        destruct (Hsame k u Hk He) as [-> ->]. congruence. }
      split_and!; try done.
      intros k u Hc. destruct Hno. by exists k, u.
  - rewrite Ho.
    assert (¬ ∃ k u, credentials_match st email password k u) as Hno.
    { intros (k & u & Hk & He & Hact & _).
      by destruct (first_None _ _ Hfirst k u Hk). }
    split_and!; try done.
    intros k u Hc. destruct Hno. by exists k, u.
Qed.

End users.

(** The script is run with the founder's email in another spelling,
    then with a new one; the founder then posts a user with Sam's
    email. *)
Lemma user_creation_conflict_witness :
  let dup :=
    Sample.post (Some 1)
      [("action", "add_user"); ("name", "Sammy");
       ("email", " Sam@Example.com"); ("password", "pw9")] in
  run_script
    (create_admin (W := Sample.werkzeug) Sample.env " Boss@Example.COM "
       "Boss" "pw")
    Sample.st
  = (Sample.st, inr "User with that email already exists.")
  ∧ run_script
      (create_admin (W := Sample.werkzeug) Sample.env "ann@example.com"
         " Ann " "pw4")
      Sample.st
    = (with_users
         (<[4 := User.mk "Ann" "ann@example.com" "s$pw4" "founder" true]>
            (users Sample.st)) Sample.st,
       inr "Founder user created.")
  ∧ serve (manage_users (W := Sample.werkzeug) Sample.env) dup Sample.st
    = mkOutcome Sample.st [("User with that email already exists", "danger")]
        (Some 1) (Redirect "manage_users").
Proof.
  intros dup.
  destruct (user_creation_conflict (W := Sample.werkzeug) Sample.env
              Sample.st) as (Htaken & Hfree & Hdup & _).
  split_and!.
  - apply Htaken. by exists 1, Sample.boss.
  - apply (Hfree "ann@example.com" " Ann " "pw4").
    intros (k & u & Hk & He).
    assert (bool_decide
              (map_Forall (λ _ u, User.email u ≠ "ann@example.com")
                 (users Sample.st)) = true) as Hall by reflexivity.
    apply bool_decide_eq_true_1 in Hall. by destruct (Hall k u Hk).
  - apply Hdup; [by exists 1, Sample.boss|done|done| |done|done|done].
    by exists 2, Sample.sam.
Defined.

(** C9 as stated fails for [add_user]: with the name left empty, a
    request carrying Sam's email is answered with the required-fields
    message, not with the conflict. *)
Lemma add_user_taken_email_no_conflict_report :
  let req :=
    Sample.post (Some 1)
      [("action", "add_user"); ("name", ""); ("email", "sam@example.com");
       ("password", "pw9")] in
  let o := serve (manage_users (W := Sample.werkzeug) Sample.env) req
             Sample.st in
  founder req Sample.st
  ∧ email_taken Sample.st (normalize (form_get_or req "email" ""))
  ∧ flashes o = [("Name, email and password are required", "danger")]
  ∧ flashes o ≠ [("User with that email already exists", "danger")].
Proof.
  split_and!.
  - by exists 1, Sample.boss.
  - by exists 2, Sample.sam.
  - compute_done.
  - by vm_compute.
Qed.

(** The founder logs in with the email in capitals; Kim, deactivated,
    is turned away with the right password. *)
Lemma login_iff_credentials_witness :
  let boss :=
    Sample.post None [("email", " BOSS@example.com"); ("password", "pw")] in
  let kim :=
    Sample.post None [("email", "kim@example.com"); ("password", "pw3")] in
  unique_emails Sample.st
  ∧ serve (login (W := Sample.werkzeug)) boss Sample.st
    = mkOutcome Sample.st [] (Some 1) (Redirect "dashboard")
  ∧ check_password_hash (Werkzeug := Sample.werkzeug)
      (User.password_hash Sample.kim) "pw3" = true
  ∧ serve (login (W := Sample.werkzeug)) kim Sample.st
    = login_failed kim Sample.st.
Proof.
  intros boss kim.
  assert (unique_emails Sample.st) as Huniq by compute_done.
  split; [done|]. split_and!.
  - destruct (login_iff_credentials (W := Sample.werkzeug) boss Sample.st
                eq_refl eq_refl Huniq) as (_ & Hin & _).
    apply (Hin 1 Sample.boss). by split_and!.
  - reflexivity.
  - destruct (login_iff_credentials (W := Sample.werkzeug) kim Sample.st
                eq_refl eq_refl Huniq) as (_ & _ & _ & Hoff).
    by apply (Hoff 3 Sample.kim).
Defined.

(** ** Every route *)

Ltac each_route Hin :=
  unfold routes in Hin;
  repeat (apply elem_of_cons in Hin as [Hin|Hin]; [simplify_eq|]);
  [..|by apply elem_of_nil in Hin].

Section every_route.
Context `{W : !Werkzeug} `{DB : !Sqlite}.

(** X1.  Every route but [/login] sits behind [login_required]: a
    request whose login session resolves to no user is answered with
    the redirect to the login page and the login message, and writes
    nothing.  The router comes first: a POST to [/logout], [/] or
    [/session-athletes], which accept no POST, is answered with 405. *)
Theorem anonymous_redirected_to_login env url view req st :
  (url, view) ∈ routes env →
  url ≠ "/login" →
  anonymous req st →
  let get_only_urls := ["/logout"; "/"; "/session-athletes"] in
  (method req = GET ∨ url ∉ get_only_urls →
   serve view req st = login_redirect req st)
  ∧ (method req = POST → url ∈ get_only_urls →
     serve view req st = unchanged req st (Abort 405)).
Proof.
  intros Hin Hurl Hanon urls. unfold anonymous in Hanon. split.
  - intros Hok. each_route Hin; try done; run_view;
      destruct (method req); simpl; rewrite ?Hanon; try done.
    all: destruct Hok as [?|Hok]; [done|]; destruct Hok; set_solver.
  - intros Hm Hin'. rewrite <- (bool_decide_eq_true _) in Hin'.
    each_route Hin; try done; run_view; by rewrite Hm.
Qed.

(** X2.  No route writes on a GET, and [/login], [/logout], [/] and
    [/session-athletes] write on no method. *)
Theorem read_paths_never_write env url view req st :
  (url, view) ∈ routes env →
  method req = GET
  ∨ url ∈ ["/login"; "/logout"; "/"; "/session-athletes"] →
  store (serve view req st) = st.
Proof.
  intros Hin Hread.
  destruct Hread as [Hget|Hurl].
  - each_route Hin; run_view; rewrite ?Hget; by split_cases.
  - repeat (apply elem_of_cons in Hurl as [->|Hurl]);
      [..|by apply elem_of_nil in Hurl];
      each_route Hin; run_view; by split_cases.
Qed.

End every_route.

(** ** What a request can write *)

(** Enter a view as the caller [(uid, me)], or stop at the login
    redirect; then decide whether the caller is a founder. *)
Ltac enter_view req st :=
  run_view;
  let uid := fresh "uid" in
  let me := fresh "me" in
  let Hme := fresh "Hme" in
  destruct (session_user_of (cookie req) st) as [?|[[uid me]|]] eqn:Hme;
    simpl; [by constructor| |by constructor];
  rewrite ?Hme; simpl;
  let Hcaller := fresh "Hcaller" in
  pose proof (proj2 (caller_Some req st (uid, me)) Hme) as Hcaller;
  let Hrole := fresh "Hrole" in
  let Hyes := fresh "Hyes" in
  let Hno := fresh "Hno" in
  destruct (decide (User.role me = "founder")) as [Hrole|Hrole];
    [ assert (bool_decide (User.role me = "founder") = true) as Hyes
        by (by apply bool_decide_eq_true_2);
      assert (bool_decide (User.role me ≠ "founder") = false) as Hno
        by (by apply bool_decide_eq_false_2; intros []);
      assert (founder req st) by (by exists uid, me)
    | assert (bool_decide (User.role me = "founder") = false) as Hyes
        by (by apply bool_decide_eq_false_2);
      assert (bool_decide (User.role me ≠ "founder") = true) as Hno
        by (by apply bool_decide_eq_true_2) ].

Ltac role_known :=
  match goal with
  | H : bool_decide (User.role ?me = "founder") = _
    |- context [bool_decide (User.role ?me = "founder")] => rewrite H
  | H : bool_decide (User.role ?me ≠ "founder") = _
    |- context [bool_decide (User.role ?me ≠ "founder")] => rewrite H
  | H : session_user_of ?c ?st = _
    |- context [session_user_of ?c ?st] => rewrite H
  | H : session_user_of ?c ?st = _,
    H' : context [session_user_of ?c ?st] |- _ => rewrite H in H'
  end.

Ltac split_writes :=
  try (by constructor);
  repeat (first [role_known | case_match]; simpl in *; simplify_eq;
          try (by constructor); try congruence).

Ltac use_get :=
  repeat match goal with
  | Hget : _ <$> _ !! _ = Some (_, _) |- _ =>
      apply fmap_Some in Hget as (? & Hget & ?); simplify_eq
  | Hget : Query.row _ _ = Some (_, _) |- _ =>
      apply row_Some in Hget as [? Hget]; simplify_eq
  | Hget : Query.get _ _ = inr (Some _) |- _ =>
      apply get_Some in Hget as [_ Hget]
  | Hget : Query.get_text _ _ = Some _ |- _ =>
      apply get_text_Some in Hget as [_ Hget]
  end.

Lemma truthy_ne (s : string) : Py.truthy s = true → s ≠ "".
Proof. by destruct s. Qed.

Lemma nonzero_ne (z : Z) : negb (z =? 0) = true → z ≠ 0.
Proof. by intros Hz ->. Qed.

Section writes.
Context `{W : !Werkzeug} `{DB : !Sqlite}.

Lemma manage_users_write env req st :
  write env req st (store (serve (manage_users env) req st)).
Proof.
  enter_view req st; split_writes; use_get.
  - apply user_added; simpl; try done.
    + intros (k & u & Hk & He).
      match goal with
      | Hnone : Query.first _ (users st) = None |- _ =>
          by destruct (first_None _ _ Hnone k u Hk)
      end.
    + match goal with
      | Hreq : negb _ = false |- _ =>
          apply negb_false_iff in Hreq;
          apply andb_true_iff in Hreq as [Hreq _];
          apply andb_true_iff in Hreq as [_ Hreq]
      end.
      by apply truthy_ne.
  - by apply user_toggled.
  - apply user_role_changed; [done..|].
    match goal with
    | Hin : bool_decide (_ ∈ _) = true |- _ =>
        apply bool_decide_eq_true_1, list_elem_of_In in Hin;
        unfold valid_role; destruct Hin as [<-|[<-|[]]]; auto
    end.
Qed.

Lemma manage_packages_write env req st :
  write env req st (store (serve manage_packages req st)).
Proof.
  enter_view req st; split_writes.
  apply package_added; [done|]. simpl.
  match goal with
  | Hname : negb _ = false |- _ =>
      apply negb_false_iff in Hname; by apply truthy_ne
  end.
Qed.

Lemma manage_events_write env req st :
  write env req st (store (serve manage_events req st)).
Proof.
  enter_view req st; split_writes.
  - apply event_added; simpl; try done.
    match goal with
    | Hname : negb _ = false |- _ =>
        apply negb_false_iff in Hname; by apply truthy_ne
    end.
  - match goal with
    | Hreq : negb _ = false |- _ =>
        apply negb_false_iff in Hreq;
        apply andb_true_iff in Hreq as [Hreq Hdate];
        apply andb_true_iff in Hreq as [Hid Hlabel]
    end.
    apply session_added; simpl; try done.
    + by apply truthy_ne.
    + by apply nonzero_ne.
Qed.

Lemma manpower_view_write env req st :
  write env req st (store (serve manpower_view req st)).
Proof.
  enter_view req st; split_writes.
  match goal with
  | Hreq : _ && _ = true |- _ =>
      apply andb_true_iff in Hreq as [Hreq Hrole'];
      apply andb_true_iff in Hreq as [Hreq Hu];
      apply andb_true_iff in Hreq as [He Hs]
  end.
  apply manpower_added; simpl; try done;
    try (by apply truthy_ne); by apply nonzero_ne.
Qed.

Lemma athletes_view_write env req st :
  write env req st (store (serve athletes_view req st)).
Proof.
  enter_view req st; split_writes.
  all: match goal with
       | Hreq : negb _ = false |- _ =>
           apply negb_false_iff in Hreq;
           apply andb_true_iff in Hreq as [Hreq _];
           apply andb_true_iff in Hreq as [Hname%truthy_ne _]
       end.
  - match goal with
    | Hfirst : Query.first _ (athletes st) = Some _ |- _ =>
        apply first_Some in Hfirst as [Hk [Hn _]]
    end.
    simpl in *. eapply athlete_booked; [done..|congruence|done].
  - match goal with
    | Hfirst : Query.first _ (athletes st) = None |- _ =>
        pose proof (first_None _ _ Hfirst) as Hnone
    end.
    apply athlete_created_and_booked; simpl; try done.
    eexists. split; [done|]. intros (k & a & Hk & HP).
    by destruct (Hnone k a Hk).
Qed.

Lemma edits_view_write env req st :
  write env req st (store (serve (edits_view env) req st)).
Proof.
  enter_view req st; split_writes; use_get.
  all: try (apply task_added; simpl; try done;
            match goal with
            | Hreq : _ && _ = true |- _ =>
                apply andb_true_iff in Hreq as [_ Hreq]; by apply truthy_ne
            end).
  all: match goal with
       | |- write _ _ _ (with_edit_tasks (<[?k := ?x]> _) _) =>
           replace x with
             (updated_task (utcnow env)
                (Py.strip (form_get_or req "status" ""))
                (Py.strip (form_get_or req "deliverable_link" "")) t)
             by (unfold updated_task;
                 repeat match goal with
                        | Ht : Py.truthy _ = _ |- _ => rewrite Ht; clear Ht
                        end;
                 done)
       end.
  all: eapply task_updated; [done..|].
  all: first
    [ by left
    | right;
      match goal with
      | Hmine : bool_decide (_ ≠ _) = false |- _ =>
          by apply bool_decide_eq_false_1, dec_stable in Hmine
      end
    | match goal with
      | Hy : bool_decide (User.role ?m = "founder") = false,
        Hc : negb (bool_decide (User.role ?m = "founder")) = false |- _ =>
          by rewrite Hy in Hc
      end ].
Qed.

Lemma sd_cards_view_write env req st :
  write env req st (store (serve (sd_cards_view env) req st)).
Proof.
  enter_view req st; split_writes; use_get.
  all: first
    [ match goal with
      | Hc : session_user_of _ _ = inr (Some _),
        Hopen : bool_decide (SdCardLog.returned_at _ = None) = true |- _ =>
          apply bool_decide_eq_true_1 in Hopen;
          apply caller_Some in Hc;
          by eapply card_returned; [eexists; exact Hc|..]
      end
    | match goal with
      | Hc : session_user_of _ _ = inr (Some _),
        Hs : bool_decide (SdCard.status _ = "available") = true |- _ =>
          apply bool_decide_eq_true_1 in Hs;
          apply caller_Some in Hc;
          by eapply card_checked_out; [exact Hc|..]
      end
    | apply card_created; simpl; try done;
      [ by apply truthy_ne
      | intros (k & c & Hk & Hl);
        match goal with
        | Hnone : Query.first _ _ = None |- _ =>
            by destruct (first_None _ _ Hnone k c Hk)
        end ] ].
Qed.

Lemma login_write env req st : write env req st (store (serve login req st)).
Proof. run_view. by split_writes. Qed.

Lemma logout_write env req st :
  write env req st (store (serve (get_only logout) req st)).
Proof. run_view. by split_writes. Qed.

Lemma dashboard_write env req st :
  write env req st (store (serve (get_only dashboard) req st)).
Proof. run_view. by split_writes. Qed.

Lemma session_athletes_view_write env req st :
  write env req st (store (serve (get_only session_athletes_view) req st)).
Proof. run_view. by split_writes. Qed.

(** Whatever a route does to the store is one of the writes. *)
Lemma route_write env url view req st :
  (url, view) ∈ routes env → write env req st (store (serve view req st)).
Proof.
  intros Hin. each_route Hin;
    auto using login_write, logout_write, dashboard_write,
      sd_cards_view_write, athletes_view_write, session_athletes_view_write,
      manpower_view_write, edits_view_write, manage_events_write,
      manage_packages_write, manage_users_write.
Qed.

End writes.

(** ** What only founders write *)

Section founders.
Context `{W : !Werkzeug} `{DB : !Sqlite}.

Lemma founder_has_role req st :
  founder req st → ∃ k u, users st !! k = Some u ∧ User.role u = "founder".
Proof.
  intros (uid & me & Hme & Hrole). exists uid, me. split; [|done].
  by apply caller_lookup in Hme as (_ & _ & ?).
Qed.

Lemma write_without_founder env req st st' :
  write env req st st' →
  ¬ founder req st →
  founder_tables st' = founder_tables st
  ∧ (∀ k, sd_cards st !! k = None → sd_cards st' !! k = None)
  ∧ (∀ k, edit_tasks st !! k = None → edit_tasks st' !! k = None)
  ∧ (∀ uid me k t,
       caller req st = Some (uid, me) →
       edit_tasks st !! k = Some t →
       EditTask.assigned_to_user_id t ≠ uid →
       edit_tasks st' !! k = Some t).
Proof.
  intros Hwrite Hnot. destruct Hwrite; try done; simpl.
  - (* checkout *)
    split_and!; try done. intros k Hk. rewrite lookup_insert_ne; [done|].
    intros ->. congruence.
  - (* return *)
    split_and!; try done. intros k Hk. rewrite lookup_insert_ne; [done|].
    intros <-. congruence.
  - (* update *)
    split_and!; try done.
    + intros k' Hk'. rewrite lookup_insert_ne; [done|]. intros ->.
      congruence.
    + intros uid' me' k' t' Hc Hk' Hother.
      rewrite lookup_insert_ne; [done|]. intros ->.
      assert (uid' = uid ∧ me' = me) as [-> ->] by (split; congruence).
      assert (t' = t) as -> by congruence.
      destruct H1 as [Hrole|Hmine]; [|done].
      destruct Hnot. by exists uid, me.
Qed.

(** X3.  Whatever the route, method and fields, a request whose caller
    is not a founder leaves the users, events, sessions, packages,
    athletes, athlete sessions and manpower allocations as they are,
    adds no card and no edit task, and leaves every edit task assigned
    to someone else untouched. *)
Theorem only_founders_write_admin_tables env url view req st :
  (url, view) ∈ routes env →
  ¬ founder req st →
  let st' := store (serve view req st) in
  founder_tables st' = founder_tables st
  ∧ (∀ k, sd_cards st !! k = None → sd_cards st' !! k = None)
  ∧ (∀ k, edit_tasks st !! k = None → edit_tasks st' !! k = None)
  ∧ (∀ uid me k t,
       caller req st = Some (uid, me) →
       edit_tasks st !! k = Some t →
       EditTask.assigned_to_user_id t ≠ uid →
       edit_tasks st' !! k = Some t).
Proof.
  intros Hin Hnot st'.
  apply (write_without_founder env req); [|done].
  by apply route_write with url.
Qed.

End founders.

(** ** What is never removed or rewritten *)

Section rows.
Context {A : Type} (R : A → A → Prop).
Implicit Types m : gmap Z A.

Lemma rows_kept_refl m : (∀ x, R x x) → rows_kept R m m.
Proof. intros Hrefl k x Hk. by exists x. Qed.

Lemma rows_kept_trans m1 m2 m3 :
  (∀ x y z, R x y → R y z → R x z) →
  rows_kept R m1 m2 → rows_kept R m2 m3 → rows_kept R m1 m3.
Proof.
  intros Htrans H12 H23 k x Hk.
  destruct (H12 k x Hk) as (y & Hy & Hxy).
  destruct (H23 k y Hy) as (z & Hz & Hyz). exists z. eauto.
Qed.

Lemma rows_kept_insert_fresh m x :
  (∀ x, R x x) → rows_kept R m (<[Query.next_id m := x]> m).
Proof.
  intros Hrefl k y Hk. exists y. split; [|done].
  rewrite lookup_insert_ne; [done|]. intros <-.
  by rewrite next_id_fresh in Hk.
Qed.

Lemma rows_kept_overwrite m k x x' :
  (∀ x, R x x) → m !! k = Some x → R x x' → rows_kept R m (<[k := x']> m).
Proof.
  intros Hrefl Hk Hxx' k' y Hk'. destruct (decide (k' = k)) as [->|Hne].
  - exists x'. rewrite lookup_insert_eq. split; [done|congruence].
  - exists y. by rewrite lookup_insert_ne.
Qed.

End rows.

Lemma same_account_refl u : same_account u u.
Proof. done. Qed.
Lemma same_card_refl c : same_card c c.
Proof. done. Qed.
Lemma same_log_refl l : same_log l l.
Proof. done. Qed.
Lemma same_assignment_refl t : same_assignment t t.
Proof. done. Qed.

Lemma same_log_trans l1 l2 l3 : same_log l1 l2 → same_log l2 l3 → same_log l1 l3.
Proof.
  intros [H12 Hc12] [H23 Hc23]. split; [congruence|].
  intros Hclosed. specialize (Hc12 Hclosed) as ->. by apply Hc23.
Qed.

#[local] Hint Resolve same_account_refl same_card_refl same_log_refl
  same_assignment_refl : core.

Lemma append_only_refl st : append_only st st.
Proof. by repeat split. Qed.

Lemma append_only_trans st1 st2 st3 :
  append_only st1 st2 → append_only st2 st3 → append_only st1 st3.
Proof.
  intros (?&?&?&?&?&?) (?&?&?&?&?&?).
  repeat split; by etrans.
Qed.

Lemma identities_kept_refl st : identities_kept st st.
Proof. repeat split; by apply rows_kept_refl. Qed.

Lemma identities_kept_trans st1 st2 st3 :
  identities_kept st1 st2 → identities_kept st2 st3 →
  identities_kept st1 st3.
Proof.
  intros (Hu & Hc & Hl & Ht) (Hu' & Hc' & Hl' & Ht').
  split_and!; (eapply rows_kept_trans; [|done|done]).
  - intros x y z (?&?&?) (?&?&?). repeat split; congruence.
  - intros x y z (?&?) (?&?). repeat split; congruence.
  - apply same_log_trans.
  - intros x y z (?&?&?) (?&?&?). repeat split; congruence.
Qed.

Lemma write_append_only env req st st' :
  write env req st st' → append_only st st'.
Proof.
  intros []; simpl; repeat split; simpl; try done;
    by apply insert_subseteq, next_id_fresh.
Qed.

Lemma write_identities_kept env req st st' :
  write env req st st' → identities_kept st st'.
Proof.
  intros []; repeat split; simpl;
    try (by apply rows_kept_refl);
    try (by apply rows_kept_insert_fresh);
    try (by eapply rows_kept_overwrite; [done|done|]).
Qed.

Section histories.
Context `{W : !Werkzeug} `{DB : !Sqlite}.

Lemma create_admin_change env email_line name_line password st :
  let st' :=
    (run_script (create_admin env email_line name_line password) st).1 in
  st' = st
  ∨ ¬ email_taken st (normalize email_line)
    ∧ st' = with_users
              (<[Query.next_id (users st) :=
                   User.mk (Py.strip name_line) (normalize email_line)
                     (generate_password_hash (salt env) password)
                     "founder" true]> (users st)) st.
Proof.
  unfold run_script, create_admin, insert_user. unfold_monad. simpl.
  fold (normalize email_line).
  destruct (Query.first _ (users st)) as [[k u]|] eqn:Hfirst; simpl;
    [by left|].
  rewrite Hfirst. simpl. right. split; [|done].
  intros (k & u & Hk & He). by destruct (first_None _ _ Hfirst k u Hk).
Qed.

Lemma app_step_kept st st' :
  app_step st st' → append_only st st' ∧ identities_kept st st'.
Proof.
  intros [env url view req Hin|env email_line name_line password].
  - pose proof (route_write env url view req st Hin) as Hwrite.
    eauto using write_append_only, write_identities_kept.
  - destruct (create_admin_change env email_line name_line password st)
      as [->|[_ ->]].
    + split; [apply append_only_refl|apply identities_kept_refl].
    + split; [by repeat split|].
      repeat split; simpl; try (by apply rows_kept_refl).
      by apply rows_kept_insert_fresh.
Qed.

(** X4.  Events, sessions, packages, athletes, athlete sessions and
    manpower allocations are append-only: whatever requests and
    bootstrap runs follow, every row of these tables stays as it was
    written. *)
Theorem history_append_only st st' :
  rtc app_step st st' → append_only st st'.
Proof.
  induction 1 as [st|st st1 st2 Hstep _ IH]; [apply append_only_refl|].
  apply (append_only_trans _ st1); [|done]. by apply app_step_kept.
Qed.

(** X5.  No user, card, log or edit task is ever deleted, and each
    keeps what identifies it: a user its name, email and password hash;
    a card its label and capacity; a log everything but [returned_at],
    and that too once it is set; an edit task its booking, assignee and
    type. *)
Theorem history_keeps_identities st st' :
  rtc app_step st st' → identities_kept st st'.
Proof.
  induction 1 as [st|st st1 st2 Hstep _ IH]; [apply identities_kept_refl|].
  apply (identities_kept_trans _ st1); [|done]. by apply app_step_kept.
Qed.

End histories.

(** ** Invariants of the users table *)

Section accounts.
Context `{W : !Werkzeug} `{DB : !Sqlite}.

Lemma unique_emails_insert_fresh st u :
  unique_emails st →
  ¬ email_taken st (User.email u) →
  unique_emails
    (with_users (<[Query.next_id (users st) := u]> (users st)) st).
Proof.
  intros Huniq Hfree k1 u1 Hk1 k2 u2 Hk2 He. simpl in *.
  rewrite lookup_insert in Hk1, Hk2.
  repeat case_decide; simplify_eq; try done;
    try (by apply (Huniq k1 u1 Hk1 k2 u2 Hk2));
    destruct Hfree; eexists _, _; (split; [eassumption|congruence]).
Qed.

Lemma unique_emails_overwrite st k u u' :
  unique_emails st →
  users st !! k = Some u →
  User.email u' = User.email u →
  unique_emails (with_users (<[k := u']> (users st)) st).
Proof.
  intros Huniq Hk Hsame k1 u1 Hk1 k2 u2 Hk2 He. simpl in *.
  rewrite lookup_insert in Hk1, Hk2.
  repeat case_decide; simplify_eq; try done;
    eapply Huniq; (try eassumption); congruence.
Qed.

Lemma write_unique_emails env req st st' :
  write env req st st' → unique_emails st → unique_emails st'.
Proof.
  intros [] Huniq; try done.
  - by apply unique_emails_insert_fresh.
  - by eapply unique_emails_overwrite.
  - by eapply unique_emails_overwrite.
Qed.

(** X6.  Emails stay unique: from a state in which no two users share
    an email, no sequence of requests and bootstrap runs reaches a
    state in which two do. *)
Theorem emails_stay_unique st st' :
  unique_emails st → rtc app_step st st' → unique_emails st'.
Proof.
  intros Huniq Hsteps. induction Hsteps as [st|st st1 st2 Hstep _ IH];
    [done|].
  apply IH. destruct Hstep as [env url view req Hin|env e n p].
  - apply (write_unique_emails env req st); [|done].
    by apply route_write with url.
  - destruct (create_admin_change env e n p st) as [->|[Hfree ->]];
      [done|by apply unique_emails_insert_fresh].
Qed.

Lemma write_roles_valid env req st st' :
  write env req st st' →
  valid_role (form_get_or req "role" "freelancer") →
  roles_valid st → roles_valid st'.
Proof.
  intros [] Hrole Hvalid; try done; simpl.
  - apply map_Forall_insert_2; [congruence|done].
  - apply map_Forall_insert_2; [|done]. by apply (Hvalid k u).
  - by apply map_Forall_insert_2.
Qed.

(** X7.  A request whose role field, read with the default
    ["freelancer"], is one of the two roles keeps every stored role
    one of the two, whatever the route and the action. *)
Theorem valid_role_field_keeps_roles env url view req st :
  (url, view) ∈ routes env →
  valid_role (form_get_or req "role" "freelancer") →
  roles_valid st →
  roles_valid (store (serve view req st)).
Proof.
  intros Hin Hrole Hvalid.
  apply (write_roles_valid env req st); [|done..].
  by apply route_write with url.
Qed.

Lemma no_founder_not_founder req st : no_founder st → ¬ founder req st.
Proof.
  intros Hnone (k & u & Hk & Hrole)%founder_has_role.
  by apply (Hnone k u Hk).
Qed.

(** X8.  Once no user has the founder role, requests alone never bring
    one back: whatever requests follow, the users, events, sessions,
    packages, athletes, athlete sessions and manpower allocations stay
    as they are, so still no user is a founder. *)
Theorem no_founder_is_final st st' :
  no_founder st →
  rtc request_step st st' →
  founder_tables st' = founder_tables st ∧ no_founder st'.
Proof.
  intros Hnone Hsteps.
  induction Hsteps as [st|st st1 st2 Hstep _ IH]; [done|].
  destruct Hstep as [env url view req Hin].
  pose proof (route_write env url view req st Hin) as Hwrite.
  destruct (write_without_founder env req st _ Hwrite) as [Htables _];
    [by apply no_founder_not_founder|].
  assert (no_founder (store (serve view req st))) as Hnone1.
  { unfold no_founder. unfold founder_tables in Htables.
    by injection Htables as -> _ _ _ _ _ _. }
  destruct (IH Hnone1) as [Htables2 Hnone2]. split; [congruence|done].
Qed.

End accounts.

(** ** The card shelf in every reachable state *)

Lemma card_ledger_same_tables st st' :
  custody_tables st' = custody_tables st → card_ledger st → card_ledger st'.
Proof.
  intros Hsame (Hsound & Hcycle & Hcount & Huniq & Hpresent).
  split; [by apply (custody_sound_same_tables st)|].
  unfold custody_tables in Hsame. injection Hsame as Hcards Hlogs.
  unfold statuses_in_cycle, sd_in_use, open_logs_listing, labels_unique,
    labels_present in *.
  by rewrite Hcards, Hlogs.
Qed.

Lemma labels_unique_overwrite st k c c' :
  labels_unique st →
  sd_cards st !! k = Some c →
  SdCard.label c' = SdCard.label c →
  map_Forall (λ k1 c1,
    map_Forall (λ k2 c2, SdCard.label c1 = SdCard.label c2 → k1 = k2)
      (<[k := c']> (sd_cards st)))
    (<[k := c']> (sd_cards st)).
Proof.
  intros Huniq Hk Hsame k1 c1 Hk1 k2 c2 Hk2 He.
  rewrite lookup_insert in Hk1, Hk2.
  repeat case_decide; simplify_eq; try done;
    eapply Huniq; (try eassumption); congruence.
Qed.

Lemma card_ledger_card_added st card :
  SdCard.status card = "available" →
  SdCard.label card ≠ "" →
  ¬ label_in_use st (SdCard.label card) →
  card_ledger st → card_ledger (card_added st card).
Proof.
  intros Hs Hlabel Hfree (Hsound & Hcycle & Hcount & Huniq & Hpresent).
  pose proof (next_id_fresh (sd_cards st)) as Hfresh.
  split_and!.
  - by apply custody_sound_card_added.
  - apply map_Forall_insert_2; [by left|done].
  - unfold sd_in_use, open_logs_listing, card_added in *. simpl.
    rewrite map_filter_insert_not'; [done|..].
    + simpl. by rewrite Hs.
    + intros y. by rewrite Hfresh.
  - intros k1 c1 Hk1 k2 c2 Hk2 He. unfold card_added in *. simpl in *.
    rewrite lookup_insert in Hk1, Hk2.
    repeat case_decide; simplify_eq; try done;
      try (by apply (Huniq k1 c1 Hk1 k2 c2 Hk2));
      destruct Hfree; eexists _, _; (split; [eassumption|congruence]).
  - by apply map_Forall_insert_2.
Qed.

Lemma card_ledger_checked_out st card_id card log :
  sd_cards st !! card_id = Some card →
  SdCard.status card = "available" →
  SdCardLog.sd_card_id log = card_id →
  SdCardLog.returned_at log = None →
  card_ledger st → card_ledger (checked_out st card_id card log).
Proof.
  intros Hc Hs Hid Hopen ((Hinv & Hone & Hfk) & Hcycle & Hcount & Huniq
                          & Hpresent).
  destruct (custody_checked_out st card_id card log) as [??]; try done.
  unfold card_ledger, custody_sound. split_and!; try done.
  - by apply refer_checked_out.
  - apply map_Forall_insert_2; [by right|done].
  - unfold sd_in_use, open_logs_listing, checked_out in *. simpl.
    rewrite map_filter_insert_True by done.
    rewrite map_size_insert_None.
    2: { apply map_lookup_filter_None. right. intros c Hc' Hout.
         simpl in *. congruence. }
    rewrite map_filter_insert_True by done.
    rewrite map_size_insert_None; [by rewrite Hcount|].
    apply map_lookup_filter_None. left. apply next_id_fresh.
  - by apply (labels_unique_overwrite st card_id card).
  - apply map_Forall_insert_2; [|done]. by apply (Hpresent card_id card).
Qed.

Lemma card_ledger_returned st log_id log card now :
  sd_card_logs st !! log_id = Some log →
  SdCardLog.returned_at log = None →
  sd_cards st !! SdCardLog.sd_card_id log = Some card →
  card_ledger st → card_ledger (returned st log_id log card now).
Proof.
  intros Hl Hopen Hc ((Hinv & Hone & Hfk) & Hcycle & Hcount & Huniq
                      & Hpresent).
  destruct (custody_returned st log_id log card now) as [??]; try done.
  assert (SdCard.status card = "checked_out") as Hout.
  { apply (Hinv _ _ Hc). pose proof (open_logs_pos _ _ _ Hl Hopen).
    pose proof (Hone _ _ Hc). simpl in *. lia. }
  unfold card_ledger, custody_sound. split_and!; try done.
  - by apply refer_returned.
  - apply map_Forall_insert_2; [by left|done].
  - unfold sd_in_use, open_logs_listing, returned in *. simpl.
    rewrite map_filter_insert_False by done.
    rewrite map_filter_delete, map_size_delete_Some.
    2: { exists card. by apply map_lookup_filter_Some. }
    rewrite map_filter_insert_False by done.
    rewrite map_filter_delete, map_size_delete_Some; [by rewrite Hcount|].
    exists log. by apply map_lookup_filter_Some.
  - by apply (labels_unique_overwrite st (SdCardLog.sd_card_id log) card).
  - apply map_Forall_insert_2; [|done].
    by apply (Hpresent (SdCardLog.sd_card_id log) card).
Qed.

Section shelf.
Context `{W : !Werkzeug} `{DB : !Sqlite}.

Lemma write_card_ledger env req st st' :
  write env req st st' → card_ledger st → card_ledger st'.
Proof.
  intros [] Hledger; try done;
    try (by apply (card_ledger_same_tables st)).
  - by apply card_ledger_card_added.
  - by apply card_ledger_checked_out.
  - by apply card_ledger_returned.
Qed.

Lemma reachable_card_ledger st :
  rtc app_step empty_store st → card_ledger st.
Proof.
  revert st. apply (rtc_ind_r card_ledger empty_store).
  - unfold card_ledger, custody_sound.
    split_and!; first [reflexivity | apply map_Forall_empty].
  - intros st st' _ Hstep Hledger.
    destruct Hstep as [env url view req Hin|env e n p].
    + apply (write_card_ledger env req st); [|done].
      by apply route_write with url.
    + apply (card_ledger_same_tables st); [|done].
      apply create_admin_custody_tables.
Qed.

(** X9.  In every state reached from the empty store, the number of
    cards the dashboard counts as in use equals the number of open logs
    the SD card page lists. *)
Theorem cards_in_use_match_open_logs st :
  rtc app_step empty_store st →
  sd_in_use st = size (open_logs_listing st).
Proof. by intros (_ & _ & ? & _)%reachable_card_ledger. Qed.

(** X10.  No request marks a card lost: in every state reached from the
    empty store each card is ["available"] or ["checked_out"]. *)
Theorem card_status_stays_in_cycle st :
  rtc app_step empty_store st → statuses_in_cycle st.
Proof. by intros (_ & ? & _)%reachable_card_ledger. Qed.

(** X11.  In every state reached from the empty store the card labels
    are non-empty and no two cards share one. *)
Theorem card_labels_unique_and_present st :
  rtc app_step empty_store st → labels_unique st ∧ labels_present st.
Proof. by intros (_ & _ & _ & ? & ?)%reachable_card_ledger. Qed.

End shelf.

(** ** Checking a card out and back in *)

Section custody_round_trip.
Context `{DB : !Sqlite}.

Lemma or_None_truthy o s : Py.or_None o = Some s → Py.truthy s = true.
Proof.
  unfold Py.or_None. destruct (Py.truthy_opt o) eqn:Ho; [|done].
  by intros ->.
Qed.

Lemma checkout_outcome env req st uid me card_id card event_id session_id :
  method req = POST →
  caller req st = Some (uid, me) →
  form_get req "action" = Some "checkout" →
  Query.get_text (form_get req "sd_card_id") (sd_cards st)
    = Some (card_id, card) →
  SdCard.status card = "available" →
  optional_int (form_get req "event_id") = Some event_id →
  optional_int (form_get req "session_id") = Some session_id →
  fits_int64 card_id = true →
  fits_opt event_id = true →
  fits_opt session_id = true →
  serve (sd_cards_view env) req st
  = mkOutcome
      (checked_out st card_id card
         (checkout_log env req card_id uid event_id session_id))
      [("SD card checked out", "success")] (cookie req)
      (Redirect "sd_cards_view").
Proof.
  intros Hm Hme Ha Hc Hs He Hse Hcfits Hefits Hsfits.
  pose proof (caller_lookup _ _ _ _ Hme) as (_ & Hufits & _).
  apply caller_Some in Hme.
  unfold serve, sd_cards_view, login_required, is_post.
  rewrite Hm, Ha. unfold_monad. simpl. rewrite Hme. simpl.
  unfold checkout. unfold_monad. simpl. rewrite Hc.
  rewrite bool_decide_eq_true_2 by done. simpl. rewrite Hme. simpl.
  unfold optional_int in He, Hse.
  destruct (Py.or_None (form_get req "event_id")) as [e|] eqn:Hev;
    destruct (Py.or_None (form_get req "session_id")) as [s|] eqn:Hsv;
    simpl in *;
    rewrite ?(or_None_truthy _ _ Hev), ?(or_None_truthy _ _ Hsv); simpl;
    repeat match goal with
    | Hint : Some <$> Py.int ?x = Some _ |- _ =>
        destruct (Py.int x) eqn:?; simplify_eq/=
    end; simplify_eq;
    rewrite ?(or_None_truthy _ _ Hev), ?(or_None_truthy _ _ Hsv); simpl;
    rewrite Hcfits, Hufits, ?Hefits, ?Hsfits; done.
Qed.

(** X12.  A checkout of an available card whose event or session field
    is non-empty and not a number ends in an uncaught [ValueError]:
    nothing is written and no message is queued. *)
Theorem checkout_non_numeric_context env req st uid me card_id card :
  method req = POST →
  caller req st = Some (uid, me) →
  form_get req "action" = Some "checkout" →
  Query.get_text (form_get req "sd_card_id") (sd_cards st)
    = Some (card_id, card) →
  SdCard.status card = "available" →
  optional_int (form_get req "event_id") = None
  ∨ optional_int (form_get req "session_id") = None →
  serve (sd_cards_view env) req st
  = unchanged req st (ServerError ValueError).
Proof.
  intros Hm Hme%caller_Some Ha Hc Hs Hbad.
  unfold serve, sd_cards_view, login_required, is_post.
  rewrite Hm, Ha. unfold_monad. simpl. rewrite Hme. simpl.
  unfold checkout. unfold_monad. simpl. rewrite Hc.
  rewrite bool_decide_eq_true_2 by done. simpl. rewrite Hme. simpl.
  unfold optional_int in Hbad.
  destruct (Py.or_None (form_get req "event_id")) as [e|] eqn:Hev;
    destruct (Py.or_None (form_get req "session_id")) as [s|] eqn:Hsv;
    simpl in *;
    rewrite ?(or_None_truthy _ _ Hev), ?(or_None_truthy _ _ Hsv); simpl;
    try (destruct (Py.int e) eqn:?; simpl in * );
    try (destruct (Py.int s) eqn:?; simpl in * );
    rewrite ?(or_None_truthy _ _ Hev), ?(or_None_truthy _ _ Hsv); simpl;
    by destruct Hbad.
Qed.

Lemma return_outcome env req st log_id log card :
  method req = POST →
  authenticated req st →
  form_get req "action" = Some "return" →
  Query.get_text (form_get req "log_id") (sd_card_logs st)
    = Some (log_id, log) →
  SdCardLog.returned_at log = None →
  fits_int64 (SdCardLog.sd_card_id log) = true →
  sd_cards st !! SdCardLog.sd_card_id log = Some card →
  serve (sd_cards_view env) req st
  = mkOutcome (returned st log_id log card (utcnow env))
      [("SD card returned", "success")] (cookie req)
      (Redirect "sd_cards_view").
Proof.
  intros Hm [[uid me] Hme%caller_Some] Ha Hl Hopen Hfits Hc.
  unfold serve, sd_cards_view, login_required, is_post.
  rewrite Hm, Ha. unfold_monad. simpl. rewrite Hme. simpl.
  unfold return_card. unfold_monad. simpl. rewrite Hl.
  rewrite bool_decide_eq_true_2 by done. simpl.
  unfold Query.row. by rewrite Hfits, Hc.
Qed.

Lemma status_round_trip card :
  SdCard.status card = "available" →
  SdCard.with_status "available" (SdCard.with_status "checked_out" card)
  = card.
Proof. destruct card. simpl. by intros ->. Qed.

(** X13.  Checking an available card out and then returning the log
    that the checkout opened puts the card table back as it was; the
    log table has gained exactly that log, closed, with the borrower,
    the checkout time and the return time.  The card key and the
    optional event and session ids fit 64 bits, and the return names
    the new log by a text the engine reads as its key. *)
Theorem checkout_then_return env1 env2 out back st uid me card_id card
    event_id session_id :
  method out = POST →
  caller out st = Some (uid, me) →
  form_get out "action" = Some "checkout" →
  Query.get_text (form_get out "sd_card_id") (sd_cards st)
    = Some (card_id, card) →
  SdCard.status card = "available" →
  optional_int (form_get out "event_id") = Some event_id →
  optional_int (form_get out "session_id") = Some session_id →
  fits_int64 card_id = true →
  fits_opt event_id = true →
  fits_opt session_id = true →
  method back = POST →
  authenticated back st →
  form_get back "action" = Some "return" →
  form_get back "log_id" ≫= text_key
  = Some (Query.next_id (sd_card_logs st)) →
  let st1 := store (serve (sd_cards_view env1) out st) in
  let o2 := serve (sd_cards_view env2) back st1 in
  flashes o2 = [("SD card returned", "success")]
  ∧ sd_cards (store o2) = sd_cards st
  ∧ sd_card_logs (store o2)
    = <[Query.next_id (sd_card_logs st) :=
          SdCardLog.with_returned_at (Some (utcnow env2))
            (checkout_log env1 out card_id uid event_id session_id)]>
        (sd_card_logs st).
Proof.
  intros Hm Hme Ha Hc Hs He Hse Hcfits Hefits Hsfits Hm2 Hauth Ha2 Hid st1
    o2.
  apply get_text_Some in Hc as Hcard. destruct Hcard as [_ Hcard].
  assert (st1 = checked_out st card_id card
                  (checkout_log env1 out card_id uid event_id session_id))
    as Hst1.
  { unfold st1. by rewrite (checkout_outcome env1 out st uid me card_id card
                              event_id session_id). }
  assert (o2 = mkOutcome
                 (returned st1 (Query.next_id (sd_card_logs st))
                    (checkout_log env1 out card_id uid event_id session_id)
                    (SdCard.with_status "checked_out" card) (utcnow env2))
                 [("SD card returned", "success")] (cookie back)
                 (Redirect "sd_cards_view")) as ->.
  { unfold o2. apply return_outcome; try done.
    - by rewrite Hst1.
    - unfold Query.get_text, Query.row. rewrite Hid, Hst1. simpl.
      by rewrite lookup_insert_eq.
    - rewrite Hst1. simpl. by rewrite lookup_insert_eq. }
  rewrite Hst1. simpl. split; [done|]. split.
  - rewrite insert_insert_eq, status_round_trip by done.
    by apply insert_id.
  - by rewrite insert_insert_eq.
Qed.

End custody_round_trip.

(** ** Accounts: creation, login, deactivation *)

Section accounts_flow.
Context `{W : !Werkzeug} `{DB : !Sqlite}.

Lemma add_user_outcome env req st :
  founder req st →
  account_form req →
  ¬ email_taken st (normalize (form_get_or req "email" "")) →
  serve (manage_users env) req st
  = mkOutcome
      (with_users (<[Query.next_id (users st) := new_user env req]>
                     (users st)) st)
      [("User created", "success")] (cookie req) (Redirect "manage_users").
Proof.
  intros (uid & me & Hme & Hrole) [Hm Ha Hname Hemail Hpw] Hfree.
  apply caller_Some in Hme.
  pose proof (first_email_free _ _ Hfree) as Hfirst.
  unfold serve, manage_users, login_required, founder_required, is_post.
  rewrite Hm, Ha. unfold_monad. simpl. rewrite Hme. simpl.
  rewrite Hme. simpl. rewrite bool_decide_eq_false_2 by (by intros []).
  unfold add_user, insert_user. unfold_monad. simpl.
  fold (normalize (form_get_or req "email" "")).
  destruct (Py.strip (form_get_or req "name" "")) eqn:En; [done|].
  destruct (normalize (form_get_or req "email" "")) eqn:Ee; [done|].
  destruct (form_get_or req "password" "") eqn:Ep; [done|]. simpl.
  rewrite Hfirst. simpl. rewrite Hfirst. simpl.
  unfold new_user. by rewrite En, Ee, Ep.
Qed.

Lemma first_sole_match {A} (P : Z * A → Prop) `{!∀ x, Decision (P x)}
    (m : gmap Z A) k x :
  m !! k = Some x → P (k, x) →
  (∀ k' x', m !! k' = Some x' → P (k', x') → k' = k) →
  Query.first P m = Some (k, x).
Proof.
  intros Hk HP Hsole.
  destruct (first_is_Some P m k x Hk HP) as [[k' x'] Hfirst].
  rewrite Hfirst. apply first_Some in Hfirst as [Hk' HP'].
  assert (k' = k) as -> by by apply (Hsole k' x'). congruence.
Qed.

(** X14.  A user the founder has just added can log in with the email
    and password of the form, in any spelling of the email that trims
    and lower-cases to the same text, exactly when the form's active
    box was ticked; the login session then holds the new user's id.
    The hash made of the password is assumed to verify it. *)
Theorem add_user_then_login env req st email' :
  check_password_hash
    (generate_password_hash (salt env) (form_get_or req "password" ""))
    (form_get_or req "password" "") = true →
  founder req st →
  account_form req →
  ¬ email_taken st (normalize (form_get_or req "email" "")) →
  normalize email' = normalize (form_get_or req "email" "") →
  let st1 := store (serve (manage_users env) req st) in
  let attempt := login_form email' (form_get_or req "password" "") in
  serve login attempt st1
  = if Py.truthy_opt (form_get req "active")
    then mkOutcome st1 [] (Some (Query.next_id (users st)))
           (Redirect "dashboard")
    else login_failed attempt st1.
Proof.
  intros Hhash Hfounder Hform Hfree Hsame st1 attempt.
  assert (st1 = with_users (<[Query.next_id (users st) := new_user env req]>
                              (users st)) st) as Hst1.
  { unfold st1. by rewrite add_user_outcome. }
  pose proof (next_id_fresh (users st)) as Hfresh.
  pose proof (login_outcome attempt st1 eq_refl eq_refl) as Hlogin.
  change (form_get_or attempt "email" "") with email' in Hlogin.
  change (form_get_or attempt "password" "")
    with (form_get_or req "password" "") in Hlogin.
  cbv zeta in Hlogin. rewrite Hsame in Hlogin. rewrite Hlogin, Hst1.
  simpl users.
  destruct (Py.truthy_opt (form_get req "active")) eqn:Hactive.
  - rewrite (first_sole_match _ _ (Query.next_id (users st))
               (new_user env req)).
    + simpl. by rewrite Hhash.
    + apply lookup_insert_eq.
    + simpl. by rewrite Hactive.
    + intros k' u' Hk' [He _]. rewrite lookup_insert in Hk'.
      case_decide; [congruence|]. destruct Hfree. by exists k', u'.
  - destruct (Query.first _ (<[_ := _]> _)) as [[k u]|] eqn:Hfirst;
      [|done].
    apply first_Some in Hfirst as [Hk [He Hact]]. simpl in *.
    rewrite lookup_insert in Hk. case_decide; simplify_eq.
    + simpl in Hact. congruence.
    + destruct Hfree. by exists k, u.
Qed.

Lemma toggle_active_outcome env req st k u :
  founder req st →
  method req = POST →
  form_get req "action" = Some "toggle_active" →
  Query.get (form_get_int req "user_id") (users st) = inr (Some (k, u)) →
  serve (manage_users env) req st
  = mkOutcome
      (with_users (<[k := User.with_active (negb (User.active u)) u]>
                     (users st)) st)
      [("User status updated", "success")] (cookie req)
      (Redirect "manage_users").
Proof.
  intros (uid & me & Hme & Hrole) Hm Ha Hk. apply caller_Some in Hme.
  unfold serve, manage_users, login_required, founder_required, is_post.
  rewrite Hm, Ha. unfold_monad. simpl. rewrite Hme. simpl.
  rewrite Hme. simpl. rewrite bool_decide_eq_false_2 by (by intros []).
  unfold toggle_active. unfold_monad. simpl. by rewrite Hk.
Qed.

Lemma caller_overwrite req st uid me k u u' :
  caller req st = Some (uid, me) →
  users st !! k = Some u →
  caller req (with_users (<[k := u']> (users st)) st)
  = Some (uid, if decide (k = uid) then u' else me).
Proof.
  intros (Hc & Hfits & Hu)%caller_lookup Hk. apply caller_Some.
  unfold session_user_of, load_user. rewrite Hc. simpl. rewrite Hfits.
  unfold Query.row. rewrite lookup_insert.
  destruct (decide (k = uid)); [done|]. by rewrite Hu.
Qed.

(** X15.  Toggling a user's active flag twice leaves the store exactly
    as it was, also when the founder toggles their own account: the
    deactivated founder's session still passes the role check. *)
Theorem toggle_active_twice env1 env2 req st k u :
  founder req st →
  method req = POST →
  form_get req "action" = Some "toggle_active" →
  Query.get (form_get_int req "user_id") (users st) = inr (Some (k, u)) →
  store (serve (manage_users env2) req
           (store (serve (manage_users env1) req st)))
  = st.
Proof.
  intros Hfounder Hm Ha Hk.
  pose proof (get_fits _ _ _ _ Hk) as Hfits.
  apply get_Some in Hk as Hlook. destruct Hlook as [Hid Hlook].
  rewrite (toggle_active_outcome env1 req st k u) by done. simpl.
  set (u1 := User.with_active (negb (User.active u)) u).
  set (st1 := with_users (<[k := u1]> (users st)) st).
  rewrite (toggle_active_outcome env2 req st1 k u1); try done.
  - simpl. rewrite insert_insert_eq.
    match goal with
    | |- context [<[k := ?x]> (users st)] =>
        replace x with u by (by destruct u as [? ? ? ? []])
    end.
    rewrite insert_id by done. by destruct st.
  - destruct Hfounder as (uid & me & Hme & Hrole).
    exists uid, (if decide (k = uid) then u1 else me).
    split; [by apply (caller_overwrite req st uid me k u)|].
    case_decide; [|done]. subst k.
    assert (me = u) as ->; [|done].
    apply caller_lookup in Hme as (_ & _ & Hx). congruence.
  - rewrite Hid. apply get_lookup; [done|]. apply lookup_insert_eq.
Qed.

(** X16.  Deactivating a user closes the login form to them but not
    the session they already have: with unique emails, a login with
    any spelling of their email fails whatever the password, while a
    request carrying their session is still served. *)
Theorem deactivated_user_keeps_session env req st k u email' password :
  founder req st →
  method req = POST →
  form_get req "action" = Some "toggle_active" →
  Query.get (form_get_int req "user_id") (users st) = inr (Some (k, u)) →
  User.active u = true →
  unique_emails st →
  normalize email' = User.email u →
  let st1 := store (serve (manage_users env) req st) in
  let attempt := login_form email' password in
  let visit := mkRequest GET (Some k) [] [] in
  serve login attempt st1 = login_failed attempt st1
  ∧ serve (get_only dashboard) visit st1
    = unchanged visit st1 (Render "dashboard.html").
Proof.
  intros Hfounder Hm Ha Hk Hactive Huniq Hnorm st1 attempt visit.
  pose proof (get_fits _ _ _ _ Hk) as Hfits.
  apply get_Some in Hk as Hlook. destruct Hlook as [_ Hlook].
  assert (st1 = with_users
                  (<[k := User.with_active (negb (User.active u)) u]>
                     (users st)) st) as Hst1.
  { unfold st1. by rewrite (toggle_active_outcome env req st k u). }
  split.
  - pose proof (login_outcome attempt st1 eq_refl eq_refl) as Hlogin.
    change (form_get_or attempt "email" "") with email' in Hlogin.
    cbv zeta in Hlogin. rewrite Hnorm in Hlogin. rewrite Hlogin, Hst1.
    simpl users.
    destruct (Query.first _ (<[_ := _]> _)) as [[k' u']|] eqn:Hfirst;
      [|done].
    apply first_Some in Hfirst as [Hk' [He Hact]]. simpl in *.
    rewrite lookup_insert in Hk'. case_decide; simplify_eq.
    + simpl in Hact. rewrite Hactive in Hact. done.
    + by destruct (Huniq k' u' Hk' k u Hlook).
  - rewrite Hst1.
    unfold serve, get_only, dashboard, login_required, unchanged.
    unfold_monad. simpl. unfold session_user_of, load_user. simpl.
    rewrite Hfits. unfold Query.row. simpl. by rewrite lookup_insert_eq.
Qed.

Lemma change_role_outcome env req st k u :
  founder req st →
  method req = POST →
  form_get req "action" = Some "change_role" →
  Query.get (form_get_int req "user_id") (users st) = inr (Some (k, u)) →
  valid_role (Py.strip (form_get_or req "role" "")) →
  serve (manage_users env) req st
  = mkOutcome
      (with_users
         (<[k := User.with_role (Py.strip (form_get_or req "role" "")) u]>
            (users st)) st)
      [("User role updated", "success")] (cookie req)
      (Redirect "manage_users").
Proof.
  intros (uid & me & Hme & Hrole) Hm Ha Hk Hvalid. apply caller_Some in Hme.
  unfold serve, manage_users, login_required, founder_required, is_post.
  rewrite Hm, Ha. unfold_monad. simpl. rewrite Hme. simpl.
  rewrite Hme. simpl. rewrite bool_decide_eq_false_2 by (by intros []).
  unfold change_role. unfold_monad. simpl. rewrite Hk.
  rewrite bool_decide_eq_true_2; [done|].
  apply list_elem_of_In. destruct Hvalid as [->| ->]; simpl; auto.
Qed.

(** X17.  Nothing keeps the last founder from demoting themselves: when
    the only user with the founder role sets their own role to
    ["freelancer"], no founder is left, and from then on no request to
    any route changes the users or any other table that founders
    manage. *)
Theorem last_founder_can_demote_self env req st uid me :
  caller req st = Some (uid, me) →
  User.role me = "founder" →
  method req = POST →
  form_get req "action" = Some "change_role" →
  form_get_int req "user_id" = Some uid →
  Py.strip (form_get_or req "role" "") = "freelancer" →
  (∀ k u, users st !! k = Some u → k ≠ uid → User.role u ≠ "founder") →
  let o := serve (manage_users env) req st in
  flashes o = [("User role updated", "success")]
  ∧ no_founder (store o)
  ∧ ∀ env' url view req',
      (url, view) ∈ routes env' →
      founder_tables (store (serve view req' (store o)))
      = founder_tables (store o).
Proof.
  intros Hme Hrole Hm Ha Hid Hnew Hothers o.
  pose proof (caller_lookup _ _ _ _ Hme) as (_ & Hfits & Hlook).
  assert (o = mkOutcome
                (with_users (<[uid := User.with_role "freelancer" me]>
                               (users st)) st)
                [("User role updated", "success")] (cookie req)
                (Redirect "manage_users")) as ->.
  { unfold o. rewrite (change_role_outcome env req st uid me).
    - by rewrite Hnew.
    - by exists uid, me.
    - done.
    - done.
    - rewrite Hid. by apply get_lookup.
    - rewrite Hnew. by right. }
  simpl. split; [done|].
  assert (no_founder
            (with_users (<[uid := User.with_role "freelancer" me]>
                           (users st)) st)) as Hnone.
  { intros k u. simpl. rewrite lookup_insert.
    case_decide; intros Hk; simplify_eq; [done|]. by apply (Hothers k u). }
  split; [done|]. intros env' url view req' Hin.
  set (st1 := with_users _ st) in *.
  pose proof (route_write env' url view req' st1 Hin) as Hwrite.
  destruct (write_without_founder env' req' _ _ Hwrite) as [Htables _];
    [by apply no_founder_not_founder|done].
Qed.

(** X18.  The bootstrap script run a second time with the same email
    line reports the conflict and writes nothing, whatever the first
    run did and whatever name and password the second is given. *)
Theorem create_admin_twice env1 env2 email_line name1 password1 name2
    password2 st :
  let st1 :=
    (run_script (create_admin env1 email_line name1 password1) st).1 in
  run_script (create_admin env2 email_line name2 password2) st1
  = (st1, inr "User with that email already exists.").
Proof.
  intros st1.
  assert (email_taken st1 (normalize email_line)) as Htaken.
  { unfold st1, run_script, create_admin, insert_user. unfold_monad. simpl.
    fold (normalize email_line).
    destruct (Query.first _ (users st)) as [[k u]|] eqn:Hfirst; simpl.
    - apply first_Some in Hfirst as [Hk He]. by exists k, u.
    - rewrite Hfirst. simpl. eexists _, _.
      split; [apply lookup_insert_eq|done]. }
  destruct (first_email_taken _ _ Htaken) as [[k u] Hfirst].
  unfold run_script, create_admin. unfold_monad. simpl.
  fold (normalize email_line). by rewrite Hfirst.
Qed.

End accounts_flow.

(** ** References between tables *)

Lemma lower_char_idem c : Py.lower_char (Py.lower_char c) = Py.lower_char c.
Proof. by destruct c as [[] [] [] [] [] [] [] []]. Qed.

Lemma isspace_lower_char c : Py.isspace (Py.lower_char c) = Py.isspace c.
Proof. by destruct c as [[] [] [] [] [] [] [] []]. Qed.

Lemma lower_idem s : Py.lower (Py.lower s) = Py.lower s.
Proof.
  induction s as [|c s IH]; simpl; [done|]. by rewrite lower_char_idem, IH.
Qed.

Lemma lstrip_lower s : Py.lstrip (Py.lower s) = Py.lower (Py.lstrip s).
Proof.
  induction s as [|c s IH]; simpl; [done|]. rewrite isspace_lower_char.
  by destruct (Py.isspace c).
Qed.

Lemma rstrip_lower s : Py.rstrip (Py.lower s) = Py.lower (Py.rstrip s).
Proof.
  induction s as [|c s IH]; simpl; [done|]. rewrite IH, isspace_lower_char.
  destruct (Py.rstrip s); simpl; [|done]. by destruct (Py.isspace c).
Qed.

Lemma rstrip_idem s : Py.rstrip (Py.rstrip s) = Py.rstrip s.
Proof.
  induction s as [|c s IH]; simpl; [done|].
  destruct (Py.rstrip s) as [|c' r] eqn:Hr.
  - destruct (Py.isspace c) eqn:Hc; simpl; [done|]. by rewrite Hc.
  - change (Py.rstrip (String c (String c' r))) with
      (match Py.rstrip (String c' r) with
       | EmptyString =>
           if Py.isspace c then EmptyString else String c EmptyString
       | r' => String c r'
       end).
    by rewrite IH.
Qed.

Lemma lstrip_rstrip_lstrip s :
  Py.lstrip (Py.rstrip (Py.lstrip s)) = Py.rstrip (Py.lstrip s).
Proof.
  induction s as [|c s IH]; simpl; [done|].
  destruct (Py.isspace c) eqn:Hc; [done|]. simpl.
  destruct (Py.rstrip s); rewrite ?Hc; simpl; by rewrite ?Hc.
Qed.

Lemma strip_idem s : Py.strip (Py.strip s) = Py.strip s.
Proof. unfold Py.strip. by rewrite lstrip_rstrip_lstrip, rstrip_idem. Qed.

Lemma normalize_idem s : normalize (normalize s) = normalize s.
Proof.
  unfold normalize, Py.strip.
  by rewrite lstrip_lower, rstrip_lower, lower_idem, lstrip_rstrip_lstrip,
    rstrip_idem.
Qed.

Lemma references_grow st st' :
  users st ⊆ users st' →
  athletes st = athletes st' →
  athlete_sessions st = athlete_sessions st' →
  sd_card_logs st = sd_card_logs st' →
  emails_normal st' →
  references st → references st'.
Proof.
  intros Hu Ha Hb Hl Hnormal (Hbook & Hborrow & Hdistinct & _).
  unfold references, bookings_refer_to_athletes, borrowers_are_users,
    athletes_distinct.
  rewrite <- Ha, <- Hb, <- Hl. split_and!; try done.
  intros k log Hk. destruct (Hborrow k log Hk) as [u Hlook].
  exists u. by apply (lookup_weaken (users st)).
Qed.

Lemma references_overwrite st k u u' :
  users st !! k = Some u →
  User.email u' = User.email u →
  references st →
  references (with_users (<[k := u']> (users st)) st).
Proof.
  intros Hk He (Hbook & Hborrow & Hdistinct & Hnormal).
  split_and!; try done.
  - intros j log Hj. simpl. apply lookup_insert_is_Some'. right.
    by apply (Hborrow j log).
  - apply map_Forall_insert_2; [|done]. rewrite He. by apply (Hnormal k).
Qed.

Section references_kept.
Context `{W : !Werkzeug} `{DB : !Sqlite}.

Lemma write_references env req st st' :
  write env req st st' → references st → references st'.
Proof.
  intros [] Href; try done.
  - apply (references_grow st); try done; simpl.
    + apply insert_subseteq, next_id_fresh.
    + destruct Href as (_ & _ & _ & Hnormal).
      apply map_Forall_insert_2; [|done].
      match goal with He : User.email _ = normalize _ |- _ => rewrite He end.
      apply normalize_idem.
  - by eapply references_overwrite.
  - by eapply references_overwrite.
  - destruct Href as (Hbook & Hrest). split; [|done].
    apply map_Forall_insert_2; [|done]. simpl.
    match goal with Hid : AthleteSession.athlete_id _ = _ |- _ =>
      rewrite Hid end.
    done.
  - destruct Href as (Hbook & Hborrow & Hdistinct & Hnormal).
    pose proof (next_id_fresh (athletes st)) as Hfresh.
    split_and!; try done.
    + apply map_Forall_insert_2; simpl.
      * match goal with Hid : AthleteSession.athlete_id _ = _ |- _ =>
          rewrite Hid end.
        by rewrite lookup_insert_eq.
      * intros j row' Hj. apply lookup_insert_is_Some'. right.
        by apply (Hbook j row').
    + match goal with
      | H : ∃ team, _ |- _ => destruct H as (team & Hteam & Hnew)
      end.
      intros k1 a1 k2 a2. simpl. rewrite !lookup_insert.
      repeat case_decide; intros; simplify_eq; try done.
      * destruct Hnew. exists k2, a2. split; [done|]. split; simpl; congruence.
      * destruct Hnew. exists k1, a1. split; [done|]. split; simpl; congruence.
      * by apply (Hdistinct k1 a1 k2 a2).
  - destruct Href as (Hbook & Hborrow & Hdistinct & Hnormal).
    split_and!; try done.
    apply map_Forall_insert_2; [|done]. simpl.
    match goal with
    | Hme : caller _ _ = Some _, Hid : SdCardLog.user_id _ = _ |- _ =>
        rewrite Hid; apply caller_lookup in Hme as (_ & _ & Hx)
    end.
    by rewrite Hx.
  - destruct Href as (Hbook & Hborrow & Hdistinct & Hnormal).
    split_and!; try done.
    apply map_Forall_insert_2; [|done]. simpl.
    by apply (Hborrow log_id log).
Qed.

Lemma reachable_references st : rtc app_step empty_store st → references st.
Proof.
  revert st. apply (rtc_ind_r references empty_store).
  - split_and!; try apply map_Forall_empty. by intros k1 a1 k2 a2 ?.
  - intros st st' _ Hstep Href.
    destruct Hstep as [env url view req Hin|env e n p].
    + apply (write_references env req st); [|done].
      by apply route_write with url.
    + destruct (create_admin_change env e n p st) as [->|[_ ->]]; [done|].
      apply (references_grow st); try done; simpl.
      * apply insert_subseteq, next_id_fresh.
      * destruct Href as (_ & _ & _ & Hnormal).
        apply map_Forall_insert_2; [|done]. apply normalize_idem.
Qed.

(** X19.  The booking form never leaves a booking without its athlete:
    in every state reached from the empty store each booking's
    [athlete_id] is the key of an athlete row, though no foreign key is
    checked. *)
Theorem bookings_always_name_an_athlete st k row :
  rtc app_step empty_store st →
  athlete_sessions st !! k = Some row →
  is_Some (athletes st !! AthleteSession.athlete_id row).
Proof. intros (Hbook & _)%reachable_references Hk. by apply (Hbook k). Qed.

(** X20.  In every state reached from the empty store the borrower of
    each custody log is a user row. *)
Theorem borrowers_always_users st k log :
  rtc app_step empty_store st →
  sd_card_logs st !! k = Some log →
  is_Some (users st !! SdCardLog.user_id log).
Proof.
  intros (_ & Hborrow & _)%reachable_references Hk. by apply (Hborrow k).
Qed.

(** X21.  In every state reached from the empty store no two athlete
    rows share both name and team: the lookup before each insert keeps
    the pair a key of the table. *)
Theorem athletes_never_duplicated st :
  rtc app_step empty_store st → athletes_distinct st.
Proof. by intros (_ & _ & ? & _)%reachable_references. Qed.

(** X22.  In every state reached from the empty store each stored email
    is its own normal form (trimmed, lower case), so the login form
    finds a user by the email as stored. *)
Theorem stored_emails_normal st k u :
  rtc app_step empty_store st →
  users st !! k = Some u →
  normalize (User.email u) = User.email u.
Proof.
  intros (_ & _ & _ & Hnormal)%reachable_references Hk.
  by apply (Hnormal k).
Qed.

End references_kept.

(** ** Keys and counts *)

Lemma next_id_insert {A} (m : gmap Z A) x :
  Query.next_id (<[Query.next_id m := x]> m) = Query.next_id m + 1.
Proof.
  pose proof (next_id_fresh m) as Hfresh. unfold Query.next_id in *.
  rewrite map_fold_insert_L; [lia| |done].
  intros; lia.
Qed.

Section counts.
Context {A : Type} (P : Z * A → Prop) `{!∀ x, Decision (P x)}.

Lemma size_filter_insert_fresh (m : gmap Z A) k x :
  m !! k = None →
  size (filter P (<[k := x]> m))
  = (size (filter P m) + (if decide (P (k, x)) then 1 else 0))%nat.
Proof.
  intros Hk. case_decide.
  - rewrite map_filter_insert_True by done.
    rewrite map_size_insert_None; [lia|].
    by apply map_lookup_filter_None_2; left.
  - rewrite map_filter_insert_not' by (done || by rewrite Hk). lia.
Qed.

Lemma size_filter_overwrite (m : gmap Z A) k x y :
  m !! k = Some x →
  (size (filter P (<[k := y]> m)) + (if decide (P (k, x)) then 1 else 0)
   = size (filter P m) + (if decide (P (k, y)) then 1 else 0))%nat.
Proof.
  intros Hk. rewrite <- (insert_delete_id m k x Hk) at 2.
  rewrite <- (insert_delete_eq m k y).
  rewrite !size_filter_insert_fresh by apply lookup_delete_eq. lia.
Qed.

End counts.

Section staffing_and_tasks.
Context `{W : !Werkzeug} `{DB : !Sqlite}.

Lemma manpower_outcome req st e s u :
  founder req st →
  method req = POST →
  form_get_int req "event_id" = Some e → e ≠ 0 →
  form_get_int req "session_id" = Some s → s ≠ 0 →
  form_get_int req "user_id" = Some u → u ≠ 0 →
  fits_int64 e = true → fits_int64 s = true → fits_int64 u = true →
  Py.strip (form_get_or req "role" "") ≠ "" →
  serve manpower_view req st
  = mkOutcome
      (with_manpower_allocations
         (<[Query.next_id (manpower_allocations st) := allocation req e s u]>
            (manpower_allocations st)) st)
      [("Manpower allocation added", "success")] (cookie req)
      (Redirect "manpower_view").
Proof.
  intros (uid & me & Hme%caller_Some & Hrole) Hm He He0 Hs Hs0 Hu Hu0 Hef
    Hsf Huf Hr.
  unfold serve, manpower_view, login_required, is_post. rewrite Hm.
  unfold_monad. simpl. rewrite Hme. simpl. rewrite Hme. simpl.
  rewrite bool_decide_eq_true_2 by done. rewrite He, Hs, Hu. simpl.
  destruct (Z.eqb_spec e 0); [done|]. destruct (Z.eqb_spec s 0); [done|].
  destruct (Z.eqb_spec u 0); [done|]. simpl.
  destruct (Py.truthy _) eqn:Htruthy.
  - by rewrite Hef, Hsf, Huf.
  - by destruct (Py.strip (form_get_or req "role" "")).
Qed.

(** X23.  Allocations are not de-duplicated: the same complete request
    (three non-zero ids that fit 64 bits, a role) sent twice by a
    founder stores the same row twice, under two consecutive keys. *)
Theorem manpower_request_repeated req st e s u :
  founder req st →
  method req = POST →
  form_get_int req "event_id" = Some e → e ≠ 0 →
  form_get_int req "session_id" = Some s → s ≠ 0 →
  form_get_int req "user_id" = Some u → u ≠ 0 →
  fits_int64 e = true → fits_int64 s = true → fits_int64 u = true →
  Py.strip (form_get_or req "role" "") ≠ "" →
  let n := Query.next_id (manpower_allocations st) in
  let st2 := store (serve manpower_view req
                      (store (serve manpower_view req st))) in
  manpower_allocations st2
  = <[n + 1 := allocation req e s u]>
      (<[n := allocation req e s u]> (manpower_allocations st))
  ∧ size (manpower_allocations st2)
    = S (S (size (manpower_allocations st))).
Proof.
  intros Hfounder Hm He He0 Hs Hs0 Hu Hu0 Hef Hsf Huf Hr n st2.
  pose proof (next_id_fresh (manpower_allocations st)) as Hfresh.
  assert (manpower_allocations st2
          = <[n + 1 := allocation req e s u]>
              (<[n := allocation req e s u]> (manpower_allocations st)))
    as Hst2.
  { unfold st2. rewrite (manpower_outcome req st e s u) by done. simpl.
    rewrite (manpower_outcome req _ e s u) by done. simpl.
    by rewrite next_id_insert. }
  split; [done|]. rewrite Hst2.
  rewrite !map_size_insert_None; [done|done|].
  rewrite lookup_insert_ne by (unfold n; lia).
  apply eq_None_not_Some. intros [x Hx].
  apply next_id_above in Hx. fold n in Hx. lia.
Qed.

Lemma add_task_outcome env req st a u :
  founder req st →
  method req = POST →
  form_get req "action" = Some "add_task" →
  form_get_int req "athlete_session_id" = Some a → a ≠ 0 →
  form_get_int req "assigned_to_user_id" = Some u → u ≠ 0 →
  fits_int64 a = true → fits_int64 u = true →
  Py.strip (form_get_or req "type" "") ≠ "" →
  serve (edits_view env) req st
  = mkOutcome
      (with_edit_tasks
         (<[Query.next_id (edit_tasks st) :=
              EditTask.mk a u (Py.strip (form_get_or req "type" ""))
                "not_started" None (utcnow env)]> (edit_tasks st)) st)
      [("Edit task created", "success")] (cookie req)
      (Redirect "edits_view").
Proof.
  intros (uid & me & Hme%caller_Some & Hrole) Hm Hact Ha Ha0 Hu Hu0 Haf Huf
    Ht.
  unfold serve, edits_view, login_required, is_post. rewrite Hm, Hact.
  unfold_monad. simpl. rewrite Hme. simpl. rewrite Hme. simpl.
  rewrite bool_decide_eq_true_2 by done. unfold add_task.
  rewrite Ha, Hu. simpl.
  destruct (Z.eqb_spec a 0); [done|]. destruct (Z.eqb_spec u 0); [done|].
  simpl. destruct (Py.truthy _) eqn:Htruthy.
  - unfold_monad. simpl. by rewrite Haf, Huf.
  - by destruct (Py.strip (form_get_or req "type" "")).
Qed.

(** X24.  A task a founder creates starts as pending work: the
    dashboard's count of pending edits goes up by one, whatever the
    type and whoever the assignee (the booking and assignee ids being
    non-zero and fitting 64 bits). *)
Theorem new_task_is_pending env req st a u :
  founder req st →
  method req = POST →
  form_get req "action" = Some "add_task" →
  form_get_int req "athlete_session_id" = Some a → a ≠ 0 →
  form_get_int req "assigned_to_user_id" = Some u → u ≠ 0 →
  fits_int64 a = true → fits_int64 u = true →
  Py.strip (form_get_or req "type" "") ≠ "" →
  pending_edits (store (serve (edits_view env) req st))
  = S (pending_edits st).
Proof.
  intros Hfounder Hm Hact Ha Ha0 Hu Hu0 Haf Huf Ht.
  rewrite (add_task_outcome env req st a u) by done.
  unfold pending_edits. simpl.
  rewrite size_filter_insert_fresh by apply next_id_fresh.
  simpl. rewrite ?decide_True by done. lia.
Qed.

Lemma update_status_outcome env req st uid me k t :
  caller req st = Some (uid, me) →
  method req = POST →
  form_get req "action" = Some "update_status" →
  Query.get (form_get_int req "task_id") (edit_tasks st)
  = inr (Some (k, t)) →
  User.role me = "founder" ∨ EditTask.assigned_to_user_id t = uid →
  serve (edits_view env) req st
  = mkOutcome
      (with_edit_tasks
         (<[k := updated_task (utcnow env)
                   (Py.strip (form_get_or req "status" ""))
                   (Py.strip (form_get_or req "deliverable_link" "")) t]>
            (edit_tasks st)) st)
      [("Task updated", "success")] (cookie req) (Redirect "edits_view").
Proof.
  intros Hme%caller_Some Hm Hact Hk Hallowed.
  unfold serve, edits_view, login_required, is_post. rewrite Hm, Hact.
  unfold_monad. simpl. rewrite Hme. simpl.
  unfold update_status. unfold_monad. simpl. rewrite Hk. simpl.
  rewrite Hme. simpl.
  assert ((if bool_decide (User.role me = "founder") then false
           else bool_decide (EditTask.assigned_to_user_id t ≠ uid))
          = false) as Hgate.
  { case_bool_decide; [done|]. apply bool_decide_eq_false_2.
    destruct Hallowed; [done|]. by intros ?. }
  destruct (bool_decide (User.role me = "founder")); simpl;
    rewrite ?Hme; simpl; rewrite ?Hgate; simpl;
    unfold updated_task;
    by destruct (Py.truthy (Py.strip (form_get_or req "status" ""))).
Qed.

(** X25.  The dashboard's count of pending edits follows the status
    written by an update: it drops by one when a pending task is set to
    ["sent_to_client"], rises by one when a sent task is given any other
    status, and stays when the status field is empty. *)
Theorem pending_count_follows_status env req st uid me k t :
  caller req st = Some (uid, me) →
  method req = POST →
  form_get req "action" = Some "update_status" →
  Query.get (form_get_int req "task_id") (edit_tasks st)
  = inr (Some (k, t)) →
  User.role me = "founder" ∨ EditTask.assigned_to_user_id t = uid →
  let status := Py.strip (form_get_or req "status" "") in
  let st' := store (serve (edits_view env) req st) in
  (pending_edits st' + pending_count t
   = pending_edits st
     + (if decide (status = "") then pending_count t
        else if decide (status = "sent_to_client") then 0 else 1))%nat.
Proof.
  intros Hme Hm Hact Hk Hallowed status st'.
  apply get_Some in Hk as Hlook. destruct Hlook as [_ Hlook].
  unfold st'. rewrite (update_status_outcome env req st uid me k t) by done.
  unfold pending_edits. simpl. fold status.
  pose proof (size_filter_overwrite
                (λ x : Z * EditTask.t, pending x.2) (edit_tasks st) k t
                (updated_task (utcnow env) status
                   (Py.strip (form_get_or req "deliverable_link" "")) t)
                Hlook) as Hsize.
  unfold pending_count. unfold pending in *. simpl in *.
  rewrite Hsize. f_equal.
  destruct status as [|c s]; simpl; [done|].
  repeat case_decide; done.
Qed.

End staffing_and_tasks.

(** ** Failed requests *)

Section failures.
Context `{W : !Werkzeug} `{DB : !Sqlite}.

Lemma session_user_of_exn uid st e :
  session_user_of uid st = inl e → e = OverflowError.
Proof.
  unfold session_user_of, load_user, Query.get.
  destruct uid as [k|]; [|done]. by destruct (fits_int64 k); intros [= <-].
Qed.

Lemma get_exn {A} (k : option Z) (m : gmap Z A) e :
  Query.get k m = inl e → e = OverflowError.
Proof.
  unfold Query.get. destruct k as [k|]; [|done].
  by destruct (fits_int64 k); intros [= <-].
Qed.

Lemma failure_cases env url view req st :
  (url, view) ∈ routes env →
  match response (serve view req st) with
  | Abort code =>
      store (serve view req st) = st
      ∧ (code = 403 ∨ code = 404 ∨ code = 405)
  | ServerError e =>
      store (serve view req st) = st
      ∧ (e = OverflowError
         ∨ method req = POST
           ∧ (url = "/sd-cards"
              ∧ e ∈ [ValueError; IntegrityError; AttributeError]
              ∨ url = "/athletes" ∧ e = ValueError))
  | _ => True
  end.
Proof.
  intros Hin.
  each_route Hin; run_view; split_cases.
  all: try match goal with
           | H : session_user_of _ _ = inl _ |- _ =>
               by apply session_user_of_exn in H
           | H : Query.get _ _ = inl _ |- _ => by apply get_exn in H
           end.
  all: try (split; [done|]); try (by left); try (by right; left);
    try (by right; right).
  all: try match goal with
           | H : negb _ = false |- _ =>
               by rewrite ?andb_false_r in H
           end.
  all: try (right; split; [done|];
    first [by right | left; split; [done|set_solver]]).
  all: match goal with
       | H : session_user_of ?c ?st = _, H' : session_user_of ?c ?st = _ |- _ =>
           congruence
       end.
Qed.

End failures.

Section failures_located.
Context `{W : !Werkzeug} `{DB : !Sqlite}.

Lemma missing_card_cases env req st :
  response (serve (sd_cards_view env) req st) = ServerError AttributeError →
  ∃ log_id log,
    sd_card_logs st !! log_id = Some log
    ∧ sd_cards st !! SdCardLog.sd_card_id log = None.
Proof.
  run_view. intros Hresp. split_cases; use_get.
  all: try match goal with
           | H : session_user_of _ _ = inl _ |- _ =>
               by apply session_user_of_exn in H
           | H : Query.get _ _ = inl _ |- _ => by apply get_exn in H
           end.
  all: try match goal with
           | H : session_user_of ?c ?st = _,
             H' : session_user_of ?c ?st = _ |- _ => congruence
           end.
  all: match goal with
       | H : Query.row _ _ = None |- _ =>
           unfold Query.row in H; apply fmap_None in H
       end.
  all: by eexists _, _.
Qed.

(** X26.  A request answered with an abort or a server error leaves
    the store as it was, on every route: what the handler wrote before
    the failure is not committed.  In particular an athlete row added
    for a booking whose session or package id then fails to parse is
    not stored. *)
Theorem failed_request_writes_nothing env url view req st :
  (url, view) ∈ routes env →
  failed (response (serve view req st)) →
  store (serve view req st) = st.
Proof.
  intros Hin Hfailed. pose proof (failure_cases env url view req st Hin).
  by destruct (response (serve view req st)); destruct_and?.
Qed.

(** X27.  An [OverflowError] (an integer outside the 64-bit range
    bound to a query) apart, server errors come from two pages only,
    and only on POST: [/sd-cards] (a number that does not parse, a
    label in use, a log whose card is missing) and [/athletes] (a
    session or package id that does not parse).  No route raises
    [TypeError]. *)
Theorem server_errors_located env url view req st e :
  (url, view) ∈ routes env →
  response (serve view req st) = ServerError e →
  e = OverflowError
  ∨ method req = POST
    ∧ (url = "/sd-cards" ∧ e ∈ [ValueError; IntegrityError; AttributeError]
       ∨ url = "/athletes" ∧ e = ValueError).
Proof.
  intros Hin Hresp. pose proof (failure_cases env url view req st Hin) as H.
  rewrite Hresp in H. by destruct H as (_ & ?).
Qed.

(** X28.  In every state reached from the empty store, returning a card
    never fails for want of the card: no request is answered with
    [AttributeError]. *)
Theorem return_finds_its_card env url view req st :
  rtc app_step empty_store st →
  (url, view) ∈ routes env →
  response (serve view req st) ≠ ServerError AttributeError.
Proof.
  intros Hreach Hin Hresp.
  pose proof (failure_cases env url view req st Hin) as H.
  rewrite Hresp in H.
  destruct H as (_ & [?|(_ & [[-> _]|[_ ?]])]); [done| |done].
  each_route Hin.
  apply missing_card_cases in Hresp as (log_id & log & Hlog & Hnone).
  apply reachable_custody_sound in Hreach as (_ & _ & Hrefer).
  destruct (Hrefer log_id log Hlog) as [card Hcard]. congruence.
Qed.

End failures_located.

(** ** Dates *)

Ltac read_checks :=
  repeat match goal with
  | H : _ && _ = true |- _ => apply andb_true_iff in H as [? ?]
  | H : (_ <=? _)%N = true |- _ => apply N.leb_le in H
  | H : (_ <=? _) = true |- _ => apply Z.leb_le in H
  | H : (_ <? _) = true |- _ => apply Z.ltb_lt in H
  end.

Lemma digit_range c d : Py.digit c = Some d → 0 ≤ d ≤ 9.
Proof.
  unfold Py.digit. case_match eqn:Hc; [|done]. intros [= <-]. read_checks. lia.
Qed.

Lemma all_digits_range s v :
  Py.all_digits s = Some v → 0 ≤ v < 10 ^ Z.of_nat (String.length s).
Proof.
  unfold Py.all_digits.
  assert (∀ acc,
    (fix go (acc : Z) (s : string) : option Z :=
       match s with
       | EmptyString => Some acc
       | String c r =>
           match Py.digit c with
           | Some d => go (10 * acc + d) r
           | None => None
           end
       end) acc s = Some v →
    acc * 10 ^ Z.of_nat (String.length s) ≤ v
    < (acc + 1) * 10 ^ Z.of_nat (String.length s)) as Hgo.
  { induction s as [|c r IH]; intros acc; simpl String.length.
    - intros [= <-]. simpl. lia.
    - destruct (Py.digit c) as [d|] eqn:Hd; [|done].
      apply digit_range in Hd. intros Hv%IH.
      rewrite Nat2Z.inj_succ, Z.pow_succ_r by lia.
      pose proof (Z.pow_pos_nonneg 10 (Z.of_nat (String.length r))).
      nia. }
  intros Hv%Hgo. lia.
Qed.

Lemma month_field_range s m : Py.month_field s = Some m → 1 ≤ m ≤ 12.
Proof.
  unfold Py.month_field. destruct (Py.all_digits s); [|done].
  case_match eqn:Hc; [|done]. intros [= <-]. read_checks. lia.
Qed.

Lemma day_field_range s d : Py.day_field s = Some d → 1 ≤ d.
Proof.
  unfold Py.day_field. destruct (Py.all_digits _); [|done].
  case_match eqn:Hc; [|done]. intros [= <-]. read_checks. lia.
Qed.

Lemma strptime_calendar_date s d :
  Py.strptime_ymd s = Some d → calendar_date d.
Proof.
  unfold Py.strptime_ymd.
  destruct (Py.split_dash s) as [ys [rest|]]; [|done].
  destruct (Py.split_dash rest) as [ms [ds|]]; [|done].
  destruct (negb _) eqn:Hlen; [done|].
  apply negb_false_iff, Nat.eqb_eq in Hlen.
  destruct (Py.all_digits ys) as [y|] eqn:Hy; [|done]. simpl.
  destruct (Py.month_field ms) as [m|] eqn:Hm; [|done]. simpl.
  destruct (Py.day_field ds) as [day|] eqn:Hd; [|done]. simpl.
  case_match eqn:Hc; [|done]. intros [= <-].
  read_checks. apply all_digits_range in Hy. rewrite Hlen in Hy.
  apply month_field_range in Hm. apply day_field_range in Hd.
  unfold calendar_date. simpl. lia.
Qed.

Section dates.
Context `{W : !Werkzeug} `{DB : !Sqlite}.

Lemma write_dates_valid env req st st' :
  write env req st st' → dates_valid st → dates_valid st'.
Proof.
  intros [] [Hevents Hsessions]; try done.
  - split; [|done]. apply map_Forall_insert_2; [|done].
    split; by eapply strptime_calendar_date.
  - split; [done|]. apply map_Forall_insert_2; [|done].
    by eapply strptime_calendar_date.
Qed.

(** X29.  Every date stored by the events page is a calendar date: in
    every state reached from the empty store the start and end of each
    event and the date of each session have a year from 1 to 9999, a
    month from 1 to 12 and a day that exists in that month. *)
Theorem stored_dates_are_calendar_dates st :
  rtc app_step empty_store st → dates_valid st.
Proof.
  revert st. apply (rtc_ind_r dates_valid empty_store).
  - split; apply map_Forall_empty.
  - intros st st' _ Hstep Hvalid.
    destruct Hstep as [env url view req Hin|env e n p].
    + apply (write_dates_valid env req st); [|done].
      by apply route_write with url.
    + by destruct (create_admin_change env e n p st) as [->|[_ ->]].
Qed.

(** X30.  The events page does not compare the two dates: when both
    parse and the name is not empty the event is stored with the dates
    as typed, whether or not the end precedes the start. *)
Theorem event_dates_not_compared req st d1 d2 :
  founder req st →
  method req = POST →
  form_get req "action" = Some "add_event" →
  Py.strip (form_get_or req "name" "") ≠ "" →
  Py.strptime_ymd (Py.strip (form_get_or req "date_start" "")) = Some d1 →
  Py.strptime_ymd (Py.strip (form_get_or req "date_end" "")) = Some d2 →
  serve manage_events req st
  = mkOutcome
      (with_events
         (<[Query.next_id (events st) :=
              Event.mk (Py.strip (form_get_or req "name" "")) d1 d2
                (Some (Py.strip (form_get_or req "location" "")))]>
            (events st)) st)
      [("Event created", "success")] (cookie req) (Redirect "manage_events").
Proof.
  intros (uid & me & Hme & Hrole) Hm Hact Hname Hd1 Hd2.
  apply caller_Some in Hme.
  unfold serve, manage_events, login_required, founder_required, is_post.
  rewrite Hm, Hact. unfold_monad. simpl. rewrite Hme. simpl.
  rewrite Hme. simpl. rewrite bool_decide_eq_false_2 by (by intros []).
  unfold add_event. rewrite Hd1, Hd2.
  destruct (Py.truthy _) eqn:Htruthy; [done|].
  by destruct (Py.strip (form_get_or req "name" "")).
Qed.

End dates.

(** ** The properties on sample data *)

#[local] Existing Instance Sample.sqlite.

Ltac in_routes :=
  unfold routes;
  solve [repeat first [apply list_elem_of_here | apply list_elem_of_further]].

Ltac by_request url :=
  apply (step_request (W := Sample.werkzeug) _ Sample.env url); in_routes.

(** The sample history is one of the application. *)
Ltac tour :=
  unfold Tour.s5, Tour.s4, Tour.s3, Tour.s2, Tour.s1;
  repeat first
    [ apply rtc_refl
    | eapply rtc_r;
      [|first
          [ apply (step_create_admin (W := Sample.werkzeug) _ Sample.env)
          | by_request "/sd-cards"
          | by_request "/admin/events"
          | by_request "/athletes" ]] ].

(** The dashboard asked for, then posted to, without a login session. *)
Lemma anonymous_redirected_to_login_witness :
  serve (get_only dashboard) (Tour.visit None) Sample.st
  = login_redirect (Tour.visit None) Sample.st
  ∧ serve (get_only dashboard) (Sample.post None []) Sample.st
    = unchanged (Sample.post None []) Sample.st (Abort 405).
Proof.
  split.
  - apply (anonymous_redirected_to_login (W := Sample.werkzeug) Sample.env
             "/" (get_only dashboard) (Tour.visit None) Sample.st);
      [in_routes|done|reflexivity|by left].
  - apply (anonymous_redirected_to_login (W := Sample.werkzeug) Sample.env
             "/" (get_only dashboard) (Sample.post None []) Sample.st);
      [in_routes|done|reflexivity|done|set_solver].
Defined.

(** Sam sends the checkout fields with GET. *)
Lemma read_paths_never_write_witness :
  let req :=
    mkRequest GET (Some 2) [("action", "checkout"); ("sd_card_id", "2")] []
  in
  store (serve (sd_cards_view Sample.env) req Sample.st) = Sample.st.
Proof.
  intros req.
  apply (read_paths_never_write (W := Sample.werkzeug) Sample.env
           "/sd-cards");
    [in_routes|by left].
Defined.

(** Sam, a freelancer, posts a complete allocation. *)
Lemma only_founders_write_admin_tables_witness :
  let req :=
    Sample.post (Some 2)
      [("event_id", "1"); ("session_id", "1"); ("user_id", "2");
       ("role", "photographer")] in
  ¬ founder req Sample.st
  ∧ founder_tables (store (serve manpower_view req Sample.st))
    = founder_tables Sample.st.
Proof.
  intros req.
  assert (¬ founder req Sample.st) as Hsam.
  { intros (uid & me & Hme & Hrole). vm_compute in Hme.
    injection Hme as <- <-. discriminate Hrole. }
  split; [done|].
  by destruct (only_founders_write_admin_tables (W := Sample.werkzeug)
                 Sample.env "/manpower" manpower_view req Sample.st
                 ltac:(in_routes) Hsam) as [Htables _].
Defined.

(** The whole sample history. *)
Lemma history_append_only_witness : append_only empty_store Tour.s5.
Proof. apply (history_append_only (W := Sample.werkzeug)). tour. Defined.

(** The sample history from the first card on. *)
Lemma history_keeps_identities_witness :
  identities_kept Tour.s2 Tour.s5.
Proof.
  apply (history_keeps_identities (W := Sample.werkzeug)).
  unfold Tour.s5, Tour.s4, Tour.s3.
  eapply rtc_l; [by_request "/sd-cards"|].
  eapply rtc_l; [by_request "/admin/events"|].
  apply rtc_once. by_request "/athletes".
Defined.

(** The founder adds Ann to the sample store. *)
Lemma emails_stay_unique_witness :
  unique_emails Sample.st
  ∧ unique_emails
      (store (serve (manage_users (W := Sample.werkzeug) Sample.env)
                (Sample.post (Some 1)
                   [("action", "add_user"); ("name", "Ann");
                    ("email", "ann@example.com"); ("password", "pw4")])
                Sample.st)).
Proof.
  assert (unique_emails Sample.st) as Huniq by compute_done.
  split; [done|].
  apply (emails_stay_unique (W := Sample.werkzeug) Sample.st _ Huniq).
  apply rtc_once. by_request "/admin/users".
Defined.

(** The founder adds Ann as a second founder. *)
Lemma valid_role_field_keeps_roles_witness :
  let req :=
    Sample.post (Some 1)
      [("action", "add_user"); ("name", "Ann"); ("email", "ann@example.com");
       ("password", "pw4"); ("role", "founder")] in
  roles_valid Sample.st
  ∧ roles_valid
      (store (serve (manage_users (W := Sample.werkzeug) Sample.env) req
                Sample.st)).
Proof.
  intros req. assert (roles_valid Sample.st) as Hvalid by compute_done.
  split; [done|].
  apply (valid_role_field_keeps_roles (W := Sample.werkzeug) Sample.env
           "/admin/users");
    [in_routes|by left|done].
Defined.

(** Sam, alone in the store, asks for the founder role. *)
Lemma no_founder_is_final_witness :
  let st := with_users (<[2 := Sample.sam]> ∅) empty_store in
  let st' :=
    store (serve (manage_users (W := Sample.werkzeug) Sample.env)
             (Sample.post (Some 2)
                [("action", "change_role"); ("user_id", "2");
                 ("role", "founder")])
             st) in
  no_founder st ∧ founder_tables st' = founder_tables st ∧ no_founder st'.
Proof.
  intros st st'. assert (no_founder st) as Hnone by compute_done.
  split; [done|].
  apply (no_founder_is_final (W := Sample.werkzeug) st st' Hnone).
  apply rtc_once.
  apply (request_served (W := Sample.werkzeug) _ Sample.env "/admin/users").
  in_routes.
Defined.

(** After the founder has taken the card out. *)
Lemma cards_in_use_match_open_logs_witness :
  sd_in_use Tour.s3 = size (open_logs_listing Tour.s3).
Proof.
  apply (cards_in_use_match_open_logs (W := Sample.werkzeug)). tour.
Defined.

(** After the founder has taken the card out. *)
Lemma card_status_stays_in_cycle_witness : statuses_in_cycle Tour.s3.
Proof.
  apply (card_status_stays_in_cycle (W := Sample.werkzeug)). tour.
Defined.

(** After the first card was added. *)
Lemma card_labels_unique_and_present_witness :
  labels_unique Tour.s2 ∧ labels_present Tour.s2.
Proof.
  apply (card_labels_unique_and_present (W := Sample.werkzeug)). tour.
Defined.

(** Sam takes card 2 with the event field [x1]. *)
Lemma checkout_non_numeric_context_witness :
  let req :=
    Sample.post (Some 2)
      [("action", "checkout"); ("sd_card_id", "2"); ("event_id", "x1")] in
  serve (sd_cards_view Sample.env) req Sample.st
  = unchanged req Sample.st (ServerError ValueError).
Proof.
  intros req.
  apply (checkout_non_numeric_context Sample.env req Sample.st 2 Sample.sam
           2 (SdCard.mk "SD-02" None "available"));
    [reflexivity|reflexivity|reflexivity|reflexivity|reflexivity|].
  left. reflexivity.
Defined.

(** Sam takes card 2 at time 100, Kim returns it at time 200. *)
Lemma checkout_then_return_witness :
  let out :=
    Sample.post (Some 2)
      [("action", "checkout"); ("sd_card_id", "2"); ("session_id", "7")] in
  let back := Sample.post (Some 3) [("action", "return"); ("log_id", "2")] in
  let st1 := store (serve (sd_cards_view Sample.env) out Sample.st) in
  let o2 := serve (sd_cards_view (mkEnv 200 "s")) back st1 in
  flashes o2 = [("SD card returned", "success")]
  ∧ sd_cards (store o2) = sd_cards Sample.st
  ∧ sd_card_logs (store o2)
    = <[2 := SdCardLog.mk 2 2 None (Some 7) (Some "") 100 (Some 200)]>
        (sd_card_logs Sample.st).
Proof.
  intros out back.
  apply (checkout_then_return Sample.env (mkEnv 200 "s") out back Sample.st
           2 Sample.sam 2 (SdCard.mk "SD-02" None "available") None (Some 7));
    try reflexivity.
  by exists (3, Sample.kim).
Defined.

(** The founder adds Ann, ticked active; Ann logs in in capitals. *)
Lemma add_user_then_login_witness :
  let req :=
    Sample.post (Some 1)
      [("action", "add_user"); ("name", "Ann");
       ("email", " Ann@Example.com "); ("password", "pw4");
       ("active", "on")] in
  let st1 :=
    store (serve (manage_users (W := Sample.werkzeug) Sample.env) req
             Sample.st) in
  serve (login (W := Sample.werkzeug)) (login_form "ANN@example.com" "pw4")
    st1
  = mkOutcome st1 [] (Some 4) (Redirect "dashboard").
Proof.
  intros req.
  apply (add_user_then_login (W := Sample.werkzeug) Sample.env req Sample.st
           "ANN@example.com").
  - reflexivity.
  - by exists 1, Sample.boss.
  - by split.
  - intros (k & u & Hk & He).
    assert (bool_decide
              (map_Forall (λ _ u, User.email u ≠ "ann@example.com")
                 (users Sample.st)) = true) as Hall by reflexivity.
    apply bool_decide_eq_true_1 in Hall. by destruct (Hall k u Hk).
  - reflexivity.
Defined.

(** The founder toggles Kim twice. *)
Lemma toggle_active_twice_witness :
  let req :=
    Sample.post (Some 1) [("action", "toggle_active"); ("user_id", "3")] in
  store (serve (manage_users (W := Sample.werkzeug) Sample.env) req
           (store (serve (manage_users (W := Sample.werkzeug) Sample.env) req
                     Sample.st)))
  = Sample.st.
Proof.
  intros req.
  apply (toggle_active_twice (W := Sample.werkzeug) Sample.env Sample.env req
           Sample.st 3 Sample.kim);
    [by exists 1, Sample.boss|reflexivity|reflexivity|reflexivity].
Defined.

(** The founder deactivates Sam, who is still logged in. *)
Lemma deactivated_user_keeps_session_witness :
  let req :=
    Sample.post (Some 1) [("action", "toggle_active"); ("user_id", "2")] in
  let st1 :=
    store (serve (manage_users (W := Sample.werkzeug) Sample.env) req
             Sample.st) in
  let attempt := login_form " Sam@example.com" "pw2" in
  serve (login (W := Sample.werkzeug)) attempt st1 = login_failed attempt st1
  ∧ serve dashboard (Tour.visit (Some 2)) st1
    = unchanged (Tour.visit (Some 2)) st1 (Render "dashboard.html").
Proof.
  intros req.
  apply (deactivated_user_keeps_session (W := Sample.werkzeug) Sample.env
           req Sample.st 2 Sample.sam " Sam@example.com" "pw2");
    [by exists 1, Sample.boss|reflexivity|reflexivity|reflexivity
    |reflexivity|compute_done|reflexivity].
Defined.

(** The founder of the sample store, its only one, steps down. *)
Lemma last_founder_can_demote_self_witness :
  let req :=
    Sample.post (Some 1)
      [("action", "change_role"); ("user_id", "1"); ("role", "freelancer")]
  in
  let o := serve (manage_users (W := Sample.werkzeug) Sample.env) req
             Sample.st in
  flashes o = [("User role updated", "success")]
  ∧ no_founder (store o)
  ∧ ∀ env' url view req',
      (url, view) ∈ routes (W := Sample.werkzeug) env' →
      founder_tables (store (serve view req' (store o)))
      = founder_tables (store o).
Proof.
  intros req.
  apply (last_founder_can_demote_self (W := Sample.werkzeug) Sample.env req
           Sample.st 1 Sample.boss);
    [reflexivity|reflexivity|reflexivity|reflexivity|reflexivity
    |reflexivity|].
  intros k u Hk Hother.
  assert (bool_decide
            (map_Forall (λ k u, k ≠ 1 → User.role u ≠ "founder")
               (users Sample.st)) = true) as Hall by reflexivity.
  apply bool_decide_eq_true_1 in Hall. by apply (Hall k u Hk).
Defined.

(** The booking of the sample history. *)
Lemma bookings_always_name_an_athlete_witness :
  is_Some (athletes Tour.s5 !! 1).
Proof.
  apply (bookings_always_name_an_athlete (W := Sample.werkzeug) Tour.s5 1
           (AthleteSession.mk 1 1 1 (Some "") (Some "") (Some "") false
              (Some "")));
    [tour|reflexivity].
Defined.

(** The log of the sample history. *)
Lemma borrowers_always_users_witness : is_Some (users Tour.s3 !! 1).
Proof.
  apply (borrowers_always_users (W := Sample.werkzeug) Tour.s3 1
           (SdCardLog.mk 1 1 None None (Some "shoot") 100 None));
    [tour|reflexivity].
Defined.

(** The end of the sample history. *)
Lemma athletes_never_duplicated_witness : athletes_distinct Tour.s5.
Proof.
  apply (athletes_never_duplicated (W := Sample.werkzeug)). tour.
Defined.

(** The founder made by the bootstrap script. *)
Lemma stored_emails_normal_witness :
  normalize "boss@example.com" = "boss@example.com".
Proof.
  apply (stored_emails_normal (W := Sample.werkzeug) Tour.s1 1
           (User.mk "Boss" "boss@example.com" "s$pw" "founder" true));
    [tour|reflexivity].
Defined.

(** The founder allocates Sam twice as photographer. *)
Lemma manpower_request_repeated_witness :
  let req :=
    Sample.post (Some 1)
      [("event_id", "1"); ("session_id", "1"); ("user_id", "2");
       ("role", " photographer ")] in
  let row := ManpowerAllocation.mk 1 1 2 "photographer" (Some "") in
  let st2 := store (serve manpower_view req
                      (store (serve manpower_view req Sample.st))) in
  manpower_allocations st2 = <[2 := row]> (<[1 := row]> ∅)
  ∧ size (manpower_allocations st2) = 2%nat.
Proof.
  intros req.
  apply (manpower_request_repeated req Sample.st 1 1 2);
    [by exists 1, Sample.boss|reflexivity|reflexivity|lia|reflexivity|lia
    |reflexivity|lia|reflexivity|reflexivity|reflexivity|discriminate].
Defined.

(** The founder gives Sam a second task. *)
Lemma new_task_is_pending_witness :
  let req :=
    Sample.post (Some 1)
      [("action", "add_task"); ("athlete_session_id", "1");
       ("assigned_to_user_id", "2"); ("type", "photos")] in
  pending_edits (store (serve (edits_view Sample.env) req Sample.st))
  = 2%nat.
Proof.
  intros req.
  apply (new_task_is_pending Sample.env req Sample.st 1 2);
    [by exists 1, Sample.boss|reflexivity|reflexivity|reflexivity|lia
    |reflexivity|lia|reflexivity|reflexivity|discriminate].
Defined.

(** Sam sends his task to the client. *)
Lemma pending_count_follows_status_witness :
  let req :=
    Sample.post (Some 2)
      [("action", "update_status"); ("task_id", "1");
       ("status", " sent_to_client ")] in
  (pending_edits (store (serve (edits_view Sample.env) req Sample.st)) + 1
   = pending_edits Sample.st + 0)%nat.
Proof.
  intros req.
  apply (pending_count_follows_status Sample.env req Sample.st 2 Sample.sam
           1 Sample.task);
    [reflexivity|reflexivity|reflexivity|reflexivity|by right].
Defined.

(** A booking for a new athlete whose session id is [one]. *)
Lemma failed_request_writes_nothing_witness :
  let req :=
    Sample.post (Some 1)
      [("action", "add_athlete_session"); ("athlete_name", "Jane Doe");
       ("team", "Iron"); ("session_id", "one"); ("package_id", "1")] in
  response (serve athletes_view req Sample.st) = ServerError ValueError
  ∧ store (serve athletes_view req Sample.st) = Sample.st.
Proof.
  intros req. split; [reflexivity|].
  apply (failed_request_writes_nothing (W := Sample.werkzeug) Sample.env
           "/athletes");
    [in_routes|exact I].
Defined.

(** The founder adds a card under a label in use. *)
Lemma server_errors_located_witness :
  let req :=
    Sample.post (Some 1)
      [("action", "add_card"); ("label", "SD-01"); ("capacity_gb", "64")] in
  IntegrityError = OverflowError
  ∨ method req = POST
    ∧ ("/sd-cards" = "/sd-cards"
       ∧ IntegrityError ∈ [ValueError; IntegrityError; AttributeError]
       ∨ "/sd-cards" = "/athletes" ∧ IntegrityError = ValueError).
Proof.
  intros req.
  apply (server_errors_located (W := Sample.werkzeug) Sample.env "/sd-cards"
           (sd_cards_view Sample.env) req Sample.st);
    [in_routes|reflexivity].
Defined.

(** The founder returns the card of the sample history. *)
Lemma return_finds_its_card_witness :
  response
    (serve (sd_cards_view Sample.env)
       (Sample.post (Some 1) [("action", "return"); ("log_id", "1")])
       Tour.s3)
  ≠ ServerError AttributeError.
Proof.
  apply (return_finds_its_card (W := Sample.werkzeug) Sample.env "/sd-cards");
    [tour|in_routes].
Defined.

(** After the event of the sample history. *)
Lemma stored_dates_are_calendar_dates_witness : dates_valid Tour.s4.
Proof.
  apply (stored_dates_are_calendar_dates (W := Sample.werkzeug)). tour.
Defined.

(** The event of the sample history ends the day before it starts. *)
Lemma event_dates_not_compared_witness :
  serve manage_events Tour.add_event Tour.s3
  = mkOutcome
      (with_events
         (<[1 := Event.mk "Regionals" (2024, 3, 2) (2024, 3, 1) (Some "")]>
            ∅) Tour.s3)
      [("Event created", "success")] (Some 1) (Redirect "manage_events").
Proof.
  apply (event_dates_not_compared Tour.add_event Tour.s3 (2024, 3, 2)
           (2024, 3, 1));
    [eexists 1, _; split; reflexivity|reflexivity|reflexivity|discriminate
    |reflexivity|reflexivity].
Defined.
